(** * libbitcoin-database: the memory-mapped file and the transaction store

    A shallow embedding of [src/memory/memory_map.cpp] and
    [src/databases/transaction_database.cpp].

    - [MemoryMap] models the growth policy of the mapped file
      ([reserve], [resize], [truncate], [map], [remap], [validate]).
    - [Serial] models the byte (de)serializer the database reads and writes
      records with: a buffer and a cursor, with little-endian integers and
      the variable-length size encoding.
    - [TransactionDatabase] models the record engine on the bytes of the
      slabs: [get], [get_output], [store], [pool], [spend], [unspend],
      [update], [confirm] and [unconfirm].
    - [RecordFormat] gives the record layout as a structured value and its
      encoding, and relates the byte-level operations to it.
    - [MemoryMapLifecycle] models the construction of the map and its
      shutdown ([file_size], the constructor, [stop]).
    - [Frame] names what the updates of the database leave in place. *)

From Stdlib Require Import ZArith List Bool Lia.
From stdpp Require Import base option list gmap.

Local Open Scope Z_scope.

(** ** Unsigned machine integers *)

Definition max_uint16 : Z := 65535.
Definition max_uint32 : Z := 4294967295.
Definition max_size_t : Z := 18446744073709551615.

(** [size_t] arithmetic wraps modulo [2^64] (the file asserts a 64 bit
    system). *)
Definition wrap_size_t (z : Z) : Z := z mod 18446744073709551616.
Definition to_uint32 (z : Z) : Z := z mod 4294967296.
Definition to_uint16 (z : Z) : Z := z mod 65536.
Definition to_uint8 (z : Z) : Z := z mod 256.

(** ** memory_map.cpp *)

Module MemoryMap.

Definition EXPANSION_NUMERATOR : Z := 150.
Definition EXPANSION_DENOMINATOR : Z := 100.

(** The members of [memory_map] the growth path reads and writes.
    [data_] is [true] while the pointer holds a mapping and [false] when it
    is [nullptr]. *)
Record memory_map := MemoryMapState {
  stopped_ : bool;
  data_ : bool;
  file_size_ : Z;
  logical_size_ : Z
}.

(** What the operating system answers to the calls of one [truncate]:
    [munmap] and [ftruncate] succeed or return [-1], and [mmap]/[mremap]
    return a mapping or [MAP_FAILED]. *)
Record os_answers := OsAnswers {
  munmap_ok : bool;
  ftruncate_ok : bool;
  mmap_ok : bool
}.

Definition os_all_ok : os_answers := OsAnswers true true true.

(** A call either returns or throws [std::runtime_error]; both carry the
    members as the call left them. *)
Inductive outcome :=
| Returned (m : memory_map)
| Thrown (m : memory_map).

Definition validate (os : os_answers) (size : Z) (m : memory_map)
  : bool * memory_map :=
  if negb (mmap_ok os)
  then (false, MemoryMapState (stopped_ m) false 0 (logical_size_ m))
  else (true, MemoryMapState (stopped_ m) true size (logical_size_ m)).

Definition unmap (os : os_answers) (m : memory_map) : bool * memory_map :=
  (munmap_ok os, MemoryMapState (stopped_ m) false 0 (logical_size_ m)).

Definition map (os : os_answers) (size : Z) (m : memory_map)
  : bool * memory_map :=
  if size =? 0 then (false, m) else validate os size m.

(** [mremap_maymove] says whether the platform defines [MREMAP_MAYMOVE]. *)
Definition remap (mremap_maymove : bool) (os : os_answers) (size : Z)
    (m : memory_map) : bool * memory_map :=
  if mremap_maymove then validate os size m
  else
    let (unmapped, m1) := unmap os m in
    if unmapped then map os size m1 else (false, m1).

Definition truncate (mremap_maymove : bool) (os : os_answers) (size : Z)
    (m : memory_map) : bool * memory_map :=
  if mremap_maymove then
    if negb (ftruncate_ok os) then (false, m)
    else remap mremap_maymove os size m
  else
    let (unmapped, m1) := unmap os m in
    if negb unmapped then (false, m1)
    else if negb (ftruncate_ok os) then (false, m1)
    else map os size m1.

(** [memory_map::reserve(size_t size, size_t expansion)]. *)
Definition reserve_expansion (mremap_maymove : bool) (os : os_answers)
    (size expansion : Z) (m : memory_map) : outcome :=
  if file_size_ m <? size then
    let new_size := wrap_size_t (size * expansion) / EXPANSION_DENOMINATOR in
    let (truncated, m1) := truncate mremap_maymove os new_size m in
    if negb truncated then Thrown m1
    else Returned (MemoryMapState (stopped_ m1) (data_ m1) (file_size_ m1) size)
  else Returned (MemoryMapState (stopped_ m) (data_ m) (file_size_ m) size).

(** [memory_map::resize(size_t size)]. *)
Definition resize (mremap_maymove : bool) (os : os_answers) (size : Z)
    (m : memory_map) : outcome :=
  reserve_expansion mremap_maymove os size EXPANSION_DENOMINATOR m.

(** [memory_map::reserve(size_t size)]. *)
Definition reserve (mremap_maymove : bool) (os : os_answers) (size : Z)
    (m : memory_map) : outcome :=
  reserve_expansion mremap_maymove os size EXPANSION_NUMERATOR m.

(** Modelled from the spec: the allocator of the slab manager is not in
    the sources at hand. Section 4.3, steps 1 to 3: the offset of the new
    record is the current [logical_size], and [reserve] is called with the
    offset plus the size of the record. *)
Definition allocate (mremap_maymove : bool) (os : os_answers) (size : Z)
    (m : memory_map) : option (Z * memory_map) :=
  let offset := logical_size_ m in
  match reserve mremap_maymove os (wrap_size_t (offset + size)) m with
  | Returned m1 => Some (offset, m1)
  | Thrown _ => None
  end.

End MemoryMap.

(** ** The byte serializer

    Modelled from the spec: the reader and writer over a record's bytes
    belong to the chain library. They are a cursor into a buffer; integers
    are little-endian; a size is one byte below [0xfd], or [0xfd], [0xfe],
    [0xff] followed by 2, 4, 8 bytes (section 6). A read or write outside
    the buffer has no defined behaviour and is a fault ([None]) here. *)

Module Serial.

(** Modelled from the spec: the [n] bytes of [v], least significant first,
    as [write_2_bytes_little_endian] and its siblings lay them out. *)
Fixpoint le_bytes (n : nat) (v : Z) : list Z :=
  match n with
  | O => []
  | S n' => to_uint8 v :: le_bytes n' (v / 256)
  end.

(** Modelled from the spec: the value of little-endian bytes. *)
Fixpoint le_value (bs : list Z) : Z :=
  match bs with
  | [] => 0
  | b :: bs' => to_uint8 b + 256 * le_value bs'
  end.

(** Modelled from the spec: a serializer is a position in the bytes of a
    record; [serial A] is a step that may move it, change the bytes and
    give an [A], or fault. *)
Record cursor := Cursor {
  buffer : list Z;
  offset : nat
}.

Definition serial (A : Type) : Type := cursor -> option (A * cursor).

Definition ret {A : Type} (a : A) : serial A := fun c => Some (a, c).

Definition bind {A B : Type} (m : serial A) (k : A -> serial B) : serial B :=
  fun c => match m c with
           | Some (a, c') => k a c'
           | None => None
           end.

Declare Scope serial_scope.
Delimit Scope serial_scope with serial.
Notation "x <- m ;; k" := (bind m (fun x => k))
  (at level 100, m at next level, right associativity) : serial_scope.
Notation "m ;;; k" := (bind m (fun _ => k))
  (at level 100, right associativity) : serial_scope.
Local Open Scope serial_scope.

Definition skip (n : nat) : serial unit :=
  fun c => Some (tt, Cursor (buffer c) (offset c + n)).

Definition read_bytes (n : nat) : serial (list Z) :=
  fun c =>
    let bs := take n (drop (offset c) (buffer c)) in
    if decide (length bs = n)
    then Some (bs, Cursor (buffer c) (offset c + n))
    else None.

Definition write_bytes (bs : list Z) : serial unit :=
  fun c =>
    if decide (offset c + length bs <= length (buffer c))%nat
    then Some (tt, Cursor (take (offset c) (buffer c) ++ bs ++
                           drop (offset c + length bs) (buffer c))
                          (offset c + length bs))
    else None.

Definition read_byte : serial Z :=
  bs <- read_bytes 1 ;; ret (le_value bs).
Definition read_2_bytes_little_endian : serial Z :=
  bs <- read_bytes 2 ;; ret (le_value bs).
Definition read_4_bytes_little_endian : serial Z :=
  bs <- read_bytes 4 ;; ret (le_value bs).
Definition read_8_bytes_little_endian : serial Z :=
  bs <- read_bytes 8 ;; ret (le_value bs).

Definition varint_two_bytes : Z := 253.
Definition varint_four_bytes : Z := 254.
Definition varint_eight_bytes : Z := 255.

(** Modelled from the spec: the variable-length size of section 6. *)
Definition read_size_little_endian : serial Z :=
  value <- read_byte ;;
  if value =? varint_eight_bytes then read_8_bytes_little_endian
  else if value =? varint_four_bytes then read_4_bytes_little_endian
  else if value =? varint_two_bytes then read_2_bytes_little_endian
  else ret value.

Definition write_byte (v : Z) : serial unit := write_bytes (le_bytes 1 v).
Definition write_2_bytes_little_endian (v : Z) : serial unit :=
  write_bytes (le_bytes 2 v).
Definition write_4_bytes_little_endian (v : Z) : serial unit :=
  write_bytes (le_bytes 4 v).

(** The encoding of a size, the inverse of [read_size_little_endian]. *)
Definition size_bytes (v : Z) : list Z :=
  if v <? varint_two_bytes then [v]
  else if v <=? max_uint16 then varint_two_bytes :: le_bytes 2 v
  else if v <=? max_uint32 then varint_four_bytes :: le_bytes 4 v
  else varint_eight_bytes :: le_bytes 8 v.

(** The cursor that has passed [before] and faces [after]. *)
Definition at_cursor (before after : list Z) : cursor :=
  Cursor (before ++ after) (length before).

(** Running a reader or a writer from the first byte of a record. *)
Definition run_read {A : Type} (reader : serial A) (slab : list Z) : option A :=
  match reader (Cursor slab 0) with
  | Some (a, _) => Some a
  | None => None
  end.

Definition run_write (writer : serial unit) (slab : list Z) : option (list Z) :=
  match writer (Cursor slab 0) with
  | Some (_, c) => Some (buffer c)
  | None => None
  end.

End Serial.

(** ** transaction_database.cpp *)

Module TransactionDatabase.
Import Serial.
Local Open Scope serial_scope.

Definition height_size : nat := 4.
Definition position_size : nat := 2.
Definition state_size : nat := 1.
Definition median_time_past_size : nat := 4.

Definition index_spend_size : nat := 1.
Definition value_size : nat := 8.

Definition spend_size : nat := index_spend_size + height_size + value_size.
Definition metadata_size : nat :=
  height_size + position_size + state_size + median_time_past_size.

Definition no_time : Z := 0.

(** Modelled from the spec: the sentinels are declared in headers that are
    not in the sources at hand; section 6 gives their values.
    [unconfirmed] is [transaction_result::unconfirmed], [not_spent] is
    [output::validation::not_spent], [unverified] is
    [rule_fork::unverified]. *)
Definition unconfirmed : Z := max_uint16.
Definition not_spent : Z := max_uint32.
Definition unverified : Z := 0.

(** Modelled from the spec: [transaction_state] is declared in a header that
    is not in the sources at hand; the record format lists its values as
    invalid, stored, pooled, indexed, confirmed, held in one byte. *)
Inductive transaction_state :=
| invalid
| stored
| pooled
| indexed
| confirmed.

Definition state_byte (s : transaction_state) : Z :=
  match s with
  | invalid => 0
  | stored => 1
  | pooled => 2
  | indexed => 3
  | confirmed => 4
  end.

Definition hash_digest : Type := list Z.
Definition hash_size : nat := 32.
Definition null_hash : hash_digest := repeat 0 hash_size.
Definition null_index : Z := max_uint32.

(** An output as a record holds it: the index-spend flag, the spender
    height, the value and the script. *)
Record output := Output {
  index_spend : Z;
  spender_height : Z;
  value : Z;
  script : list Z
}.

(** [output_point::validation], the metadata [get_output] populates. The
    [prevout_cache] is [None] while it holds no valid output. *)
Record validation := Validation {
  prevout_cache : option output;
  prevout_coinbase : bool;
  prevout_confirmed : bool;
  prevout_height : Z;
  prevout_median_time_past : Z;
  prevout_spent : bool
}.

Definition default_validation : validation :=
  Validation None false false 0 0 false.

Record output_point := OutputPoint {
  point_hash : hash_digest;
  point_index : Z;
  point_metadata : validation
}.

(** Modelled from the spec: [point::is_null] belongs to the chain library;
    a null point is the previous output of a coinbase input, the null hash
    with the null index. *)
Definition is_null (point : output_point) : bool :=
  bool_decide (point_index point = null_index) &&
  bool_decide (point_hash point = null_hash).

(** Modelled from the spec: [output::validation::spent] belongs to the chain
    library; section 4.6 step 8 gives [spender_height <= fork_height]. *)
Definition spent (o : output) (fork_height : Z) : bool :=
  spender_height o <=? fork_height.

(** The unspent output cache is an external collaborator: the database
    only asks it to [populate] a point's metadata and to [remove] a point
    (the call that would add to it is commented out in [confirm]).
    [populate] answers [Some] metadata when it resolves the point. Removal
    behaves as removal from a set, and makes no point resolve. *)
Class OutputCache (C : Type) := {
  populate : C -> output_point -> Z -> option validation;
  remove : C -> output_point -> C;
  remove_commute : forall c p q, remove (remove c p) q = remove (remove c q) p;
  remove_idempotent : forall c p, remove (remove c p) p = remove c p;
  remove_miss : forall c q p fork_height,
    populate c p fork_height = None ->
    populate (remove c q) p fork_height = None
}.

(** A cache of capacity zero is disabled: it resolves nothing. *)
#[export] Instance disabled_cache : OutputCache unit := {
  populate := fun _ _ _ => None;
  remove := fun c _ => c;
  remove_commute := fun _ _ _ => eq_refl;
  remove_idempotent := fun _ _ => eq_refl;
  remove_miss := fun _ _ _ _ H => H
}.

Section Database.
Context {C : Type} `{!OutputCache C}.

(** The members of [transaction_database]. [hash_table_file_] holds the
    bytes of each slab under its link (file offset); [hash_table_] is the
    index from key to link, the most recent entry first. *)
Record database := Database {
  hash_table_file_ : gmap Z (list Z);
  hash_table_ : list (hash_digest * Z);
  cache_ : C
}.

Definition with_file (db : database) (file : gmap Z (list Z)) : database :=
  Database file (hash_table_ db) (cache_ db).

Definition with_cache (db : database) (c : C) : database :=
  Database (hash_table_file_ db) (hash_table_ db) c.

(** Modelled from the spec: the slab hash table is not in the sources at
    hand. Section 4.4: [find(key)] walks the chain and returns the first
    match, [find(offset)] resolves directly by offset; an element is the
    link of a slab, and a missing record gives no element. *)
Fixpoint find_key (entries : list (hash_digest * Z)) (key : hash_digest)
  : option Z :=
  match entries with
  | [] => None
  | (k, link) :: rest =>
      if decide (k = key) then Some link else find_key rest key
  end.

Definition find_link (db : database) (link : Z) : option Z :=
  match hash_table_file_ db !! link with
  | Some _ => Some link
  | None => None
  end.

Definition find_hash (db : database) (key : hash_digest) : option Z :=
  match find_key (hash_table_ db) key with
  | Some link => find_link db link
  | None => None
  end.

(** Modelled from the spec: section 4.5, [read(fn)] and [write(fn)] invoke
    [fn] over the bytes of the record. *)
Definition element_read {A : Type} (db : database) (element : Z)
    (reader : serial A) : option A :=
  match hash_table_file_ db !! element with
  | Some slab => run_read reader slab
  | None => None
  end.

Definition element_write (db : database) (element : Z)
    (writer : serial unit) : option database :=
  match hash_table_file_ db !! element with
  | Some slab =>
      match run_write writer slab with
      | Some slab' => Some (with_file db (<[element := slab']> (hash_table_file_ db)))
      | None => None
      end
  | None => None
  end.

(** *** Queries *)

(** A [transaction_result] wraps the element found; its accessors read the
    record through it. *)
Definition get (db : database) (offset : Z) : option Z := find_link db offset.

Definition get_hash (db : database) (hash : hash_digest) : option Z :=
  find_hash db hash.

(** Skip [n] outputs: the loop of the writer of [spend]. *)
Fixpoint skip_outputs (n : nat) : serial unit :=
  match n with
  | O => ret tt
  | S n' =>
      skip spend_size ;;;
      size <- read_size_little_endian ;;
      skip (Z.to_nat size) ;;;
      skip_outputs n'
  end.

(** Modelled from the spec: the accessors of [transaction_result] are not
    in the sources at hand; they read the fields of the record format. *)
Definition result_height (db : database) (result : Z) : option Z :=
  element_read db result read_4_bytes_little_endian.

Definition result_position (db : database) (result : Z) : option Z :=
  element_read db result
    (skip height_size ;;; read_2_bytes_little_endian).

Definition result_state (db : database) (result : Z) : option Z :=
  element_read db result
    (skip (height_size + position_size) ;;; read_byte).

Definition result_median_time_past (db : database) (result : Z) : option Z :=
  element_read db result
    (skip (height_size + position_size + state_size) ;;;
     read_4_bytes_little_endian).

Definition read_output : serial output :=
  flag <- read_byte ;;
  spender <- read_4_bytes_little_endian ;;
  amount <- read_8_bytes_little_endian ;;
  size <- read_size_little_endian ;;
  code <- read_bytes (Z.to_nat size) ;;
  ret (Output flag spender amount code).

(** The output at [index], or [None] (not valid) when the record has no
    such output. *)
Definition result_output (db : database) (result : Z) (index : Z)
  : option (option output) :=
  element_read db result
    (skip metadata_size ;;;
     outputs <- read_size_little_endian ;;
     if outputs <=? index then ret None
     else skip_outputs (Z.to_nat index) ;;;
          o <- read_output ;;
          ret (Some o)).

(** Modelled from the spec: a point is stored as its 32 byte hash and a 2
    byte index; the 16 bit sentinel reads back as the null index. *)
Definition read_point : serial output_point :=
  hash <- read_bytes hash_size ;;
  index <- read_2_bytes_little_endian ;;
  ret (OutputPoint hash (if index =? max_uint16 then null_index else index)
         default_validation).

Fixpoint read_inpoints (n : nat) : serial (list output_point) :=
  match n with
  | O => ret []
  | S n' =>
      point <- read_point ;;
      size <- read_size_little_endian ;;
      skip (Z.to_nat size) ;;;
      skip 4 ;;;
      rest <- read_inpoints n' ;;
      ret (point :: rest)
  end.

(** Modelled from the spec: iterating over a [transaction_result] yields
    the previous output of each input of the record, in order. *)
Definition result_inpoints (db : database) (result : Z)
  : option (list output_point) :=
  element_read db result
    (skip metadata_size ;;;
     outputs <- read_size_little_endian ;;
     skip_outputs (Z.to_nat outputs) ;;;
     inputs <- read_size_little_endian ;;
     read_inpoints (Z.to_nat inputs)).

(** [get_output] resets three fields of the metadata before anything
    else. *)
Definition reset_prevout (v : validation) : validation :=
  Validation (prevout_cache v) (prevout_coinbase v) (prevout_confirmed v)
    0 0 false.

Definition set_prevout_cache (v : validation) (o : option output)
  : validation :=
  Validation o (prevout_coinbase v) (prevout_confirmed v) (prevout_height v)
    (prevout_median_time_past v) (prevout_spent v).

(** The point with its metadata as [get_output] has reset it: what the
    cache is asked to populate. *)
Definition reset_point (point : output_point) : output_point :=
  OutputPoint (point_hash point) (point_index point)
    (reset_prevout (point_metadata point)).

(** The confirmation state [get_output] guarantees. *)
Definition output_confirmed (state height fork_height : Z) : bool :=
  let relevant := height <=? fork_height in
  let for_pool := fork_height =? max_size_t in
  ((state =? state_byte indexed) && negb for_pool) ||
  ((state =? state_byte confirmed) && relevant).

(** [transaction_database::get_output]: the answer and the metadata of the
    point as the call leaves it. *)
Definition get_output (db : database) (point : output_point)
    (fork_height : Z) : option (bool * validation) :=
  let prevout := reset_prevout (point_metadata point) in
  if is_null point then Some (false, prevout)
  else
    match populate (cache_ db) (reset_point point) fork_height with
    | Some cached => Some (true, cached)
    | None =>
        match get_hash db (point_hash point) with
        | None => Some (false, prevout)
        | Some result =>
            height ← result_height db result;
            if height =? 0 then Some (false, prevout)
            else
              state ← result_state db result;
              let for_pool := fork_height =? max_size_t in
              let confirmed := output_confirmed state height fork_height in
              if negb for_pool && negb confirmed then Some (false, prevout)
              else
                found ← result_output db result (point_index point);
                match found with
                | None => Some (false, set_prevout_cache prevout None)
                | Some o =>
                    position ← result_position db result;
                    median_time_past ← result_median_time_past db result;
                    Some (true,
                          Validation (Some o) (position =? 0) confirmed
                            height median_time_past
                            (confirmed && spent o fork_height))
                end
        end
    end.

(** *** Store *)

(** The writer of [store]: the metadata, then the transaction. The bytes
    of the transaction ([tx.to_data], chain library) are taken as given. *)
Definition store_writer (body : list Z)
    (height median_time_past position : Z) (state : transaction_state)
  : serial unit :=
  write_4_bytes_little_endian height ;;;
  write_2_bytes_little_endian position ;;;
  write_byte (state_byte state) ;;;
  write_4_bytes_little_endian median_time_past ;;;
  write_bytes body.

(** [transaction_database::store].
    Modelled from the spec: the allocator of the hash table is not in the
    sources at hand. Section 4.4: [create(key, writer, size)] allocates
    [size] bytes and invokes the writer over them, and [link] publishes the
    entry at the head of its bucket. The link the allocator gives and the
    hash of the transaction are taken as given. An allocation that cannot
    grow the file throws out of [store] ([memory_map::reserve]); that path
    is not part of this function, which describes the calls that return. *)
Definition store (db : database) (link : Z) (hash : hash_digest)
    (body : list Z) (height median_time_past position : Z)
    (state : transaction_state) : option (bool * database) :=
  let size := (metadata_size + length body)%nat in
  slab ← run_write (store_writer body height median_time_past position state)
           (repeat 0 size);
  Some (true,
        Database (<[link := slab]> (hash_table_file_ db))
          ((hash, link) :: hash_table_ db) (cache_ db)).

(** [transaction_database::pool]. *)
Definition pool (db : database) (link : Z) (hash : hash_digest)
    (body : list Z) (forks : Z) : option (bool * database) :=
  store db link hash body forks no_time unconfirmed pooled.

(** *** Update *)

Definition spend_reader : serial (Z * Z * Z) :=
  height <- read_4_bytes_little_endian ;;
  skip position_size ;;;
  state <- read_byte ;;
  skip median_time_past_size ;;;
  outputs <- read_size_little_endian ;;
  ret (height, state, outputs).

Definition spend_writer (index spender_height : Z) : serial unit :=
  skip metadata_size ;;;
  _ <- read_size_little_endian ;;
  skip_outputs (Z.to_nat index) ;;;
  skip index_spend_size ;;;
  write_4_bytes_little_endian spender_height.

(** [transaction_database::spend]. *)
Definition spend (db : database) (point : output_point) (spender_height : Z)
  : option (bool * database) :=
  if is_null point then Some (true, db)
  else
    let db1 :=
      if negb (spender_height =? not_spent)
      then with_cache db (remove (cache_ db) point)
      else db in
    match find_hash db1 (point_hash point) with
    | None => Some (false, db1)
    | Some element =>
        '(height, state, outputs) ← element_read db1 element spend_reader;
        if negb (state =? state_byte confirmed) || (spender_height <? height)
        then Some (false, db1)
        else if outputs <=? point_index point then Some (false, db1)
        else
          db2 ← element_write db1 element
                  (spend_writer (point_index point) spender_height);
          Some (true, db2)
    end.

(** [transaction_database::unspend]. *)
Definition unspend (db : database) (point : output_point)
  : option (bool * database) :=
  spend db point not_spent.

Definition update_writer (height median_time_past position : Z)
    (state : transaction_state) : serial unit :=
  write_4_bytes_little_endian height ;;;
  write_2_bytes_little_endian position ;;;
  write_byte (state_byte state) ;;;
  write_4_bytes_little_endian median_time_past.

(** [transaction_database::update]. *)
Definition update (db : database) (link height median_time_past position : Z)
    (state : transaction_state) : option (bool * database) :=
  match find_link db link with
  | None => Some (false, db)
  | Some element =>
      db1 ← element_write db element
              (update_writer height median_time_past position state);
      Some (true, db1)
  end.

(** The loop over the inpoints of a result: it stops at the first point
    for which [step] answers false. *)
Fixpoint for_each_inpoint
    (step : database -> output_point -> option (bool * database))
    (points : list output_point) (db : database) : option (bool * database) :=
  match points with
  | [] => Some (true, db)
  | point :: rest =>
      match step db point with
      | Some (true, db1) => for_each_inpoint step rest db1
      | Some (false, db1) => Some (false, db1)
      | None => None
      end
  end.

(** [transaction_database::unconfirm]. *)
Definition unconfirm (db : database) (link : Z) : option (bool * database) :=
  match get db link with
  | None => Some (false, db)
  | Some result =>
      points ← result_inpoints db result;
      '(unspent, db1) ← for_each_inpoint unspend points db;
      if negb unspent then Some (false, db1)
      else update db1 link unverified no_time unconfirmed pooled
  end.

(** [transaction_database::confirm]. *)
Definition confirm (db : database) (link height median_time_past position : Z)
  : option (bool * database) :=
  match get db link with
  | None => Some (false, db)
  | Some result =>
      points ← result_inpoints db result;
      '(spent_all, db1) ←
        for_each_inpoint (fun d p => spend d p height) points db;
      if negb spent_all then Some (false, db1)
      else update db1 link height median_time_past position confirmed
  end.

(** The cache resolves no point: the state of a cache to which nothing
    was added. *)
Definition cache_misses (db : database) : Prop :=
  forall point fork_height, populate (cache_ db) point fork_height = None.

(** Two databases answer every query alike: [get] and the accessors of its
    result, and [get_output]. *)
Definition observationally_equal (db db' : database) : Prop :=
  (forall offset, get db offset = get db' offset) /\
  (forall result,
     result_height db result = result_height db' result /\
     result_position db result = result_position db' result /\
     result_state db result = result_state db' result /\
     result_median_time_past db result = result_median_time_past db' result /\
     result_inpoints db result = result_inpoints db' result /\
     forall index, result_output db result index
                   = result_output db' result index) /\
  (forall point fork_height,
     get_output db point fork_height = get_output db' point fork_height).

End Database.

Arguments database C : clear implicits.

End TransactionDatabase.

(** ** The record format

    The layout of a record as the head of [transaction_database.cpp] gives
    it (format v4), as a structured value with its encoding, and the
    operations of the database stated on the structured value. *)

Module RecordFormat.
Import Serial TransactionDatabase.

Record input := Input {
  previous_hash : hash_digest;
  previous_index : Z;
  input_script : list Z;
  sequence : Z
}.

Record tx_record := TxRecord {
  tx_height : Z;
  tx_position : Z;
  tx_state : Z;
  tx_median_time_past : Z;
  tx_outputs : list output;
  tx_inputs : list input;
  tx_locktime : Z;
  tx_version : Z
}.

Definition output_bytes (o : output) : list Z :=
  le_bytes 1 (index_spend o) ++ le_bytes 4 (spender_height o) ++
  le_bytes 8 (value o) ++
  size_bytes (Z.of_nat (length (script o))) ++ script o.

Definition input_bytes (i : input) : list Z :=
  previous_hash i ++ le_bytes 2 (previous_index i) ++
  size_bytes (Z.of_nat (length (input_script i))) ++ input_script i ++
  le_bytes 4 (sequence i).

Definition outputs_bytes (outs : list output) : list Z :=
  concat (List.map output_bytes outs).

Definition inputs_bytes (ins : list input) : list Z :=
  concat (List.map input_bytes ins).

Definition metadata_bytes (height position state median_time_past : Z)
  : list Z :=
  le_bytes 4 height ++ le_bytes 2 position ++ le_bytes 1 state ++
  le_bytes 4 median_time_past.

(** What follows the outputs in a record. *)
Definition tail_bytes (r : tx_record) : list Z :=
  size_bytes (Z.of_nat (length (tx_inputs r))) ++ inputs_bytes (tx_inputs r) ++
  size_bytes (tx_locktime r) ++ size_bytes (tx_version r).

(** The transaction as [store] receives it: the record without its
    metadata. *)
Definition body_bytes (r : tx_record) : list Z :=
  size_bytes (Z.of_nat (length (tx_outputs r))) ++
  outputs_bytes (tx_outputs r) ++
  tail_bytes r.

Definition record_bytes (r : tx_record) : list Z :=
  metadata_bytes (tx_height r) (tx_position r) (tx_state r)
    (tx_median_time_past r) ++
  body_bytes r.

(** The fields fit their widths. *)
Definition output_valid (o : output) : Prop :=
  0 <= index_spend o < 256 /\
  0 <= spender_height o <= max_uint32 /\
  0 <= value o <= max_size_t /\
  Z.of_nat (length (script o)) <= max_size_t.

Definition input_valid (i : input) : Prop :=
  length (previous_hash i) = hash_size /\
  0 <= previous_index i <= max_uint16 /\
  Z.of_nat (length (input_script i)) <= max_size_t /\
  0 <= sequence i <= max_uint32.

Definition record_valid (r : tx_record) : Prop :=
  0 <= tx_height r <= max_uint32 /\
  0 <= tx_position r <= max_uint16 /\
  0 <= tx_state r < 256 /\
  0 <= tx_median_time_past r <= max_uint32 /\
  Z.of_nat (length (tx_outputs r)) <= max_size_t /\
  Z.of_nat (length (tx_inputs r)) <= max_size_t /\
  Forall output_valid (tx_outputs r) /\
  Forall input_valid (tx_inputs r).

(** The byte offset of the spender height of output [index]: the metadata,
    the output count, the outputs before it and its index-spend flag. *)
Definition spender_height_offset (r : tx_record) (index : nat) : nat :=
  (metadata_size +
   length (size_bytes (Z.of_nat (length (tx_outputs r)))) +
   length (outputs_bytes (take index (tx_outputs r))) +
   index_spend_size)%nat.

(** *** The operations on structured records *)

Definition mark_output (h : Z) (o : output) : output :=
  Output (index_spend o) h (value o) (script o).

Definition with_outputs (r : tx_record) (outs : list output) : tx_record :=
  TxRecord (tx_height r) (tx_position r) (tx_state r) (tx_median_time_past r)
    outs (tx_inputs r) (tx_locktime r) (tx_version r).

Definition set_spender_height (index : nat) (h : Z) (r : tx_record)
  : tx_record :=
  with_outputs r (alter (mark_output h) index (tx_outputs r)).

Definition set_metadata (height position state median_time_past : Z)
    (r : tx_record) : tx_record :=
  TxRecord height position state median_time_past
    (tx_outputs r) (tx_inputs r) (tx_locktime r) (tx_version r).

Definition inpoint (i : input) : output_point :=
  OutputPoint (previous_hash i)
    (if previous_index i =? max_uint16 then null_index else previous_index i)
    default_validation.

(** Setting the spender height of every output among [targets], each a
    link and an output index, in all records at once. *)
Definition mark_record (targets : list (Z * nat)) (h : Z) (link : Z)
    (r : tx_record) : tx_record :=
  with_outputs r
    (imap (fun j o => if bool_decide ((link, j) ∈ targets)
                      then mark_output h o else o)
          (tx_outputs r)).

Section Model.
Context {C : Type} `{!OutputCache C}.

(** A database whose slabs are well-formed records. *)
Record model := Model {
  records : gmap Z tx_record;
  entries : list (hash_digest * Z);
  cached : C
}.

Definition concretize (m : model) : database C :=
  Database (record_bytes <$> records m) (entries m) (cached m).

Definition model_valid (m : model) : Prop :=
  map_Forall (fun _ r => record_valid r) (records m).

(** The databases that hold well-formed records only. *)
Definition database_wf (db : database C) : Prop :=
  exists m, model_valid m /\ db = concretize m.

Definition spend_model (m : model) (point : output_point) (spender_height : Z)
  : bool * model :=
  if is_null point then (true, m)
  else
    let c1 := if negb (spender_height =? not_spent)
              then remove (cached m) point else cached m in
    match find_key (entries m) (point_hash point) with
    | None => (false, Model (records m) (entries m) c1)
    | Some link =>
        match records m !! link with
        | None => (false, Model (records m) (entries m) c1)
        | Some r =>
            if negb (tx_state r =? state_byte confirmed) ||
               (spender_height <? tx_height r)
            then (false, Model (records m) (entries m) c1)
            else if Z.of_nat (length (tx_outputs r)) <=? point_index point
            then (false, Model (records m) (entries m) c1)
            else (true,
                  Model (<[link := set_spender_height
                                     (Z.to_nat (point_index point))
                                     (to_uint32 spender_height) r]>
                           (records m))
                        (entries m) c1)
        end
    end.

Fixpoint for_each_model (step : model -> output_point -> bool * model)
    (points : list output_point) (m : model) : bool * model :=
  match points with
  | [] => (true, m)
  | point :: rest =>
      let (ok, m1) := step m point in
      if ok then for_each_model step rest m1 else (false, m1)
  end.

Definition update_model (m : model)
    (link height median_time_past position : Z) (state : transaction_state)
  : bool * model :=
  match records m !! link with
  | None => (false, m)
  | Some r =>
      (true,
       Model (<[link := set_metadata (to_uint32 height) (to_uint16 position)
                          (state_byte state) (to_uint32 median_time_past) r]>
                (records m))
             (entries m) (cached m))
  end.

Definition confirm_model (m : model)
    (link height median_time_past position : Z) : bool * model :=
  match records m !! link with
  | None => (false, m)
  | Some r =>
      let (ok, m1) :=
        for_each_model (fun d p => spend_model d p height)
          (List.map inpoint (tx_inputs r)) m in
      if ok then update_model m1 link height median_time_past position confirmed
      else (false, m1)
  end.

Definition unconfirm_model (m : model) (link : Z) : bool * model :=
  match records m !! link with
  | None => (false, m)
  | Some r =>
      let (ok, m1) :=
        for_each_model (fun d p => spend_model d p not_spent)
          (List.map inpoint (tx_inputs r)) m in
      if ok then update_model m1 link unverified no_time unconfirmed pooled
      else (false, m1)
  end.

(** The slot a point designates: the link of the record its hash resolves
    to and the index of the output, when the record has that output. *)
Definition target (m : model) (point : output_point) : option (Z * nat) :=
  if is_null point then None
  else
    match find_key (entries m) (point_hash point) with
    | None => None
    | Some link =>
        match records m !! link with
        | None => None
        | Some r =>
            if Z.of_nat (length (tx_outputs r)) <=? point_index point
            then None
            else Some (link, Z.to_nat (point_index point))
        end
    end.

Definition targets (m : model) (points : list output_point)
  : list (Z * nat) :=
  omap (target m) points.

(** What the spends of [points] at [spender_height] leave of a cache. *)
Definition remove_points (points : list output_point) (c : C) : C :=
  foldl (fun c p => if is_null p then c else remove c p) c points.

Definition spend_cache (spender_height : Z) (points : list output_point)
    (c : C) : C :=
  if negb (spender_height =? not_spent) then remove_points points c else c.

(** [m'] holds the records of [m], each changed by [change] at its link,
    under the same index. *)
Definition pointwise (change : Z -> tx_record -> tx_record) (m m' : model)
  : Prop :=
  entries m' = entries m /\
  forall link, records m' !! link = change link <$> records m !! link.

(** The change a successful [confirm] or [unconfirm] of the record at
    [link] makes to the record at [k]: the spender heights among [marked]
    set to [h], and the metadata of the record at [link] set. *)
Definition confirm_change (marked : list (Z * nat)) (h : Z) (link : Z)
    (height position state median_time_past : Z) (k : Z) (r : tx_record)
  : tx_record :=
  if decide (k = link)
  then set_metadata height position state median_time_past
         (mark_record marked h k r)
  else mark_record marked h k r.

End Model.

Arguments model C : clear implicits.

End RecordFormat.

(** ** A small database

    Two transactions: [tx_a], confirmed at height 5 with two outputs, and
    [tx_b], pooled with forks 7, whose first input spends the second output
    of [tx_a] and whose second input is null. *)

Module Examples.
Import Serial TransactionDatabase RecordFormat.

Definition hash_a : hash_digest := repeat 1 32%nat.
Definition hash_b : hash_digest := repeat 2 32%nat.

Definition tx_a : tx_record :=
  TxRecord 5 1 (state_byte confirmed) 1000
    [Output 0 not_spent 50 [1; 2; 3]; Output 0 not_spent 25 []]
    [Input null_hash 65535 [9] 7] 0 1.

Definition tx_b : tx_record :=
  TxRecord 7 unconfirmed (state_byte pooled) 0
    [Output 0 not_spent 70 [4]]
    [Input hash_a 1 [] 0; Input null_hash 65535 [] 0] 0 1.

Definition link_a : Z := 100.
Definition link_b : Z := 200.

Definition model0 : model unit :=
  Model (<[link_a := tx_a]> (<[link_b := tx_b]> ∅))
        [(hash_b, link_b); (hash_a, link_a)] tt.

Definition db0 : database unit := concretize model0.

Definition point_a1 : output_point := OutputPoint hash_a 1 default_validation.
Definition point_b0 : output_point := OutputPoint hash_b 0 default_validation.

(** A null point whose metadata the caller did not default. *)
Definition used_validation : validation :=
  Validation (Some (Output 0 not_spent 50 [1; 2; 3])) true true 5 1000 true.
Definition null_point : output_point :=
  OutputPoint null_hash null_index used_validation.

(** The state after a call, or the state before it if the call faults. *)
Definition after (call : option (bool * database unit)) (db : database unit)
  : database unit :=
  match call with
  | Some (_, db') => db'
  | None => db
  end.

(** [tx_b] confirmed at height 100, median time past 1600000000,
    position 3; then unconfirmed. *)
Definition db1 : database unit :=
  after (confirm db0 link_b 100 1600000000 3) db0.
Definition db2 : database unit := after (unconfirm db1 link_b) db1.

(** The same states as models. *)
Definition model1 : model unit :=
  Model (<[link_a := set_spender_height 1 100 tx_a]>
           (<[link_b := set_metadata 100 3 (state_byte confirmed) 1600000000
                          tx_b]> ∅))
        [(hash_b, link_b); (hash_a, link_a)] tt.

(** The inpoints of [tx_b]. *)
Definition points_b : list output_point :=
  [point_a1; OutputPoint null_hash null_index default_validation].

(** [tx_a] stored confirmed and [tx_b] pooled with forks 7, from an empty
    database. *)
Definition db_empty : database unit := Database ∅ [] tt.
Definition db_stored : database unit :=
  after (store db_empty link_a hash_a (body_bytes tx_a) 5 1000 1 confirmed)
    db_empty.
Definition db_pooled : database unit :=
  after (pool db_stored link_b hash_b (body_bytes tx_b) 7) db_stored.

(** The genesis transaction: height 0, position 0, confirmed. *)
Definition tx_genesis : tx_record :=
  TxRecord 0 0 (state_byte confirmed) 1231006505
    [Output 0 not_spent 5000000000 [65]]
    [Input null_hash 65535 [4] 4294967295] 0 1.
Definition hash_genesis : hash_digest := repeat 3 32%nat.
Definition db_genesis : database unit :=
  concretize (Model (<[0 := tx_genesis]> ∅) [(hash_genesis, 0)] tt).
Definition point_genesis : output_point :=
  OutputPoint hash_genesis 0 default_validation.

End Examples.

(** ** memory_map.cpp: construction and shutdown *)

Module MemoryMapLifecycle.
Import MemoryMap.

(** The contexts [handle_error] is called with. *)
Inductive failure :=
| failed_map
| failed_advise
| failed_msync
| failed_munmap
| failed_ftruncate
| failed_fsync
| failed_close.

(** The system calls of [stop], with the length each is given. *)
Inductive syscall :=
| Msync (length : Z)
| Munmap (length : Z)
| Ftruncate (length : Z)
| Fsync
| Close.

(** What the operating system answers to the constructor: the handle
    [open] returns ([-1] on failure), the size [fstat] reports ([None] when
    it returns [-1]), and whether [mmap] and [madvise] succeed. *)
Record open_answers := OpenAnswers {
  open_handle : Z;
  fstat_size : option Z;
  open_mmap_ok : bool;
  madvise_ok : bool
}.

(** [memory_map::file_size(int file_handle)].
    Modelled from the spec: [BITCOIN_ASSERT_MSG] is declared in a header
    that is not in the sources at hand; section 7 has assertions abort.
    [assertions] says whether the build keeps them: with assertions a size
    that is not above zero aborts ([None]); without them the check is gone
    and the cast of the signed size to [size_t] wraps. *)
Definition file_size (assertions : bool) (file_handle : Z) (fstat : option Z)
  : option Z :=
  if file_handle =? -1 then Some 0
  else match fstat with
       | None => Some 0
       | Some st_size =>
           if assertions && negb (0 <? st_size) then None
           else Some (wrap_size_t st_size)
       end.

(** [memory_map::memory_map(const path& filename)]: the members after
    construction and the error logged, if any; [None] when an assertion
    aborts the construction. *)
Definition construct (assertions : bool) (os : open_answers)
  : option (memory_map * option failure) :=
  let file_handle := open_handle os in
  size ← file_size assertions file_handle (fstat_size os);
  let m0 := MemoryMapState false false size size in
  let (mapped, m1) := map (OsAnswers true true (open_mmap_ok os)) size m0 in
  let m2 := MemoryMapState (negb mapped) (data_ m1) (file_size_ m1)
              (logical_size_ m1) in
  Some (m2,
        if negb mapped then Some failed_map
        else if negb (madvise_ok os) then Some failed_advise
        else None).

(** What the operating system answers to the calls of [stop]. *)
Record stop_answers := StopAnswers {
  msync_ok : bool;
  stop_munmap_ok : bool;
  stop_ftruncate_ok : bool;
  fsync_ok : bool;
  close_ok : bool
}.

Definition stop_all_ok : stop_answers := StopAnswers true true true true true.

(** [memory_map::stop]: the answer, the members, the system calls made in
    order and the error logged, if any. *)
Definition stop (os : stop_answers) (m : memory_map)
  : bool * memory_map * list syscall * option failure :=
  if stopped_ m then (true, m, [], None)
  else
    let m1 := MemoryMapState true (data_ m) (file_size_ m) (logical_size_ m) in
    let c1 := [Msync (logical_size_ m)] in
    if negb (msync_ok os) then (false, m1, c1, Some failed_msync)
    else
      let c2 := c1 ++ [Munmap (file_size_ m)] in
      if negb (stop_munmap_ok os) then (false, m1, c2, Some failed_munmap)
      else
        let c3 := c2 ++ [Ftruncate (logical_size_ m)] in
        if negb (stop_ftruncate_ok os)
        then (false, m1, c3, Some failed_ftruncate)
        else
          let c4 := c3 ++ [Fsync] in
          if negb (fsync_ok os) then (false, m1, c4, Some failed_fsync)
          else
            let c5 := c4 ++ [Close] in
            if negb (close_ok os) then (false, m1, c5, Some failed_close)
            else (true, m1, c5, None).

End MemoryMapLifecycle.

(** ** What the updates of the transaction database leave alone *)

Module Frame.
Import Serial TransactionDatabase.

Section Frame.
Context {C : Type} `{!OutputCache C}.

(** The four fields of the metadata as [get] reports them. *)
Definition result_metadata (db : database C) (result : Z)
  : option Z * option Z * option Z * option Z :=
  (result_height db result, result_position db result,
   result_state db result, result_median_time_past db result).

(** The same index, the same links, and each record as long as it was. *)
Definition same_shape (db db' : database C) : Prop :=
  hash_table_ db' = hash_table_ db /\
  forall link,
    length <$> hash_table_file_ db' !! link
    = length <$> hash_table_file_ db !! link.

(** The same metadata bytes in the record at [link]. *)
Definition same_metadata_at (db db' : database C) (link : Z) : Prop :=
  take metadata_size <$> hash_table_file_ db' !! link
  = take metadata_size <$> hash_table_file_ db !! link.

(** What a change below the metadata of the records leaves in place. *)
Definition metadata_frame (db db' : database C) : Prop :=
  same_shape db db' /\ forall link, same_metadata_at db db' link.

(** What the queries by offset report of the record at [offset]: whether it
    is found, its metadata, and its length. *)
Definition record_view (db : database C) (offset : Z)
  : option Z * (option Z * option Z * option Z * option Z) * option nat :=
  (get db offset, result_metadata db offset,
   length <$> hash_table_file_ db !! offset).

End Frame.

End Frame.

(** ** More of the small database *)

Module MoreExamples.
Import MemoryMap MemoryMapLifecycle Serial TransactionDatabase RecordFormat
  Examples.

(** A file of 100 bytes opened and mapped. *)
Definition opened : memory_map := MemoryMapState false true 100 100.

(** A transaction spending the first output of [tx_a] and then an output
    of a transaction that is not stored. *)
Definition hash_c : hash_digest := repeat 4 32%nat.
Definition hash_missing : hash_digest := repeat 9 32%nat.
Definition link_c : Z := 300.
Definition tx_c : tx_record :=
  TxRecord 7 unconfirmed (state_byte pooled) 0
    [Output 0 not_spent 10 []]
    [Input hash_a 0 [] 0; Input hash_missing 0 [] 0] 0 1.
Definition db_c : database unit :=
  after (pool db0 link_c hash_c (body_bytes tx_c) 7) db0.

(** [db0] after the second output of [tx_a] was spent at height 100, and
    [db_c] after the attempt to confirm [tx_c], which stops at its second
    input. *)
Definition db_spent : database unit := after (spend db0 point_a1 100) db0.

(** [tx_c] pooled once more, under the hash [tx_a] is stored with. *)
Definition db_shadow : database unit :=
  after (pool db0 link_c hash_a (body_bytes tx_c) 7) db0.

(** The second output of [tx_a] as [db0] holds it, and a point past the
    outputs of [tx_a]. *)
Definition output_a1 : output := Output 0 not_spent 25 [].
Definition point_a7 : output_point := OutputPoint hash_a 7 used_validation.

End MoreExamples.

(** * Properties *)

(** ** The growth of the mapped file *)

Section MemoryMapFacts.
Import MemoryMap.

Lemma wrap_size_t_small z : 0 <= z <= max_size_t -> wrap_size_t z = z.
Proof. intros Hz. unfold wrap_size_t, max_size_t in *. apply Z.mod_small. lia. Qed.

(** A [truncate] that succeeds leaves the requested size as the file
    size. *)
Lemma truncate_file_size mm os size m m1 :
  truncate mm os size m = (true, m1) -> file_size_ m1 = size.
Proof.
  unfold truncate, remap, map, unmap, validate.
  destruct mm, (munmap_ok os), (ftruncate_ok os), (mmap_ok os),
    (size =? 0); simpl; intros [= <-]; reflexivity.
Qed.

Lemma truncate_logical_size mm os size m b m1 :
  truncate mm os size m = (b, m1) -> logical_size_ m1 = logical_size_ m.
Proof.
  unfold truncate, remap, map, unmap, validate.
  destruct mm, (munmap_ok os), (ftruncate_ok os), (mmap_ok os),
    (size =? 0); simpl; intros [= <- <-]; reflexivity.
Qed.

(** With every system call succeeding, a [truncate] to a size other than
    zero succeeds. *)
Lemma truncate_succeeds mm size m :
  size <> 0 -> exists m1, truncate mm os_all_ok size m = (true, m1).
Proof.
  intros Hsize. unfold truncate, remap, map, unmap, validate.
  destruct mm; simpl; [eauto|].
  destruct (Z.eqb_spec size 0); [contradiction | eauto].
Qed.

Lemma reserve_expansion_file_size mm os size expansion m m' :
  0 <= size * expansion <= max_size_t ->
  reserve_expansion mm os size expansion m = Returned m' ->
  file_size_ m' =
    if file_size_ m <? size
    then size * expansion / EXPANSION_DENOMINATOR
    else file_size_ m.
Proof.
  intros Hfit. unfold reserve_expansion.
  destruct (file_size_ m <? size); [|intros [= <-]; reflexivity].
  rewrite (wrap_size_t_small _ Hfit).
  destruct (truncate _ _ _ _) as [[] m1] eqn:Htr; simpl; [|discriminate].
  intros [= <-]. simpl. eapply truncate_file_size, Htr.
Qed.

(** The call returns when the system calls succeed. *)
Lemma reserve_returns mm size m :
  0 <= file_size_ m -> size * EXPANSION_NUMERATOR <= max_size_t ->
  exists m', reserve mm os_all_ok size m = Returned m'.
Proof.
  intros Hfile Hfit. unfold reserve, reserve_expansion.
  destruct (Z.ltb_spec (file_size_ m) size) as [Hlt|]; [|eauto].
  rewrite wrap_size_t_small by (unfold EXPANSION_NUMERATOR in *; lia).
  assert (Hnz : size * EXPANSION_NUMERATOR / EXPANSION_DENOMINATOR <> 0).
  { unfold EXPANSION_NUMERATOR, EXPANSION_DENOMINATOR.
    assert (1 <= size * 150 / 100) by (apply Z.div_le_lower_bound; lia).
    lia. }
  destruct (truncate_succeeds mm _ m Hnz) as [m1 ->]. simpl. eauto.
Qed.

(** C8 (as amended). When [reserve] or [resize] returns and the product of
    the size and the expansion fits [size_t]: a size above the file size
    makes the file size [size * 150 / 100] for [reserve] and
    [size * 100 / 100] for [resize] (integer division); a size at or below
    the file size leaves it unchanged. *)
Theorem reserve_resize_capacity mm os size m :
  0 <= size ->
  (forall m', size * 150 <= max_size_t ->
     reserve mm os size m = Returned m' ->
     file_size_ m' =
       if file_size_ m <? size then size * 150 / 100 else file_size_ m) /\
  (forall m', size * 100 <= max_size_t ->
     resize mm os size m = Returned m' ->
     file_size_ m' =
       if file_size_ m <? size then size * 100 / 100 else file_size_ m).
Proof.
  intros Hsize. split; intros m' Hfit Hr.
  - apply reserve_expansion_file_size in Hr; [exact Hr|].
    unfold EXPANSION_NUMERATOR. lia.
  - apply reserve_expansion_file_size in Hr; [exact Hr|].
    unfold EXPANSION_DENOMINATOR. lia.
Qed.

Lemma reserve_resize_capacity_witness :
  file_size_ (MemoryMapState false true 180 120) = 120 * 150 / 100 /\
  file_size_ (MemoryMapState false true 120 120) = 120 * 100 / 100.
Proof.
  destruct (reserve_resize_capacity true os_all_ok 120
              (MemoryMapState false true 100 100)) as [Hreserve Hresize].
  - lia.
  - split.
    + apply (Hreserve (MemoryMapState false true 180 120));
        [unfold max_size_t; lia | reflexivity].
    + apply (Hresize (MemoryMapState false true 120 120));
        [unfold max_size_t; lia | reflexivity].
Defined.

(** C8, as stated, fails in two ways. The product wraps modulo [2^64]: a
    size of 122978293824730345 gives a file size of 1, not of
    184467440737095517. And a failed system call leaves a file size of zero
    and throws. *)
Lemma reserve_capacity_counterexample :
  (reserve true os_all_ok 122978293824730345
     (MemoryMapState false true 100 100)
   = Returned (MemoryMapState false true 1 122978293824730345) /\
   122978293824730345 * 150 / 100 <> 1) /\
  (reserve true (OsAnswers true true false) 120
     (MemoryMapState false true 100 100)
   = Thrown (MemoryMapState false false 0 100) /\
   120 * 150 / 100 <> 0).
Proof. repeat split; try reflexivity; vm_compute; discriminate. Qed.

Lemma reserve_expansion_logical_size mm os size expansion m m' :
  reserve_expansion mm os size expansion m = Returned m' ->
  logical_size_ m' = size.
Proof.
  unfold reserve_expansion.
  destruct (file_size_ m <? size); [|intros [= <-]; reflexivity].
  destruct (truncate _ _ _ _) as [[] m1]; simpl; [|discriminate].
  intros [= <-]. reflexivity.
Qed.

(** C5 (as amended). [reserve] itself sets the logical size to the size it
    is called with, whenever it returns: no later step is needed for the
    logical size to cover the reserved bytes. *)
Theorem reserve_sets_logical_size mm os size m m' :
  reserve mm os size m = Returned m' -> logical_size_ m' = size.
Proof.
  unfold reserve, reserve_expansion. intros Hreserve.
  destruct (file_size_ m <? size).
  - destruct (truncate mm os _ m) as [truncated m1].
    destruct truncated; cbn [negb] in Hreserve; [|discriminate].
    injection Hreserve as <-. reflexivity.
  - injection Hreserve as <-. reflexivity.
Qed.

Lemma reserve_sets_logical_size_witness :
  logical_size_ (MemoryMapState false true 180 120) = 120.
Proof.
  apply (reserve_sets_logical_size true os_all_ok 120
           (MemoryMapState false true 100 100)).
  reflexivity.
Defined.

(** C5, as stated, fails: reserving 120 bytes in a file of logical size 100
    leaves a logical size of 120 before anything is linked. *)
Lemma reserve_logical_size_counterexample :
  reserve true os_all_ok 120 (MemoryMapState false true 100 100)
  = Returned (MemoryMapState false true 180 120) /\
  logical_size_ (MemoryMapState false true 180 120)
  <> logical_size_ (MemoryMapState false true 100 100).
Proof. split; [reflexivity | simpl; lia]. Qed.

(** A [reserve] that throws leaves the logical size as it was. *)
Lemma reserve_thrown_logical_size mm os size m m' :
  reserve mm os size m = Thrown m' -> logical_size_ m' = logical_size_ m.
Proof.
  unfold reserve, reserve_expansion.
  destruct (file_size_ m <? size); [|discriminate].
  destruct (truncate _ _ _ _) as [[] m1] eqn:Htr; simpl; [discriminate|].
  intros [= <-]. eapply truncate_logical_size, Htr.
Qed.

(** The allocation step of section 4.3 already moves the logical size past
    the new record. *)
Lemma allocate_advances_logical_size mm os size m offset m' :
  allocate mm os size m = Some (offset, m') ->
  offset = logical_size_ m /\
  logical_size_ m' = wrap_size_t (logical_size_ m + size).
Proof.
  unfold allocate.
  destruct (reserve _ _ _ _) as [m1|m1] eqn:Hr; [|discriminate].
  intros [= <- <-]. split; [reflexivity|].
  eapply reserve_expansion_logical_size, Hr.
Qed.

End MemoryMapFacts.


(** ** The serializer *)

Section SerialFacts.
Import Serial.
Local Open Scope serial_scope.

Lemma length_le_bytes n v : length (le_bytes n v) = n.
Proof. revert v. induction n as [|n IH]; intros v; simpl; [|rewrite IH]; reflexivity. Qed.

Lemma to_uint8_idempotent v : to_uint8 (to_uint8 v) = to_uint8 v.
Proof. unfold to_uint8. apply Z.mod_mod. lia. Qed.

Lemma le_value_le_bytes n v :
  le_value (le_bytes n v) = v mod 256 ^ Z.of_nat n.
Proof.
  revert v. induction n as [|n IH]; intros v.
  - simpl. symmetry. apply Z.mod_1_r.
  - cbn [le_bytes le_value]. rewrite to_uint8_idempotent, IH.
    replace (256 ^ Z.of_nat (S n)) with (256 * 256 ^ Z.of_nat n)
      by (rewrite Nat2Z.inj_succ, Z.pow_succ_r; lia).
    unfold to_uint8. symmetry. apply Z.rem_mul_r; lia.
Qed.

Lemma le_bytes_mod n v : le_bytes n (v mod 256 ^ Z.of_nat n) = le_bytes n v.
Proof.
  revert v. induction n as [|n IH]; intros v; [reflexivity|].
  cbn [le_bytes].
  replace (256 ^ Z.of_nat (S n)) with (256 * 256 ^ Z.of_nat n)
    by (rewrite Nat2Z.inj_succ, Z.pow_succ_r; lia).
  assert (Hpos : 0 < 256 ^ Z.of_nat n) by (apply Z.pow_pos_nonneg; lia).
  rewrite Z.rem_mul_r by lia.
  set (q := (v / 256) mod 256 ^ Z.of_nat n).
  f_equal.
  - unfold to_uint8.
    replace (v mod 256 + 256 * q) with (v mod 256 + q * 256) by lia.
    rewrite Z.mod_add by lia. apply Z.mod_mod. lia.
  - rewrite <- (IH (v / 256)). f_equal. fold q.
    replace (v mod 256 + 256 * q) with (q * 256 + v mod 256) by lia.
    rewrite Z.div_add_l by lia.
    rewrite Z.mod_div by lia. lia.
Qed.

Lemma le_bytes_4_uint32 v : le_bytes 4 (to_uint32 v) = le_bytes 4 v.
Proof. apply (le_bytes_mod 4 v). Qed.

Lemma le_bytes_2_uint16 v : le_bytes 2 (to_uint16 v) = le_bytes 2 v.
Proof. apply (le_bytes_mod 2 v). Qed.

(** *** Steps of a cursor over a buffer in three parts *)

Lemma skip_at n before x after :
  length x = n ->
  skip n (at_cursor before (x ++ after))
  = Some (tt, at_cursor (before ++ x) after).
Proof.
  intros <-. unfold skip, at_cursor. simpl.
  rewrite length_app, <- app_assoc. reflexivity.
Qed.

Lemma read_bytes_at n before x after :
  length x = n ->
  read_bytes n (at_cursor before (x ++ after))
  = Some (x, at_cursor (before ++ x) after).
Proof.
  intros <-. unfold read_bytes, at_cursor. simpl.
  rewrite drop_app_length, take_app_length.
  rewrite decide_True by reflexivity.
  rewrite length_app, <- app_assoc. reflexivity.
Qed.

Lemma write_bytes_at bs before x after :
  length x = length bs ->
  write_bytes bs (at_cursor before (x ++ after))
  = Some (tt, at_cursor (before ++ bs) after).
Proof.
  intros Hlen. unfold write_bytes, at_cursor. simpl.
  rewrite decide_True by (rewrite !length_app; lia).
  rewrite take_app_length, drop_app_add, <- Hlen, drop_app_length.
  rewrite length_app, <- app_assoc, Hlen. reflexivity.
Qed.

Lemma bind_some {A B : Type} (m : serial A) (k : A -> serial B) c a c' :
  m c = Some (a, c') -> bind m k c = k a c'.
Proof. intros H. unfold bind. rewrite H. reflexivity. Qed.

Lemma read_le_at n v before after (read : serial Z) :
  read = (bs <- read_bytes n ;; ret (le_value bs)) ->
  read (at_cursor before (le_bytes n v ++ after))
  = Some (v mod 256 ^ Z.of_nat n, at_cursor (before ++ le_bytes n v) after).
Proof.
  intros ->.
  erewrite bind_some by (apply read_bytes_at, length_le_bytes).
  unfold ret. rewrite le_value_le_bytes. reflexivity.
Qed.

Lemma read_byte_at v before after :
  0 <= v < 256 ->
  read_byte (at_cursor before (le_bytes 1 v ++ after))
  = Some (v, at_cursor (before ++ le_bytes 1 v) after).
Proof.
  intros H. rewrite (read_le_at 1 v) by reflexivity.
  rewrite Z.mod_small by (simpl; lia). reflexivity.
Qed.

Lemma read_2_at v before after :
  0 <= v <= max_uint16 ->
  read_2_bytes_little_endian (at_cursor before (le_bytes 2 v ++ after))
  = Some (v, at_cursor (before ++ le_bytes 2 v) after).
Proof.
  intros H. rewrite (read_le_at 2 v) by reflexivity.
  rewrite Z.mod_small by (unfold max_uint16 in H; simpl; lia). reflexivity.
Qed.

Lemma read_4_at v before after :
  0 <= v <= max_uint32 ->
  read_4_bytes_little_endian (at_cursor before (le_bytes 4 v ++ after))
  = Some (v, at_cursor (before ++ le_bytes 4 v) after).
Proof.
  intros H. rewrite (read_le_at 4 v) by reflexivity.
  rewrite Z.mod_small by (unfold max_uint32 in H; simpl; lia). reflexivity.
Qed.

Lemma read_8_at v before after :
  0 <= v <= max_size_t ->
  read_8_bytes_little_endian (at_cursor before (le_bytes 8 v ++ after))
  = Some (v, at_cursor (before ++ le_bytes 8 v) after).
Proof.
  intros H. rewrite (read_le_at 8 v) by reflexivity.
  rewrite Z.mod_small by (unfold max_size_t in H; simpl; lia). reflexivity.
Qed.

(** Reading a size gives back the size that was encoded. *)
Lemma read_size_at v before after :
  0 <= v <= max_size_t ->
  read_size_little_endian (at_cursor before (size_bytes v ++ after))
  = Some (v, at_cursor (before ++ size_bytes v) after).
Proof.
  intros Hv. unfold read_size_little_endian, size_bytes.
  unfold varint_two_bytes, varint_four_bytes, varint_eight_bytes.
  destruct (Z.ltb_spec v 253) as [H1|H1].
  - replace [v] with (le_bytes 1 v)
      by (simpl; unfold to_uint8; rewrite Z.mod_small by lia; reflexivity).
    erewrite bind_some by (apply read_byte_at; lia).
    destruct (Z.eqb_spec v 255); [lia|].
    destruct (Z.eqb_spec v 254); [lia|].
    destruct (Z.eqb_spec v 253); [lia|]. reflexivity.
  - destruct (Z.leb_spec v max_uint16) as [H2|H2];
      [|destruct (Z.leb_spec v max_uint32) as [H3|H3]].
    + change (253 :: le_bytes 2 v) with (le_bytes 1 253 ++ le_bytes 2 v).
      rewrite <- app_assoc.
      erewrite bind_some by (apply read_byte_at; lia). simpl Z.eqb.
      cbv iota. rewrite read_2_at by lia. rewrite <- app_assoc. reflexivity.
    + change (254 :: le_bytes 4 v) with (le_bytes 1 254 ++ le_bytes 4 v).
      rewrite <- app_assoc.
      erewrite bind_some by (apply read_byte_at; lia). simpl Z.eqb.
      cbv iota. rewrite read_4_at by lia. rewrite <- app_assoc. reflexivity.
    + change (255 :: le_bytes 8 v) with (le_bytes 1 255 ++ le_bytes 8 v).
      rewrite <- app_assoc.
      erewrite bind_some by (apply read_byte_at; lia). simpl Z.eqb.
      cbv iota. rewrite read_8_at by lia. rewrite <- app_assoc. reflexivity.
Qed.

End SerialFacts.

(** ** Output queries *)

Section QueryFacts.
Import Serial TransactionDatabase.
Context {C : Type} `{!OutputCache C}.
Implicit Types (db : database C) (point : output_point).

(** C9 (as amended). For a null point [get_output] answers false and
    leaves the height and the median time past of the metadata at zero and
    its spent flag false; the cache, coinbase and confirmed fields keep
    what the caller passed. *)
Theorem get_output_null db point fork_height :
  is_null point = true ->
  exists prevout,
    get_output db point fork_height = Some (false, prevout) /\
    prevout_height prevout = 0 /\
    prevout_median_time_past prevout = 0 /\
    prevout_spent prevout = false /\
    prevout_cache prevout = prevout_cache (point_metadata point) /\
    prevout_coinbase prevout = prevout_coinbase (point_metadata point) /\
    prevout_confirmed prevout = prevout_confirmed (point_metadata point).
Proof.
  intros Hnull. exists (reset_prevout (point_metadata point)).
  unfold get_output. rewrite Hnull. repeat split; reflexivity.
Qed.

(** C7. A point that is not null and not resolved by the cache, whose
    transaction is found with a stored height of zero, gets the answer
    false at every fork height, whatever the state and position stored. *)
Theorem get_output_genesis db point fork_height result :
  is_null point = false ->
  populate (cache_ db) (reset_point point) fork_height = None ->
  get_hash db (point_hash point) = Some result ->
  result_height db result = Some 0 ->
  get_output db point fork_height
  = Some (false, reset_prevout (point_metadata point)).
Proof.
  intros Hnull Hmiss Hfound Hheight. unfold get_output.
  rewrite Hnull. rewrite Hmiss, Hfound, Hheight.
  reflexivity.
Qed.

(** C3. For a point that is not null and not resolved by the cache, whose
    transaction is found with a stored height above zero: the confirmed
    flag is (state is indexed and the fork height is not the pool
    sentinel) or (state is confirmed and height is at most the fork
    height). When it is false outside pool mode the call answers false.
    When it is true, or the call is for the pool, the call goes on to the
    output, and with the output present it answers true and stores the
    flag in the metadata; no call that answers true stores anything else
    there. *)
Theorem get_output_confirmation db point fork_height result height state :
  is_null point = false ->
  populate (cache_ db) (reset_point point) fork_height = None ->
  get_hash db (point_hash point) = Some result ->
  result_height db result = Some height ->
  0 < height ->
  result_state db result = Some state ->
  let confirmed_flag :=
    ((state =? state_byte indexed) && negb (fork_height =? max_size_t)) ||
    ((state =? state_byte confirmed) && (height <=? fork_height)) in
  (fork_height <> max_size_t -> confirmed_flag = false ->
   get_output db point fork_height
   = Some (false, reset_prevout (point_metadata point))) /\
  (forall prevout,
     get_output db point fork_height = Some (true, prevout) ->
     prevout_confirmed prevout = confirmed_flag) /\
  (fork_height = max_size_t \/ confirmed_flag = true ->
   forall o position median_time_past,
     result_output db result (point_index point) = Some (Some o) ->
     result_position db result = Some position ->
     result_median_time_past db result = Some median_time_past ->
     exists prevout,
       get_output db point fork_height = Some (true, prevout) /\
       prevout_confirmed prevout = confirmed_flag /\
       prevout_height prevout = height).
Proof.
  intros Hnull Hmiss Hfound Hheight Hpos Hstate confirmed_flag.
  unfold get_output. rewrite Hnull.
  rewrite Hmiss, Hfound, Hheight. cbn [mbind option_bind].
  destruct (Z.eqb_spec height 0) as [|_]; [lia|].
  rewrite Hstate. cbn [mbind option_bind].
  change (output_confirmed state height fork_height) with confirmed_flag.
  split; [|split].
  - intros Hfork Hconf. rewrite Hconf.
    destruct (Z.eqb_spec fork_height max_size_t); [contradiction|].
    reflexivity.
  - intros prevout.
    destruct (negb (fork_height =? max_size_t) && negb confirmed_flag);
      [discriminate|].
    destruct (result_output db result (point_index point)) as [[o|]|];
      cbn [mbind option_bind]; try discriminate.
    destruct (result_position db result); cbn [mbind option_bind];
      [|discriminate].
    destruct (result_median_time_past db result); cbn [mbind option_bind];
      [|discriminate].
    intros [= <-]. reflexivity.
  - intros Hvisible o position median_time_past Hout Hposition Hmedian.
    assert (Hpass : negb (fork_height =? max_size_t) && negb confirmed_flag
                    = false).
    { destruct Hvisible as [->| ->].
      - rewrite Z.eqb_refl. reflexivity.
      - apply andb_false_r. }
    rewrite Hpass, Hout. cbn [mbind option_bind].
    rewrite Hposition, Hmedian. cbn [mbind option_bind].
    eexists. split; [reflexivity|]. split; reflexivity.
Qed.

End QueryFacts.

(** ** Reading and writing the metadata of a record *)

Section MetadataFacts.
Import Serial TransactionDatabase RecordFormat.
Local Open Scope serial_scope.

Lemma bind_inv {A B : Type} (m : serial A) (k : A -> serial B) c r :
  bind m k c = Some r -> exists a c1, m c = Some (a, c1) /\ k a c1 = Some r.
Proof.
  unfold bind. destruct (m c) as [[a c1]|]; [|discriminate]. eauto.
Qed.

Lemma write_bytes_inv bs c u c' :
  write_bytes bs c = Some (u, c') ->
  length (buffer c') = length (buffer c) /\
  offset c' = (offset c + length bs)%nat /\
  (offset c' <= length (buffer c'))%nat.
Proof.
  unfold write_bytes. case_decide as Hle; [|discriminate].
  intros [= _ <-]. simpl.
  rewrite !length_app, length_take, length_drop. lia.
Qed.

Lemma split_prefix (n : nat) (l : list Z) :
  (n <= length l)%nat ->
  exists x rest, l = x ++ rest /\ length x = n /\ rest = drop n l.
Proof.
  intros Hn. exists (take n l), (drop n l).
  rewrite take_drop, length_take. repeat split; lia.
Qed.

Lemma length_metadata_bytes h p s m :
  length (metadata_bytes h p s m) = metadata_size.
Proof. unfold metadata_bytes. rewrite !length_app, !length_le_bytes. reflexivity. Qed.

(** The writer of [update] needs the eleven bytes of the metadata and
    replaces exactly those. *)
Lemma update_writer_run h m p s slab slab' :
  run_write (update_writer h m p s) slab = Some slab' ->
  slab' = metadata_bytes h p (state_byte s) m ++ drop metadata_size slab.
Proof.
  unfold run_write.
  destruct (update_writer h m p s (Cursor slab 0)) as [[u c]|] eqn:Hrun;
    [|discriminate].
  intros [= <-].
  assert (Hlen : (metadata_size <= length slab)%nat).
  { unfold update_writer in Hrun.
    apply bind_inv in Hrun as (u1 & c1 & H1 & Hrun).
    apply bind_inv in Hrun as (u2 & c2 & H2 & Hrun).
    apply bind_inv in Hrun as (u3 & c3 & H3 & H4).
    apply write_bytes_inv in H1 as (L1 & O1 & _).
    apply write_bytes_inv in H2 as (L2 & O2 & _).
    apply write_bytes_inv in H3 as (L3 & O3 & _).
    apply write_bytes_inv in H4 as (L4 & O4 & B4).
    rewrite !length_le_bytes in *. simpl in *.
    change metadata_size with 11%nat. lia. }
  change metadata_size with 11%nat in *.
  destruct (split_prefix 4 slab) as (x1 & r1 & -> & Hx1 & Hr1); [lia|].
  rewrite length_app in Hlen.
  destruct (split_prefix 2 r1) as (x2 & r2 & -> & Hx2 & Hr2); [lia|].
  rewrite length_app in Hlen.
  destruct (split_prefix 1 r2) as (x3 & r3 & -> & Hx3 & Hr3); [lia|].
  rewrite length_app in Hlen.
  destruct (split_prefix 4 r3) as (x4 & r4 & -> & Hx4 & Hr4); [lia|].
  change (Cursor (x1 ++ x2 ++ x3 ++ x4 ++ r4) 0)
    with (at_cursor [] (x1 ++ x2 ++ x3 ++ x4 ++ r4)) in Hrun.
  unfold update_writer, write_4_bytes_little_endian,
    write_2_bytes_little_endian, write_byte in Hrun.
  erewrite bind_some in Hrun
    by (apply write_bytes_at; rewrite length_le_bytes; assumption).
  erewrite bind_some in Hrun
    by (apply write_bytes_at; rewrite length_le_bytes; assumption).
  erewrite bind_some in Hrun
    by (apply write_bytes_at; rewrite length_le_bytes; assumption).
  rewrite write_bytes_at in Hrun by (rewrite length_le_bytes; assumption).
  injection Hrun as _ <-. unfold at_cursor, metadata_bytes. simpl buffer.
  replace (drop 11 (x1 ++ x2 ++ x3 ++ x4 ++ r4)) with r4.
  - rewrite <- !app_assoc. reflexivity.
  - rewrite !app_assoc.
    rewrite drop_app_length'; [reflexivity|].
    rewrite !length_app. lia.
Qed.

Lemma run_read_at {A : Type} (reader : serial A) slab a c :
  reader (at_cursor [] slab) = Some (a, c) -> run_read reader slab = Some a.
Proof. unfold run_read, at_cursor. simpl. intros ->. reflexivity. Qed.

Section Fields.
Variables (h p s m : Z) (rest : list Z).
Hypothesis Hh : 0 <= h <= max_uint32.
Hypothesis Hp : 0 <= p <= max_uint16.
Hypothesis Hs : 0 <= s < 256.
Hypothesis Hm : 0 <= m <= max_uint32.

Lemma read_height_metadata :
  run_read read_4_bytes_little_endian (metadata_bytes h p s m ++ rest)
  = Some h.
Proof.
  unfold metadata_bytes. rewrite <- !app_assoc.
  eapply run_read_at. apply read_4_at, Hh.
Qed.

Lemma read_position_metadata :
  run_read (skip height_size ;;; read_2_bytes_little_endian)
    (metadata_bytes h p s m ++ rest)
  = Some p.
Proof.
  unfold metadata_bytes. rewrite <- !app_assoc.
  eapply run_read_at.
  erewrite bind_some by (apply skip_at, length_le_bytes).
  apply read_2_at, Hp.
Qed.

Lemma read_state_metadata :
  run_read (skip (height_size + position_size) ;;; read_byte)
    (metadata_bytes h p s m ++ rest)
  = Some s.
Proof.
  unfold metadata_bytes. rewrite <- !app_assoc.
  rewrite (app_assoc (le_bytes 4 h)).
  eapply run_read_at.
  erewrite bind_some
    by (apply skip_at; rewrite length_app, !length_le_bytes; reflexivity).
  apply read_byte_at, Hs.
Qed.

Lemma read_median_time_past_metadata :
  run_read (skip (height_size + position_size + state_size) ;;;
            read_4_bytes_little_endian)
    (metadata_bytes h p s m ++ rest)
  = Some m.
Proof.
  unfold metadata_bytes. rewrite <- !app_assoc.
  rewrite (app_assoc (le_bytes 2 p)), (app_assoc (le_bytes 4 h)).
  eapply run_read_at.
  erewrite bind_some
    by (apply skip_at; rewrite !length_app, !length_le_bytes; reflexivity).
  apply read_4_at, Hm.
Qed.

End Fields.

Lemma state_byte_range s : 0 <= state_byte s < 256.
Proof. destruct s; simpl; lia. Qed.

End MetadataFacts.

(** ** Updates *)

Section UpdateFacts.
Import Serial TransactionDatabase RecordFormat.
Context {C : Type} `{!OutputCache C}.
Implicit Types (db : database C) (point : output_point).

(** A successful [update] replaces the metadata of the record at the link
    and nothing else. *)
Lemma update_true db link h m p s db' :
  update db link h m p s = Some (true, db') ->
  exists slab,
    hash_table_file_ db !! link = Some slab /\
    db' = with_file db
            (<[link := metadata_bytes h p (state_byte s) m ++
                       drop metadata_size slab]> (hash_table_file_ db)).
Proof.
  unfold update, find_link.
  destruct (hash_table_file_ db !! link) as [slab|] eqn:Hslab; [|discriminate].
  unfold element_write. rewrite Hslab.
  destruct (run_write _ slab) as [slab'|] eqn:Hrun; [|discriminate].
  cbn [mbind option_bind]. intros [= <-].
  apply update_writer_run in Hrun as ->. eauto.
Qed.

Lemma confirm_true db link h m p db' :
  confirm db link h m p = Some (true, db') ->
  exists db1, update db1 link h m p confirmed = Some (true, db').
Proof.
  unfold confirm. destruct (get db link); [|discriminate].
  destruct (result_inpoints db _); cbn [mbind option_bind]; [|discriminate].
  destruct (for_each_inpoint _ _ _) as [[[] db1]|];
    cbn [mbind option_bind negb]; try discriminate.
  eauto.
Qed.

(** C1. After a [confirm] that answers true, with the height, the median
    time past and the position within their widths, [get] at the same
    offset finds the record and reports the state confirmed and the height,
    median time past and position given. *)
Theorem confirm_then_get db link h m p db' :
  0 <= h <= max_uint32 ->
  0 <= p <= max_uint16 ->
  0 <= m <= max_uint32 ->
  confirm db link h m p = Some (true, db') ->
  exists result,
    get db' link = Some result /\
    result_state db' result = Some (state_byte confirmed) /\
    result_height db' result = Some h /\
    result_median_time_past db' result = Some m /\
    result_position db' result = Some p.
Proof.
  intros Hh Hp Hm Hconfirm.
  apply confirm_true in Hconfirm as (db1 & Hupdate).
  apply update_true in Hupdate as (slab & Hslab & ->).
  exists link.
  unfold get, find_link, result_state, result_height,
    result_median_time_past, result_position, element_read, with_file.
  cbn [hash_table_file_]. rewrite lookup_insert_eq.
  pose proof (state_byte_range confirmed) as Hs.
  rewrite read_state_metadata, read_height_metadata,
    read_median_time_past_metadata, read_position_metadata by assumption.
  repeat split; reflexivity.
Qed.

(** C4. For a point that is not null and whose transaction is found,
    [spend] answers false when the state stored is not confirmed, or the
    height stored exceeds the spender height, or the index of the point is
    at least the output count; then no byte of any record changes. *)
Theorem spend_rejects db point spender_height element slab
    height state outputs :
  is_null point = false ->
  find_hash db (point_hash point) = Some element ->
  hash_table_file_ db !! element = Some slab ->
  run_read spend_reader slab = Some (height, state, outputs) ->
  state <> state_byte confirmed \/ spender_height < height \/
    outputs <= point_index point ->
  exists db',
    spend db point spender_height = Some (false, db') /\
    hash_table_file_ db' = hash_table_file_ db /\
    hash_table_file_ db' !! element = Some slab.
Proof.
  intros Hnull Hfound Hslab Hread Hreject. unfold spend. rewrite Hnull.
  set (db1 := if negb (spender_height =? not_spent)
              then with_cache db (remove (cache_ db) point) else db).
  assert (Hfile : hash_table_file_ db1 = hash_table_file_ db)
    by (subst db1; destruct (negb _); reflexivity).
  assert (Htable : hash_table_ db1 = hash_table_ db)
    by (subst db1; destruct (negb _); reflexivity).
  assert (Hfound1 : find_hash db1 (point_hash point) = Some element).
  { unfold find_hash, find_link in *. rewrite Htable, Hfile. exact Hfound. }
  assert (Hread1 : element_read db1 element spend_reader
                   = Some (height, state, outputs)).
  { unfold element_read. rewrite Hfile, Hslab. exact Hread. }
  exists db1. rewrite Hfound1, Hread1. cbn [mbind option_bind].
  split; [|split; [exact Hfile | rewrite Hfile; exact Hslab]].
  destruct (Z.eqb_spec state (state_byte confirmed)) as [Heq|Hne];
    cbn [negb orb]; [|reflexivity].
  destruct (Z.ltb_spec spender_height height) as [|Hge]; [reflexivity|].
  destruct (Z.leb_spec outputs (point_index point)) as [|Hlt]; [reflexivity|].
  lia.
Qed.

End UpdateFacts.

(** ** The byte-level readers and writers on well-formed records *)

Section RecordFacts.
Import Serial TransactionDatabase RecordFormat.
Local Open Scope serial_scope.

Lemma outputs_bytes_app a b :
  outputs_bytes (a ++ b) = outputs_bytes a ++ outputs_bytes b.
Proof. unfold outputs_bytes. rewrite List.map_app, concat_app. reflexivity. Qed.

Lemma outputs_bytes_cons o outs :
  outputs_bytes (o :: outs) = output_bytes o ++ outputs_bytes outs.
Proof. reflexivity. Qed.

Lemma inputs_bytes_cons i ins :
  inputs_bytes (i :: ins) = input_bytes i ++ inputs_bytes ins.
Proof. reflexivity. Qed.

(** The fixed part of an output, the thirteen bytes before its script. *)
Lemma output_bytes_parts o after :
  output_bytes o ++ after
  = (le_bytes 1 (index_spend o) ++ le_bytes 4 (spender_height o) ++
     le_bytes 8 (value o)) ++
    size_bytes (Z.of_nat (length (script o))) ++ script o ++ after.
Proof. unfold output_bytes. rewrite <- !app_assoc. reflexivity. Qed.

Lemma at_cursor_eq before before' after :
  before = before' -> at_cursor before after = at_cursor before' after.
Proof. intros ->. reflexivity. Qed.

(** Skipping as many outputs as a list holds moves the cursor over their
    bytes. *)
Lemma skip_outputs_at outs before after :
  Forall output_valid outs ->
  skip_outputs (length outs) (at_cursor before (outputs_bytes outs ++ after))
  = Some (tt, at_cursor (before ++ outputs_bytes outs) after).
Proof.
  intros Hvalid. revert before.
  induction Hvalid as [|o outs Ho _ IH]; intros before.
  - simpl. unfold ret. rewrite app_nil_r. reflexivity.
  - destruct Ho as (_ & _ & _ & Hscript).
    cbn [length skip_outputs].
    rewrite outputs_bytes_cons, <- app_assoc, output_bytes_parts.
    erewrite bind_some
      by (apply skip_at; rewrite !length_app, !length_le_bytes; reflexivity).
    erewrite bind_some by (apply read_size_at; lia).
    rewrite Nat2Z.id.
    erewrite bind_some by (apply skip_at; reflexivity).
    rewrite IH. f_equal. f_equal. apply at_cursor_eq.
    unfold output_bytes. rewrite <- !app_assoc. reflexivity.
Qed.

Lemma record_bytes_parts r :
  record_bytes r
  = metadata_bytes (tx_height r) (tx_position r) (tx_state r)
      (tx_median_time_past r) ++
    size_bytes (Z.of_nat (length (tx_outputs r))) ++
    outputs_bytes (tx_outputs r) ++ tail_bytes r.
Proof. reflexivity. Qed.

(** The reader of [spend] gets the height, the state and the output
    count of a well-formed record. *)
Lemma spend_reader_run r :
  record_valid r ->
  run_read spend_reader (record_bytes r)
  = Some (tx_height r, tx_state r, Z.of_nat (length (tx_outputs r))).
Proof.
  intros (Hh & Hp & Hs & Hm & Hn & _).
  rewrite record_bytes_parts. unfold metadata_bytes. rewrite <- !app_assoc.
  eapply run_read_at. unfold spend_reader.
  erewrite bind_some by (apply read_4_at, Hh).
  erewrite bind_some by (apply skip_at, length_le_bytes).
  erewrite bind_some by (apply read_byte_at, Hs).
  erewrite bind_some by (apply skip_at, length_le_bytes).
  erewrite bind_some by (apply read_size_at; lia).
  reflexivity.
Qed.

(** The writer of [spend], on a record whose outputs are [before_o], then
    [o], then [after_o], with the index of [o]: it replaces the four bytes
    of the spender height of [o] and nothing else. *)
Lemma spend_writer_run r before_o o after_o h :
  tx_outputs r = before_o ++ o :: after_o ->
  Z.of_nat (length (tx_outputs r)) <= max_size_t ->
  Forall output_valid before_o ->
  let before :=
    metadata_bytes (tx_height r) (tx_position r) (tx_state r)
      (tx_median_time_past r) ++
    size_bytes (Z.of_nat (length (tx_outputs r))) ++
    outputs_bytes before_o ++ le_bytes 1 (index_spend o) in
  let after :=
    le_bytes 8 (value o) ++
    size_bytes (Z.of_nat (length (script o))) ++ script o ++
    outputs_bytes after_o ++ tail_bytes r in
  record_bytes r = before ++ le_bytes 4 (spender_height o) ++ after /\
  run_write (spend_writer (Z.of_nat (length before_o)) h)
    (record_bytes r)
  = Some (before ++ le_bytes 4 h ++ after).
Proof.
  intros Houts Hcount Hvalid before after.
  assert (Hparts : record_bytes r
                   = before ++ le_bytes 4 (spender_height o)
                     ++ after).
  { subst before after. rewrite record_bytes_parts.
    rewrite Houts at 2. rewrite outputs_bytes_app, outputs_bytes_cons.
    unfold output_bytes. rewrite <- !app_assoc. reflexivity. }
  split; [exact Hparts|]. rewrite Hparts. subst before after.
  unfold run_write.
  change (Cursor ?l 0) with (at_cursor [] l).
  unfold spend_writer. rewrite <- !app_assoc.
  erewrite bind_some by (apply skip_at, length_metadata_bytes).
  erewrite bind_some by (apply read_size_at; lia).
  rewrite Nat2Z.id.
  erewrite bind_some by (apply skip_outputs_at, Hvalid).
  erewrite bind_some by (apply skip_at, length_le_bytes).
  unfold write_4_bytes_little_endian.
  rewrite write_bytes_at by (rewrite !length_le_bytes; reflexivity).
  unfold at_cursor. cbn [buffer]. rewrite <- !app_assoc. reflexivity.
Qed.

(** The outputs around the output at an index. *)
Lemma outputs_at_index (outs : list output) (i : nat) o :
  outs !! i = Some o ->
  outs = take i outs ++ o :: drop (S i) outs /\ length (take i outs) = i.
Proof.
  intros Hi. split; [symmetry; apply take_drop_middle, Hi|].
  apply length_take_le. apply lookup_lt_Some in Hi. lia.
Qed.

Lemma alter_at_index (f : output -> output) (outs : list output) (i : nat) o :
  outs !! i = Some o ->
  alter f i outs = take i outs ++ f o :: drop (S i) outs.
Proof.
  intros Hi. destruct (outputs_at_index outs i o Hi) as [Hsplit Hlen].
  rewrite Hsplit at 1.
  rewrite <- (Nat.add_0_r i) at 1. rewrite <- Hlen at 1.
  rewrite alter_app_r. reflexivity.
Qed.

(** On a well-formed record the writer of [spend] produces the record
    with the spender height of that output set. *)
Lemma spend_writer_record r (i : nat) h :
  record_valid r ->
  (i < length (tx_outputs r))%nat ->
  run_write (spend_writer (Z.of_nat i) h) (record_bytes r)
  = Some (record_bytes (set_spender_height i (to_uint32 h) r)).
Proof.
  intros (_ & _ & _ & _ & Hn & _ & Houts & _) Hi.
  destruct (lookup_lt_is_Some_2 _ _ Hi) as [o Ho].
  destruct (outputs_at_index _ _ _ Ho) as [Hsplit Hlen].
  assert (Hbefore : Forall output_valid (take i (tx_outputs r)))
    by (apply Forall_take, Houts).
  destruct (spend_writer_run r _ o _ h Hsplit Hn Hbefore) as [_ Hrun].
  rewrite Hlen in Hrun. rewrite Hrun. f_equal.
  unfold set_spender_height.
  rewrite record_bytes_parts. cbn [tx_height tx_position tx_state
    tx_median_time_past tx_outputs with_outputs].
  rewrite length_alter, (alter_at_index _ _ _ _ Ho).
  rewrite outputs_bytes_app, outputs_bytes_cons.
  unfold output_bytes, mark_output. cbn [index_spend spender_height value script].
  rewrite le_bytes_4_uint32.
  unfold tail_bytes. cbn [tx_inputs tx_locktime tx_version].
  rewrite <- !app_assoc. reflexivity.
Qed.

Lemma metadata_bytes_uint h p s m :
  metadata_bytes (to_uint32 h) (to_uint16 p) s (to_uint32 m)
  = metadata_bytes h p s m.
Proof.
  unfold metadata_bytes.
  rewrite !le_bytes_4_uint32, le_bytes_2_uint16. reflexivity.
Qed.

(** On a well-formed record the writer of [update] produces the record
    with its metadata set. *)
Lemma update_writer_record r h m p s :
  run_write (update_writer h m p s) (record_bytes r)
  = Some (record_bytes
            (set_metadata (to_uint32 h) (to_uint16 p) (state_byte s)
               (to_uint32 m) r)).
Proof.
  rewrite !record_bytes_parts. unfold tail_bytes.
  cbn [tx_height tx_position tx_state tx_median_time_past tx_outputs
       tx_inputs tx_locktime tx_version set_metadata].
  rewrite metadata_bytes_uint.
  set (rest := size_bytes _ ++ _).
  unfold metadata_bytes at 1. rewrite <- !app_assoc.
  unfold run_write. change (Cursor ?l 0) with (at_cursor [] l).
  unfold update_writer, write_4_bytes_little_endian,
    write_2_bytes_little_endian, write_byte.
  erewrite bind_some
    by (apply write_bytes_at; rewrite !length_le_bytes; reflexivity).
  erewrite bind_some
    by (apply write_bytes_at; rewrite !length_le_bytes; reflexivity).
  erewrite bind_some
    by (apply write_bytes_at; rewrite !length_le_bytes; reflexivity).
  rewrite write_bytes_at by (rewrite !length_le_bytes; reflexivity).
  unfold at_cursor, metadata_bytes. cbn [buffer].
  rewrite <- !app_assoc. reflexivity.
Qed.

Lemma read_output_at o before after :
  output_valid o ->
  read_output (at_cursor before (output_bytes o ++ after))
  = Some (o, at_cursor (before ++ output_bytes o) after).
Proof.
  intros (Hflag & Hheight & Hvalue & Hscript).
  unfold output_bytes, read_output. rewrite <- !app_assoc.
  erewrite bind_some by (apply read_byte_at, Hflag).
  erewrite bind_some by (apply read_4_at, Hheight).
  erewrite bind_some by (apply read_8_at, Hvalue).
  erewrite bind_some by (apply read_size_at; lia).
  rewrite Nat2Z.id.
  erewrite bind_some by (apply read_bytes_at; reflexivity).
  unfold ret. destruct o. cbn. rewrite <- !app_assoc. reflexivity.
Qed.

(** Reading the output at an index of a well-formed record. *)
Lemma read_output_record r (index : Z) :
  record_valid r ->
  0 <= index ->
  run_read
    (skip metadata_size ;;;
     outputs <- read_size_little_endian ;;
     if outputs <=? index then ret None
     else skip_outputs (Z.to_nat index) ;;;
          o <- read_output ;;
          ret (Some o))
    (record_bytes r)
  = Some (tx_outputs r !! Z.to_nat index).
Proof.
  intros (_ & _ & _ & _ & Hn & _ & Houts & _) Hindex.
  rewrite record_bytes_parts.
  unfold run_read. change (Cursor ?l 0) with (at_cursor [] l).
  erewrite bind_some by (apply skip_at, length_metadata_bytes).
  erewrite bind_some by (apply read_size_at; lia).
  destruct (Z.leb_spec (Z.of_nat (length (tx_outputs r))) index) as [Hge|Hlt].
  - unfold ret. rewrite lookup_ge_None_2 by lia. reflexivity.
  - destruct (lookup_lt_is_Some_2 (tx_outputs r) (Z.to_nat index))
      as [o Ho]; [lia|].
    destruct (outputs_at_index _ _ _ Ho) as [Hsplit Hlen].
    rewrite Ho.
    replace (outputs_bytes (tx_outputs r))
      with (outputs_bytes (take (Z.to_nat index) (tx_outputs r)) ++
            output_bytes o ++
            outputs_bytes (drop (S (Z.to_nat index)) (tx_outputs r)))
      by (rewrite <- outputs_bytes_cons, <- outputs_bytes_app, <- Hsplit;
          reflexivity).
    rewrite <- !app_assoc.
    rewrite <- Hlen at 1.
    erewrite bind_some by (apply skip_outputs_at, Forall_take, Houts).
    assert (Hvalid : output_valid o)
      by (rewrite Forall_lookup in Houts; eapply Houts, Ho).
    erewrite bind_some by (apply read_output_at, Hvalid).
    reflexivity.
Qed.

Lemma read_point_at i before after :
  input_valid i ->
  read_point
    (at_cursor before (previous_hash i ++ le_bytes 2 (previous_index i) ++ after))
  = Some (inpoint i,
          at_cursor ((before ++ previous_hash i) ++
                     le_bytes 2 (previous_index i)) after).
Proof.
  intros (Hhash & Hindex & _). unfold read_point.
  erewrite bind_some by (apply read_bytes_at, Hhash).
  erewrite bind_some by (apply read_2_at, Hindex).
  reflexivity.
Qed.

Lemma read_inpoints_at ins before after :
  Forall input_valid ins ->
  read_inpoints (length ins) (at_cursor before (inputs_bytes ins ++ after))
  = Some (List.map inpoint ins, at_cursor (before ++ inputs_bytes ins) after).
Proof.
  intros Hvalid. revert before.
  induction Hvalid as [|i ins Hi _ IH]; intros before.
  - simpl. unfold ret. rewrite app_nil_r. reflexivity.
  - pose proof Hi as (_ & _ & Hscript & _).
    cbn [length read_inpoints List.map].
    rewrite inputs_bytes_cons. unfold input_bytes. rewrite <- !app_assoc.
    erewrite bind_some by (apply read_point_at, Hi).
    erewrite bind_some by (apply read_size_at; lia).
    rewrite Nat2Z.id.
    erewrite bind_some by (apply skip_at; reflexivity).
    erewrite bind_some by (apply skip_at, length_le_bytes).
    erewrite bind_some by apply IH.
    unfold ret. f_equal. f_equal. apply at_cursor_eq.
    rewrite <- !app_assoc. reflexivity.
Qed.

(** Reading the inpoints of a well-formed record. *)
Lemma read_inpoints_record r :
  record_valid r ->
  run_read
    (skip metadata_size ;;;
     outputs <- read_size_little_endian ;;
     skip_outputs (Z.to_nat outputs) ;;;
     inputs <- read_size_little_endian ;;
     read_inpoints (Z.to_nat inputs))
    (record_bytes r)
  = Some (List.map inpoint (tx_inputs r)).
Proof.
  intros (_ & _ & _ & _ & Hn & Hi & Houts & Hins).
  rewrite record_bytes_parts. unfold tail_bytes.
  eapply run_read_at.
  erewrite bind_some by (apply skip_at, length_metadata_bytes).
  erewrite bind_some by (apply read_size_at; lia).
  rewrite Nat2Z.id.
  erewrite bind_some by (apply skip_outputs_at, Houts).
  erewrite bind_some by (apply read_size_at; lia).
  rewrite Nat2Z.id.
  apply read_inpoints_at, Hins.
Qed.

(** Validity is kept by the two updates of a record. *)
Lemma set_spender_height_valid i h r :
  record_valid r -> 0 <= h <= max_uint32 ->
  record_valid (set_spender_height i h r).
Proof.
  intros (Hh & Hp & Hs & Hm & Hn & Hi & Houts & Hins) Hrange.
  unfold record_valid, set_spender_height. cbn.
  rewrite length_alter. repeat split; try assumption; try lia.
  rewrite Forall_lookup in *. intros j o.
  rewrite list_lookup_alter. case_decide as Hj.
  - subst j. destruct (tx_outputs r !! i) as [o'|] eqn:Ho';
      cbn [fmap option_fmap option_map]; [|discriminate].
    intros [= <-]. specialize (Houts _ _ Ho').
    unfold output_valid, mark_output in *. cbn. intuition lia.
  - apply Houts.
Qed.

Lemma to_uint32_range h : 0 <= to_uint32 h <= max_uint32.
Proof. unfold to_uint32, max_uint32. pose proof (Z.mod_pos_bound h 4294967296). lia. Qed.

Lemma to_uint16_range h : 0 <= to_uint16 h <= max_uint16.
Proof. unfold to_uint16, max_uint16. pose proof (Z.mod_pos_bound h 65536). lia. Qed.

Lemma set_metadata_valid h p s m r :
  record_valid r ->
  record_valid (set_metadata (to_uint32 h) (to_uint16 p) (state_byte s)
                  (to_uint32 m) r).
Proof.
  intros (_ & _ & _ & _ & Hn & Hi & Houts & Hins).
  pose proof (to_uint32_range h). pose proof (to_uint32_range m).
  pose proof (to_uint16_range p). pose proof (state_byte_range s).
  unfold record_valid. cbn. repeat split; try assumption; lia.
Qed.

End RecordFacts.

(** ** Spending on well-formed records *)

Section SpendFacts.
Import Serial TransactionDatabase RecordFormat.
Context {C : Type} `{!OutputCache C}.
Implicit Types (db : database C) (point : output_point) (m : model C).

(** C10. When [spend] answers true for a point that is not null and whose
    record is well-formed, the record after the call is the record before
    it with the four bytes of the spender height of output number
    [point_index point] replaced by the spender height given: the bytes
    before them (the metadata, the output count, the outputs before and
    the index-spend flag of that output) and the bytes after them are
    unchanged, and so is every other record. *)
Theorem spend_writes_slot db point h element r db' :
  is_null point = false ->
  0 <= point_index point ->
  find_hash db (point_hash point) = Some element ->
  hash_table_file_ db !! element = Some (record_bytes r) ->
  record_valid r ->
  spend db point h = Some (true, db') ->
  let i := Z.to_nat (point_index point) in
  exists o,
    tx_outputs r !! i = Some o /\
    let before :=
      metadata_bytes (tx_height r) (tx_position r) (tx_state r)
        (tx_median_time_past r) ++
      size_bytes (Z.of_nat (length (tx_outputs r))) ++
      outputs_bytes (take i (tx_outputs r)) ++ le_bytes 1 (index_spend o) in
    let after :=
      le_bytes 8 (value o) ++
      size_bytes (Z.of_nat (length (script o))) ++ script o ++
      outputs_bytes (drop (S i) (tx_outputs r)) ++ tail_bytes r in
    record_bytes r = before ++ le_bytes 4 (spender_height o) ++ after /\
    length before = spender_height_offset r i /\
    hash_table_file_ db'
    = <[element := before ++ le_bytes 4 h ++ after]> (hash_table_file_ db) /\
    before ++ le_bytes 4 h ++ after
    = record_bytes (set_spender_height i (to_uint32 h) r) /\
    hash_table_ db' = hash_table_ db.
Proof.
  intros Hnull Hindex Hfound Hslab Hvalid Hspend i.
  unfold spend in Hspend. rewrite Hnull in Hspend.
  set (db1 := if negb (h =? not_spent)
              then with_cache db (remove (cache_ db) point) else db) in *.
  assert (Hfile : hash_table_file_ db1 = hash_table_file_ db)
    by (subst db1; destruct (negb _); reflexivity).
  assert (Htable : hash_table_ db1 = hash_table_ db)
    by (subst db1; destruct (negb _); reflexivity).
  assert (Hfound1 : find_hash db1 (point_hash point) = Some element).
  { unfold find_hash, find_link in *. rewrite Htable, Hfile. exact Hfound. }
  rewrite Hfound1 in Hspend. unfold element_read, element_write in Hspend.
  rewrite Hfile, Hslab, (spend_reader_run r Hvalid) in Hspend.
  cbn [mbind option_bind] in Hspend.
  destruct (negb (tx_state r =? state_byte confirmed) || (h <? tx_height r));
    [discriminate|].
  destruct (Z.leb_spec (Z.of_nat (length (tx_outputs r))) (point_index point))
    as [|Hlt]; [discriminate|].
  destruct (lookup_lt_is_Some_2 (tx_outputs r) i) as [o Ho];
    [subst i; lia|].
  exists o. split; [exact Ho|].
  destruct (outputs_at_index _ _ _ Ho) as [Hsplit Hlen].
  pose proof Hvalid as (_ & _ & _ & _ & Hn & _ & Houts & _).
  destruct (spend_writer_run r _ o _ h Hsplit Hn (Forall_take _ i _ Houts))
    as [Hparts Hrun].
  rewrite Hlen in Hrun.
  replace (Z.of_nat i) with (point_index point) in Hrun by (subst i; lia).
  cbv zeta in Hparts, Hrun. rewrite Hrun in Hspend.
  cbn [mbind option_bind] in Hspend. injection Hspend as <-.
  cbv zeta. split; [exact Hparts|]. split.
  { unfold spender_height_offset, index_spend_size.
    rewrite !length_app, length_metadata_bytes, length_le_bytes. lia. }
  split; [unfold with_file; cbn; rewrite ?Hfile; reflexivity|].
  split; [|exact Htable].
  pose proof (spend_writer_record r i h Hvalid) as Hrecord.
  replace (Z.of_nat i) with (point_index point) in Hrecord by (subst i; lia).
  assert (Hi : (i < length (tx_outputs r))%nat) by (subst i; lia).
  specialize (Hrecord Hi). congruence.
Qed.

End SpendFacts.

(** ** The database on well-formed records follows the model *)

Section SimulationFacts.
Import Serial TransactionDatabase RecordFormat.
Context {C : Type} `{!OutputCache C}.
Implicit Types (db : database C) (point : output_point) (m : model C).

Lemma concretize_lookup m link :
  hash_table_file_ (concretize m) !! link = record_bytes <$> records m !! link.
Proof. unfold concretize. cbn [hash_table_file_]. apply lookup_fmap. Qed.

Lemma model_valid_lookup m link r :
  model_valid m -> records m !! link = Some r -> record_valid r.
Proof. intros Hvalid Hr. exact (Hvalid link r Hr). Qed.

Lemma model_valid_insert m link r (c : C) :
  model_valid m -> record_valid r ->
  model_valid (Model (<[link := r]> (records m)) (entries m) c).
Proof.
  intros Hvalid Hr. unfold model_valid. cbn [records].
  apply map_Forall_insert_2; assumption.
Qed.

Lemma concretize_insert (recs : gmap Z tx_record) e (c : C) link r :
  concretize (Model (<[link := r]> recs) e c)
  = with_file (concretize (Model recs e c))
      (<[link := record_bytes r]> (record_bytes <$> recs)).
Proof. unfold concretize, with_file. cbn. rewrite fmap_insert. reflexivity. Qed.

Lemma find_link_concretize m link :
  find_link (concretize m) link
  = match records m !! link with Some _ => Some link | None => None end.
Proof.
  unfold find_link. rewrite concretize_lookup.
  destruct (records m !! link); reflexivity.
Qed.

Lemma element_read_concretize {A : Type} m link r (reader : serial A) :
  records m !! link = Some r ->
  element_read (concretize m) link reader = run_read reader (record_bytes r).
Proof.
  intros Hr. unfold element_read. rewrite concretize_lookup, Hr. reflexivity.
Qed.

Lemma element_write_concretize m link r writer slab :
  records m !! link = Some r ->
  run_write writer (record_bytes r) = Some slab ->
  element_write (concretize m) link writer
  = Some (with_file (concretize m)
            (<[link := slab]> (record_bytes <$> records m))).
Proof.
  intros Hr Hrun. unfold element_write.
  rewrite concretize_lookup, Hr. cbn [fmap option_fmap option_map].
  rewrite Hrun. reflexivity.
Qed.

(** [spend] on well-formed records is [spend_model]. *)
Lemma spend_simulates m point h :
  model_valid m -> 0 <= point_index point ->
  spend (concretize m) point h
  = Some (fst (spend_model m point h),
          concretize (snd (spend_model m point h))) /\
  model_valid (snd (spend_model m point h)).
Proof.
  intros Hvalid Hindex. unfold spend, spend_model.
  destruct (is_null point); [split; [reflexivity | exact Hvalid]|].
  set (c1 := if negb (h =? not_spent) then remove (cached m) point
             else cached m).
  set (db1 := if negb (h =? not_spent)
              then with_cache (concretize m) (remove (cache_ (concretize m)) point)
              else concretize m).
  assert (Hdb1 : db1 = concretize (Model (records m) (entries m) c1)).
  { subst db1 c1. destruct (negb _), m; reflexivity. }
  rewrite Hdb1. clear db1 Hdb1.
  set (m1 := Model (records m) (entries m) c1).
  unfold find_hash. change (hash_table_ (concretize m1)) with (entries m).
  destruct (find_key (entries m) (point_hash point)) as [link|];
    [|split; [reflexivity | exact Hvalid]].
  rewrite find_link_concretize. change (records m1) with (records m).
  destruct (records m !! link) as [r|] eqn:Hr;
    [|split; [reflexivity | exact Hvalid]].
  pose proof (model_valid_lookup m link r Hvalid Hr) as Hrvalid.
  rewrite (element_read_concretize m1 link r) by exact Hr.
  rewrite (spend_reader_run r Hrvalid). cbn [mbind option_bind].
  destruct (negb (tx_state r =? state_byte confirmed) || (h <? tx_height r));
    [split; [reflexivity | exact Hvalid]|].
  destruct (Z.leb_spec (Z.of_nat (length (tx_outputs r))) (point_index point))
    as [|Hlt]; [split; [reflexivity | exact Hvalid]|].
  assert (Hi : (Z.to_nat (point_index point) < length (tx_outputs r))%nat)
    by lia.
  pose proof (spend_writer_record r _ h Hrvalid Hi) as Hrun.
  rewrite Z2Nat.id in Hrun by exact Hindex.
  rewrite (element_write_concretize m1 link r _ _ Hr Hrun).
  cbn [mbind option_bind fst snd]. split.
  - rewrite concretize_insert. reflexivity.
  - apply model_valid_insert; [exact Hvalid|].
    apply set_spender_height_valid; [exact Hrvalid | apply to_uint32_range].
Qed.

(** [update] on well-formed records is [update_model]. *)
Lemma update_simulates m link h mtp p s :
  model_valid m ->
  update (concretize m) link h mtp p s
  = Some (fst (update_model m link h mtp p s),
          concretize (snd (update_model m link h mtp p s))) /\
  model_valid (snd (update_model m link h mtp p s)).
Proof.
  intros Hvalid. unfold update, update_model.
  rewrite find_link_concretize.
  destruct (records m !! link) as [r|] eqn:Hr;
    [|split; [reflexivity | exact Hvalid]].
  rewrite (element_write_concretize m link r _ _ Hr
             (update_writer_record r h mtp p s)).
  cbn [mbind option_bind fst snd]. split.
  - rewrite concretize_insert. destruct m; reflexivity.
  - apply model_valid_insert; [exact Hvalid|].
    apply set_metadata_valid, (model_valid_lookup m link r Hvalid Hr).
Qed.

(** The loop over inpoints follows the loop of the model when each step
    does. *)
Lemma for_each_simulates
    (step : database C -> output_point -> option (bool * database C))
    (step_model : model C -> output_point -> bool * model C) points :
  (forall m point, model_valid m -> 0 <= point_index point ->
     step (concretize m) point
     = Some (fst (step_model m point), concretize (snd (step_model m point))) /\
     model_valid (snd (step_model m point))) ->
  Forall (fun point => 0 <= point_index point) points ->
  forall m, model_valid m ->
  for_each_inpoint step points (concretize m)
  = Some (fst (for_each_model step_model points m),
          concretize (snd (for_each_model step_model points m))) /\
  model_valid (snd (for_each_model step_model points m)).
Proof.
  intros Hstep Hpoints. induction Hpoints as [|point rest Hpoint _ IH];
    intros m Hvalid.
  - split; [reflexivity | exact Hvalid].
  - cbn [for_each_inpoint for_each_model].
    destruct (Hstep m point Hvalid Hpoint) as [-> Hvalid1].
    destruct (step_model m point) as [[] m1]; cbn [fst snd] in *.
    + apply IH, Hvalid1.
    + split; [reflexivity | exact Hvalid1].
Qed.

Lemma inpoint_index i : input_valid i -> 0 <= point_index (inpoint i).
Proof.
  intros (_ & Hindex & _). unfold inpoint. cbn [point_index].
  destruct (previous_index i =? max_uint16); [unfold null_index, max_uint32|];
    lia.
Qed.

Lemma inpoints_index r :
  record_valid r ->
  Forall (fun point => 0 <= point_index point) (List.map inpoint (tx_inputs r)).
Proof.
  intros (_ & _ & _ & _ & _ & _ & _ & Hins).
  rewrite Forall_map. eapply Forall_impl; [exact Hins|].
  intros i. apply inpoint_index.
Qed.

Lemma result_inpoints_concretize m link r :
  model_valid m -> records m !! link = Some r ->
  result_inpoints (concretize m) link = Some (List.map inpoint (tx_inputs r)).
Proof.
  intros Hvalid Hr. unfold result_inpoints.
  rewrite (element_read_concretize m link r) by exact Hr.
  apply read_inpoints_record, (model_valid_lookup m link r Hvalid Hr).
Qed.

(** [confirm] on well-formed records is [confirm_model]. *)
Lemma confirm_simulates m link h mtp p :
  model_valid m ->
  confirm (concretize m) link h mtp p
  = Some (fst (confirm_model m link h mtp p),
          concretize (snd (confirm_model m link h mtp p))) /\
  model_valid (snd (confirm_model m link h mtp p)).
Proof.
  intros Hvalid. unfold confirm, confirm_model, get.
  rewrite find_link_concretize.
  destruct (records m !! link) as [r|] eqn:Hr;
    [|split; [reflexivity | exact Hvalid]].
  rewrite (result_inpoints_concretize m link r Hvalid Hr).
  cbn [mbind option_bind].
  destruct (for_each_simulates (fun d p => spend d p h)
              (fun d p => spend_model d p h) (List.map inpoint (tx_inputs r))
              (fun m point => spend_simulates m point h)
              (inpoints_index r (model_valid_lookup m link r Hvalid Hr))
              m Hvalid) as [-> Hvalid1].
  cbn [mbind option_bind].
  destruct (for_each_model _ _ m) as [[] m1]; cbn [fst snd negb] in *.
  - apply update_simulates, Hvalid1.
  - split; [reflexivity | exact Hvalid1].
Qed.

(** [unconfirm] on well-formed records is [unconfirm_model]. *)
Lemma unconfirm_simulates m link :
  model_valid m ->
  unconfirm (concretize m) link
  = Some (fst (unconfirm_model m link),
          concretize (snd (unconfirm_model m link))) /\
  model_valid (snd (unconfirm_model m link)).
Proof.
  intros Hvalid. unfold unconfirm, unconfirm_model, get.
  rewrite find_link_concretize.
  destruct (records m !! link) as [r|] eqn:Hr;
    [|split; [reflexivity | exact Hvalid]].
  rewrite (result_inpoints_concretize m link r Hvalid Hr).
  cbn [mbind option_bind].
  destruct (for_each_simulates unspend
              (fun d p => spend_model d p not_spent)
              (List.map inpoint (tx_inputs r))
              (fun m point => spend_simulates m point not_spent)
              (inpoints_index r (model_valid_lookup m link r Hvalid Hr))
              m Hvalid) as [-> Hvalid1].
  cbn [mbind option_bind].
  destruct (for_each_model _ _ m) as [[] m1]; cbn [fst snd negb] in *.
  - apply update_simulates, Hvalid1.
  - split; [reflexivity | exact Hvalid1].
Qed.

End SimulationFacts.

(** ** The model: what spending and updating change *)

Section ModelFacts.
Import Serial TransactionDatabase RecordFormat.
Context {C : Type} `{!OutputCache C}.
Implicit Types (point : output_point) (m : model C) (r : tx_record).
Implicit Types (marked : list (Z * nat)).

Lemma length_mark_record marked v k r :
  length (tx_outputs (mark_record marked v k r)) = length (tx_outputs r).
Proof. unfold mark_record. cbn [tx_outputs with_outputs]. apply length_imap. Qed.

Lemma tx_state_mark_record marked v k r :
  tx_state (mark_record marked v k r) = tx_state r.
Proof. reflexivity. Qed.

Lemma tx_height_mark_record marked v k r :
  tx_height (mark_record marked v k r) = tx_height r.
Proof. reflexivity. Qed.

Lemma lookup_mark_record marked v k r j :
  tx_outputs (mark_record marked v k r) !! j
  = (fun o => if bool_decide ((k, j) ∈ marked) then mark_output v o else o)
      <$> tx_outputs r !! j.
Proof.
  unfold mark_record. cbn [tx_outputs with_outputs].
  apply list_lookup_imap.
Qed.

Lemma with_outputs_ext r outs outs' :
  (forall j : nat, outs !! j = outs' !! j) ->
  with_outputs r outs = with_outputs r outs'.
Proof. intros Heq. f_equal. apply list_eq, Heq. Qed.

Lemma mark_record_ext marked marked' v k r :
  (forall j, (k, j) ∈ marked <-> (k, j) ∈ marked') ->
  mark_record marked v k r = mark_record marked' v k r.
Proof.
  intros Heq. unfold mark_record. apply with_outputs_ext. intros j.
  rewrite !list_lookup_imap.
  destruct (tx_outputs r !! j); [|reflexivity]. cbn.
  rewrite (bool_decide_ext _ _ (Heq j)). reflexivity.
Qed.

Lemma with_outputs_same r : with_outputs r (tx_outputs r) = r.
Proof. destruct r; reflexivity. Qed.

Lemma with_outputs_twice r outs outs' :
  with_outputs (with_outputs r outs) outs' = with_outputs r outs'.
Proof. reflexivity. Qed.

Lemma tx_outputs_with_outputs r outs : tx_outputs (with_outputs r outs) = outs.
Proof. reflexivity. Qed.

Lemma mark_record_nil v k r : mark_record [] v k r = r.
Proof.
  unfold mark_record. rewrite <- (with_outputs_same r) at 3.
  apply with_outputs_ext. intros j. rewrite list_lookup_imap.
  destruct (tx_outputs r !! j); [|reflexivity]. cbn.
  rewrite bool_decide_eq_false_2; [reflexivity|]. apply not_elem_of_nil.
Qed.

(** Setting one more spender height is marking one more slot. *)
Lemma set_spender_height_mark marked v k i r :
  set_spender_height i v (mark_record marked v k r)
  = mark_record ((k, i) :: marked) v k r.
Proof.
  unfold set_spender_height, mark_record.
  rewrite tx_outputs_with_outputs, with_outputs_twice.
  apply with_outputs_ext. intros j.
  rewrite list_lookup_alter, !list_lookup_imap.
  case_decide as Hj.
  - subst j. destruct (tx_outputs r !! i); [|reflexivity]. cbn.
    rewrite (bool_decide_eq_true_2 ((k, i) ∈ (k, i) :: marked))
      by (apply elem_of_cons; left; reflexivity).
    destruct (bool_decide _); reflexivity.
  - destruct (tx_outputs r !! j); [|reflexivity]. cbn. f_equal.
    rewrite (bool_decide_ext ((k, j) ∈ (k, i) :: marked) ((k, j) ∈ marked));
      [reflexivity|].
    rewrite elem_of_cons. split; [|tauto].
    intros [[= ->]|]; [contradiction | assumption].
Qed.

Lemma mark_record_other marked v link i k r :
  k <> link ->
  mark_record ((link, i) :: marked) v k r = mark_record marked v k r.
Proof.
  intros Hk. apply mark_record_ext. intros j. rewrite elem_of_cons.
  split; [|tauto]. intros [[= -> _]|]; [contradiction | assumption].
Qed.

(** Three rounds of marking the same slots leave what the last round
    leaves. *)
Lemma mark_record_thrice marked v w k r :
  mark_record marked v k (mark_record marked w k (mark_record marked v k r))
  = mark_record marked v k r.
Proof.
  unfold mark_record.
  rewrite !tx_outputs_with_outputs, !with_outputs_twice.
  apply with_outputs_ext. intros j.
  rewrite !list_lookup_imap.
  destruct (tx_outputs r !! j); [|reflexivity]. cbn.
  destruct (bool_decide _); reflexivity.
Qed.

(** *** Pointwise changes *)

Lemma pointwise_refl m : pointwise (fun _ r => r) m m.
Proof.
  split; [reflexivity|]. intros link.
  destruct (records m !! link); reflexivity.
Qed.

Lemma pointwise_ext change change' m m' :
  (forall k r, change k r = change' k r) ->
  pointwise change m m' -> pointwise change' m m'.
Proof.
  intros Heq [Hentries Hrecords]. split; [exact Hentries|].
  intros link. rewrite Hrecords.
  destruct (records m !! link); cbn; [rewrite Heq|]; reflexivity.
Qed.

Lemma pointwise_trans change change' m m1 m2 :
  pointwise change m m1 -> pointwise change' m1 m2 ->
  pointwise (fun k r => change' k (change k r)) m m2.
Proof.
  intros [He1 Hr1] [He2 Hr2]. split; [congruence|].
  intros link. rewrite Hr2, Hr1.
  destruct (records m !! link); reflexivity.
Qed.

(** A change that keeps the number of outputs keeps the slot a point
    designates. *)
Lemma target_pointwise change m m' point :
  pointwise change m m' ->
  (forall k r, length (tx_outputs (change k r)) = length (tx_outputs r)) ->
  target m' point = target m point.
Proof.
  intros [Hentries Hrecords] Hlength. unfold target.
  destruct (is_null point); [reflexivity|]. rewrite Hentries.
  destruct (find_key (entries m) (point_hash point)) as [link|];
    [|reflexivity].
  rewrite Hrecords. destruct (records m !! link) as [r|]; [|reflexivity].
  cbn. rewrite Hlength. reflexivity.
Qed.

Lemma targets_pointwise change m m' points :
  pointwise change m m' ->
  (forall k r, length (tx_outputs (change k r)) = length (tx_outputs r)) ->
  targets m' points = targets m points.
Proof.
  intros Hpointwise Hlength. unfold targets.
  induction points as [|point rest IH]; [reflexivity|]. cbn.
  rewrite (target_pointwise change m m' point Hpointwise Hlength), IH.
  reflexivity.
Qed.

(** *** One spend *)

Lemma spend_model_cached m point h :
  cached (snd (spend_model m point h)) = spend_cache h [point] (cached m).
Proof.
  unfold spend_model, spend_cache, remove_points. cbn [foldl].
  destruct (is_null point); [destruct (negb _); reflexivity|].
  destruct (find_key _ _); [|reflexivity].
  destruct (records m !! _); [|reflexivity].
  destruct (_ || _); [reflexivity|]. destruct (_ <=? _); reflexivity.
Qed.

(** A spend that succeeds names a slot. *)
Lemma spend_model_target m point h :
  fst (spend_model m point h) = true ->
  is_null point = true \/
  exists link r,
    find_key (entries m) (point_hash point) = Some link /\
    records m !! link = Some r /\
    tx_state r = state_byte confirmed /\
    tx_height r <= h /\
    point_index point < Z.of_nat (length (tx_outputs r)) /\
    target m point = Some (link, Z.to_nat (point_index point)).
Proof.
  unfold spend_model, target.
  destruct (is_null point); [left; reflexivity|]. right.
  destruct (find_key _ _) as [link|]; [|discriminate].
  destruct (records m !! link) as [r|] eqn:Hr; [|discriminate].
  destruct (Z.eqb_spec (tx_state r) (state_byte confirmed)); [|discriminate].
  destruct (Z.ltb_spec h (tx_height r)); [discriminate|].
  cbn [negb orb] in *.
  destruct (Z.leb_spec (Z.of_nat (length (tx_outputs r))) (point_index point));
    [discriminate|].
  exists link, r. repeat split; try assumption; try reflexivity; lia.
Qed.

(** In a state that differs from [m] by marks of the same value, a spend
    succeeds when it does in [m], and then marks one more slot. *)
Lemma spend_model_pointwise m m_now marked h point :
  pointwise (mark_record marked (to_uint32 h)) m m_now ->
  fst (spend_model m_now point h) = fst (spend_model m point h) /\
  (fst (spend_model m point h) = true ->
   pointwise (mark_record (option_list (target m point) ++ marked)
                (to_uint32 h))
     m (snd (spend_model m_now point h))).
Proof.
  intros [Hentries Hrecords]. unfold spend_model, target.
  destruct (is_null point).
  { split; [reflexivity|]. intros _. cbn [snd option_list app].
    split; assumption. }
  rewrite Hentries.
  destruct (find_key (entries m) (point_hash point)) as [link|];
    [|split; [reflexivity | discriminate]].
  rewrite Hrecords.
  destruct (records m !! link) as [r|] eqn:Hr;
    [|split; [reflexivity | discriminate]].
  cbn [fmap option_fmap option_map].
  rewrite tx_state_mark_record, tx_height_mark_record, length_mark_record.
  destruct (negb (tx_state r =? state_byte confirmed) || (h <? tx_height r));
    [split; [reflexivity | discriminate]|].
  destruct (Z.of_nat (length (tx_outputs r)) <=? point_index point);
    [split; [reflexivity | discriminate]|].
  split; [reflexivity|]. intros _. cbn [snd option_list app].
  split; [reflexivity|]. intros k. cbn [records].
  rewrite set_spender_height_mark.
  destruct (decide (k = link)) as [->|Hk].
  - rewrite lookup_insert_eq, Hr. reflexivity.
  - rewrite lookup_insert_ne by congruence. rewrite Hrecords.
    destruct (records m !! k); [|reflexivity]. cbn.
    rewrite mark_record_other by exact Hk. reflexivity.
Qed.

(** *** The loop of spends *)

Lemma spend_cache_cons h point rest (c : C) :
  spend_cache h (point :: rest) c
  = spend_cache h rest (spend_cache h [point] c).
Proof. unfold spend_cache. destruct (negb _); reflexivity. Qed.

Lemma for_each_spend_pointwise m h points :
  forall m_now marked,
  pointwise (mark_record marked (to_uint32 h)) m m_now ->
  let run := for_each_model (fun d p => spend_model d p h) points m_now in
  fst run = forallb (fun p => fst (spend_model m p h)) points /\
  (fst run = true ->
   pointwise (mark_record (targets m points ++ marked) (to_uint32 h))
     m (snd run) /\
   cached (snd run) = spend_cache h points (cached m_now)).
Proof.
  induction points as [|point rest IH]; intros m_now marked Hnow.
  - cbn. split; [reflexivity|]. intros _. split; [exact Hnow|].
    unfold spend_cache. destruct (negb _); reflexivity.
  - cbn [for_each_model forallb].
    destruct (spend_model_pointwise m m_now marked h point Hnow)
      as [Hfst Hnext].
    pose proof (spend_model_cached m_now point h) as Hcache.
    destruct (spend_model m_now point h) as [ok m1]. cbn [fst snd] in *.
    rewrite <- Hfst. destruct ok; cbn [andb]; [|split; [reflexivity|discriminate]].
    specialize (Hnext (eq_sym Hfst)).
    destruct (IH m1 _ Hnext) as [Hrun Heffect].
    split; [exact Hrun|]. intros Htrue.
    destruct (Heffect Htrue) as [Hpointwise Hcached]. split.
    + eapply pointwise_ext; [|exact Hpointwise].
      intros k r. apply mark_record_ext. intros j.
      unfold targets. cbn [omap list_omap].
      destruct (target m point) as [t|]; simpl; [|tauto].
      rewrite ?elem_of_app, ?elem_of_cons, ?elem_of_app. tauto.
    + rewrite Hcached, Hcache. symmetry. apply spend_cache_cons.
Qed.

(** *** The update *)

Lemma update_model_pointwise m link height mtp p s r :
  records m !! link = Some r ->
  fst (update_model m link height mtp p s) = true /\
  pointwise (fun k r => if decide (k = link)
                        then set_metadata (to_uint32 height) (to_uint16 p)
                               (state_byte s) (to_uint32 mtp) r
                        else r)
    m (snd (update_model m link height mtp p s)) /\
  cached (snd (update_model m link height mtp p s)) = cached m.
Proof.
  intros Hr. unfold update_model. rewrite Hr. cbn [fst snd].
  split; [reflexivity|]. split; [|reflexivity].
  split; [reflexivity|]. intros k. cbn [records].
  destruct (decide (k = link)) as [->|Hk].
  - rewrite lookup_insert_eq, Hr. reflexivity.
  - rewrite lookup_insert_ne by congruence.
    destruct (records m !! k); reflexivity.
Qed.

End ModelFacts.

(** ** The model: confirm, unconfirm and confirm again *)

Section RoundTripFacts.
Import Serial TransactionDatabase RecordFormat.
Context {C : Type} `{!OutputCache C}.
Implicit Types (point : output_point) (m : model C) (r : tx_record).
Implicit Types (marked : list (Z * nat)).

Lemma pointwise_mark_nil m v : pointwise (mark_record [] v) m m.
Proof.
  eapply pointwise_ext; [|apply pointwise_refl].
  intros k r. symmetry. apply mark_record_nil.
Qed.

(** What the spends of the inpoints followed by the update do, for
    [confirm_model] and [unconfirm_model] alike. *)
Lemma spend_update_char m link r hs height mtp p s :
  records m !! link = Some r ->
  let points := List.map inpoint (tx_inputs r) in
  let run :=
    (let (ok, m1) :=
       for_each_model (fun d pt => spend_model d pt hs) points m in
     if ok then update_model m1 link height mtp p s else (false, m1)) in
  fst run = forallb (fun pt => fst (spend_model m pt hs)) points /\
  (fst run = true ->
   pointwise (confirm_change (targets m points) (to_uint32 hs) link
                (to_uint32 height) (to_uint16 p) (state_byte s)
                (to_uint32 mtp))
     m (snd run) /\
   cached (snd run) = spend_cache hs points (cached m)).
Proof.
  intros Hr points run. subst run.
  destruct (for_each_spend_pointwise m hs points m []
              (pointwise_mark_nil m _)) as [Hfst Heffect].
  cbv zeta in Hfst, Heffect.
  destruct (for_each_model _ points m) as [ok m1]. cbn [fst snd] in *.
  rewrite <- Hfst. destruct ok; [|split; [reflexivity | discriminate]].
  destruct (Heffect eq_refl) as [Hpointwise Hcached].
  rewrite app_nil_r in Hpointwise.
  assert (Hr1 : records m1 !! link
                = Some (mark_record (targets m points) (to_uint32 hs) link r)).
  { destruct Hpointwise as [_ Hrecords]. rewrite Hrecords, Hr. reflexivity. }
  destruct (update_model_pointwise m1 link height mtp p s _ Hr1)
    as (Hok & Hupdate & Hcached1).
  split; [exact Hok|]. intros _. split; [|congruence].
  eapply pointwise_ext; [|exact (pointwise_trans _ _ _ _ _ Hpointwise Hupdate)].
  intros k r'. unfold confirm_change. reflexivity.
Qed.

Lemma confirm_model_char m link r h mtp p :
  records m !! link = Some r ->
  let points := List.map inpoint (tx_inputs r) in
  let run := confirm_model m link h mtp p in
  fst run = forallb (fun pt => fst (spend_model m pt h)) points /\
  (fst run = true ->
   pointwise (confirm_change (targets m points) (to_uint32 h) link
                (to_uint32 h) (to_uint16 p) (state_byte confirmed)
                (to_uint32 mtp))
     m (snd run) /\
   cached (snd run) = spend_cache h points (cached m)).
Proof.
  intros Hr. unfold confirm_model. rewrite Hr.
  apply (spend_update_char m link r h h mtp p confirmed Hr).
Qed.

Lemma unconfirm_model_char m link r :
  records m !! link = Some r ->
  let points := List.map inpoint (tx_inputs r) in
  let run := unconfirm_model m link in
  fst run = forallb (fun pt => fst (spend_model m pt not_spent)) points /\
  (fst run = true ->
   pointwise (confirm_change (targets m points) (to_uint32 not_spent) link
                (to_uint32 unverified) (to_uint16 unconfirmed)
                (state_byte pooled) (to_uint32 no_time))
     m (snd run) /\
   cached (snd run) = spend_cache not_spent points (cached m)).
Proof.
  intros Hr. unfold unconfirm_model. rewrite Hr.
  apply (spend_update_char m link r not_spent unverified no_time unconfirmed
           pooled Hr).
Qed.

(** *** What [confirm_change] keeps *)

Lemma confirm_change_length marked v link a b c d k r :
  length (tx_outputs (confirm_change marked v link a b c d k r))
  = length (tx_outputs r).
Proof.
  unfold confirm_change. destruct (decide (k = link));
    [change (tx_outputs (set_metadata a b c d ?x)) with (tx_outputs x)|];
    apply length_mark_record.
Qed.

Lemma confirm_change_inputs marked v link a b c d k r :
  tx_inputs (confirm_change marked v link a b c d k r) = tx_inputs r.
Proof. unfold confirm_change. destruct (decide (k = link)); reflexivity. Qed.

Lemma confirm_change_other marked v link a b c d k r :
  k <> link ->
  tx_state (confirm_change marked v link a b c d k r) = tx_state r /\
  tx_height (confirm_change marked v link a b c d k r) = tx_height r.
Proof.
  intros Hk. unfold confirm_change. rewrite decide_False by exact Hk.
  split; reflexivity.
Qed.

Lemma confirm_change_outputs marked v link a b c d k r :
  tx_outputs (confirm_change marked v link a b c d k r)
  = tx_outputs (mark_record marked v k r).
Proof. unfold confirm_change. destruct (decide (k = link)); reflexivity. Qed.

Lemma confirm_change_thrice marked v w link a b c d a' b' c' d' k r :
  confirm_change marked v link a b c d k
    (confirm_change marked w link a' b' c' d' k
       (confirm_change marked v link a b c d k r))
  = confirm_change marked v link a b c d k r.
Proof.
  unfold confirm_change. destruct (decide (k = link)).
  - change (mark_record marked v k
              (set_metadata a' b' c' d'
                 (mark_record marked w k
                    (set_metadata a b c d (mark_record marked v k r)))))
      with (set_metadata a' b' c' d'
              (mark_record marked v k
                 (mark_record marked w k (mark_record marked v k r)))).
    rewrite mark_record_thrice. reflexivity.
  - apply mark_record_thrice.
Qed.

(** *** The cache *)

Lemma remove_points_cons point rest (c : C) :
  remove_points (point :: rest) c
  = remove_points rest (if is_null point then c else remove c point).
Proof. reflexivity. Qed.

Lemma remove_points_remove rest point (c : C) :
  remove_points rest (remove c point) = remove (remove_points rest c) point.
Proof.
  revert c. induction rest as [|q rest IH]; intros c; [reflexivity|].
  rewrite !remove_points_cons. destruct (is_null q); [apply IH|].
  rewrite remove_commute. apply IH.
Qed.

Lemma remove_points_idempotent points (c : C) :
  remove_points points (remove_points points c) = remove_points points c.
Proof.
  revert c. induction points as [|point rest IH]; intros c; [reflexivity|].
  rewrite !remove_points_cons. destruct (is_null point); [apply IH|].
  rewrite (remove_points_remove rest point
             (remove_points rest (remove c point))).
  rewrite IH, (remove_points_remove rest point c).
  apply remove_idempotent.
Qed.

Lemma spend_cache_idempotent h points (c : C) :
  spend_cache h points (spend_cache h points c) = spend_cache h points c.
Proof.
  unfold spend_cache. destruct (negb _); [|reflexivity].
  apply remove_points_idempotent.
Qed.

Lemma spend_cache_not_spent points (c : C) :
  spend_cache not_spent points c = c.
Proof. reflexivity. Qed.

(** *** A spend that succeeded succeeds again *)

Lemma spend_model_transfer change m m' link point h h' :
  pointwise change m m' ->
  (forall k r, length (tx_outputs (change k r)) = length (tx_outputs r)) ->
  (forall k r, k <> link ->
     tx_state (change k r) = tx_state r /\
     tx_height (change k r) = tx_height r) ->
  (is_null point = false ->
   find_key (entries m) (point_hash point) <> Some link) ->
  h <= h' ->
  fst (spend_model m point h) = true ->
  fst (spend_model m' point h') = true.
Proof.
  intros [Hentries Hrecords] Hlength Hother Hself Hle Hspend.
  apply spend_model_target in Hspend.
  unfold spend_model.
  destruct (is_null point) eqn:Hnull; [reflexivity|].
  destruct Hspend as [|(l & r & Hfind & Hr & Hstate & Hheight & Hindex & _)];
    [discriminate|].
  rewrite Hentries, Hfind, Hrecords, Hr. cbn [fmap option_fmap option_map].
  assert (Hl : l <> link) by (intros ->; exact (Hself eq_refl Hfind)).
  destruct (Hother l r Hl) as [-> ->]. rewrite Hlength.
  destruct (Z.eqb_spec (tx_state r) (state_byte confirmed)); [|contradiction].
  destruct (Z.ltb_spec h' (tx_height r)); [lia|]. cbn [negb orb].
  destruct (Z.leb_spec (Z.of_nat (length (tx_outputs r))) (point_index point));
    [lia|]. reflexivity.
Qed.

Lemma model_eq m m' :
  records m = records m' -> entries m = entries m' -> cached m = cached m' ->
  m = m'.
Proof. destruct m, m'. cbn. intros -> -> ->. reflexivity. Qed.

(** After a [confirm_model] that succeeds, for a transaction none of whose
    inputs names the transaction itself, [unconfirm_model] succeeds and
    the same [confirm_model] then succeeds and gives the state of the
    first. *)
Lemma confirm_unconfirm_confirm_model m0 link r h mtp p m1 :
  records m0 !! link = Some r ->
  (forall point, In point (List.map inpoint (tx_inputs r)) ->
     is_null point = false ->
     find_key (entries m0) (point_hash point) <> Some link) ->
  h <= max_uint32 ->
  confirm_model m0 link h mtp p = (true, m1) ->
  exists m2,
    unconfirm_model m1 link = (true, m2) /\
    confirm_model m2 link h mtp p = (true, m1).
Proof.
  intros Hr Hself Hh Hconfirm.
  set (points := List.map inpoint (tx_inputs r)) in *.
  destruct (confirm_model_char m0 link r h mtp p Hr) as [Hfst1 Heffect1].
  cbv zeta in Hfst1, Heffect1. fold points in Hfst1, Heffect1.
  rewrite Hconfirm in Hfst1, Heffect1. cbn [fst snd] in Hfst1, Heffect1.
  destruct (Heffect1 eq_refl) as [Hchange1 Hcached1]. clear Heffect1.
  symmetry in Hfst1. rewrite forallb_forall in Hfst1.
  set (T := targets m0 points) in *.
  set (change1 := confirm_change T (to_uint32 h) link (to_uint32 h)
                    (to_uint16 p) (state_byte confirmed) (to_uint32 mtp)) in *.
  assert (Hr1 : records m1 !! link = Some (change1 link r)).
  { destruct Hchange1 as [_ Hrecords]. rewrite Hrecords, Hr. reflexivity. }
  (* unconfirm *)
  destruct (unconfirm_model_char m1 link _ Hr1) as [Hfst2 Heffect2].
  cbv zeta in Hfst2, Heffect2. unfold change1 in Hfst2, Heffect2.
  rewrite confirm_change_inputs in Hfst2, Heffect2.
  fold points change1 in Hfst2, Heffect2.
  rewrite (targets_pointwise change1 m0 m1 points Hchange1) in Heffect2
    by (intros; apply confirm_change_length).
  fold T in Heffect2.
  assert (Hall2 : forallb (fun pt => fst (spend_model m1 pt not_spent)) points
                  = true).
  { apply forallb_forall. intros point Hpoint.
    apply (spend_model_transfer change1 m0 m1 link point h not_spent Hchange1).
    - intros; apply confirm_change_length.
    - intros; apply confirm_change_other; assumption.
    - apply Hself, Hpoint.
    - exact Hh.
    - apply Hfst1, Hpoint. }
  rewrite Hall2 in Hfst2.
  destruct (unconfirm_model m1 link) as [ok2 m2]. cbn [fst snd] in *.
  subst ok2. exists m2. split; [reflexivity|].
  destruct (Heffect2 eq_refl) as [Hchange2 Hcached2]. clear Heffect2.
  set (change2 := confirm_change T (to_uint32 not_spent) link
                    (to_uint32 unverified) (to_uint16 unconfirmed)
                    (state_byte pooled) (to_uint32 no_time)) in *.
  pose proof (pointwise_trans _ _ _ _ _ Hchange1 Hchange2) as Hchange12.
  assert (Hr2 : records m2 !! link = Some (change2 link (change1 link r))).
  { destruct Hchange2 as [_ Hrecords]. rewrite Hrecords, Hr1. reflexivity. }
  (* confirm again *)
  destruct (confirm_model_char m2 link _ h mtp p Hr2) as [Hfst3 Heffect3].
  cbv zeta in Hfst3, Heffect3. unfold change2, change1 in Hfst3, Heffect3.
  rewrite !confirm_change_inputs in Hfst3, Heffect3.
  fold points change1 change2 in Hfst3, Heffect3.
  rewrite (targets_pointwise _ m0 m2 points Hchange12) in Heffect3
    by (intros; unfold change2, change1; rewrite !confirm_change_length;
        reflexivity).
  fold T change1 in Heffect3.
  assert (Hall3 : forallb (fun pt => fst (spend_model m2 pt h)) points = true).
  { apply forallb_forall. intros point Hpoint.
    apply (spend_model_transfer _ m0 m2 link point h h Hchange12).
    - intros; unfold change2, change1; rewrite !confirm_change_length;
        reflexivity.
    - intros k r' Hk. unfold change2.
      destruct (confirm_change_other T (to_uint32 not_spent) link
                  (to_uint32 unverified) (to_uint16 unconfirmed)
                  (state_byte pooled) (to_uint32 no_time) k (change1 k r') Hk)
        as [-> ->].
      apply confirm_change_other, Hk.
    - apply Hself, Hpoint.
    - lia.
    - apply Hfst1, Hpoint. }
  rewrite Hall3 in Hfst3.
  destruct (confirm_model m2 link h mtp p) as [ok3 m3]. cbn [fst snd] in *.
  subst ok3. f_equal.
  destruct (Heffect3 eq_refl) as [Hchange3 Hcached3]. clear Heffect3.
  apply model_eq.
  - apply map_eq. intros k.
    destruct Hchange1 as [_ H1], Hchange2 as [_ H2], Hchange3 as [_ H3].
    rewrite H3, H2, H1. destruct (records m0 !! k) as [r0|]; [|reflexivity].
    cbn [fmap option_fmap option_map]. f_equal.
    apply confirm_change_thrice.
  - destruct Hchange2 as [E2 _], Hchange3 as [E3 _]. congruence.
  - rewrite Hcached3, Hcached2, spend_cache_not_spent, Hcached1.
    apply spend_cache_idempotent.
Qed.

(** After an [unconfirm_model] that succeeds, the previous output of each
    input that is not null has the spender height [not_spent]. *)
Lemma unconfirm_model_unspends m link r m' :
  records m !! link = Some r ->
  record_valid r ->
  unconfirm_model m link = (true, m') ->
  forall point, In point (List.map inpoint (tx_inputs r)) ->
    is_null point = false ->
    exists l r' o,
      find_key (entries m') (point_hash point) = Some l /\
      records m' !! l = Some r' /\
      tx_outputs r' !! Z.to_nat (point_index point) = Some o /\
      spender_height o = not_spent.
Proof.
  intros Hr Hvalid Hunconfirm point Hpoint Hnull.
  assert (Hnonneg : 0 <= point_index point).
  { pose proof (inpoints_index r Hvalid) as Hall.
    rewrite List.Forall_forall in Hall. apply Hall, Hpoint. }
  destruct (unconfirm_model_char m link r Hr) as [Hfst Heffect].
  cbv zeta in Hfst, Heffect. rewrite Hunconfirm in Hfst, Heffect.
  cbn [fst snd] in Hfst, Heffect.
  destruct (Heffect eq_refl) as [[Hentries Hrecords] _].
  symmetry in Hfst. rewrite forallb_forall in Hfst.
  destruct (spend_model_target m point not_spent (Hfst point Hpoint))
    as [Hcontra|(l & r0 & Hfind & Hr0 & _ & _ & Hindex & Htarget)];
    [congruence|].
  destruct (lookup_lt_is_Some_2 (tx_outputs r0) (Z.to_nat (point_index point)))
    as [o Ho]; [lia|].
  eexists l, _, _. split; [rewrite Hentries; exact Hfind|].
  split; [rewrite Hrecords, Hr0; reflexivity|].
  rewrite confirm_change_outputs, lookup_mark_record, Ho.
  cbn [fmap option_fmap option_map]. split; [reflexivity|].
  rewrite bool_decide_eq_true_2; [reflexivity|].
  unfold targets. apply list_elem_of_omap. exists point.
  split; [apply list_elem_of_In, Hpoint | exact Htarget].
Qed.

End RoundTripFacts.

(** ** Confirming and unconfirming on well-formed records *)

Section ConfirmFacts.
Import Serial TransactionDatabase RecordFormat.
Context {C : Type} `{!OutputCache C}.
Implicit Types (db : database C) (point : output_point) (m : model C).

Lemma observationally_equal_refl db : observationally_equal db db.
Proof. repeat split; reflexivity. Qed.

(** What [get] reports after an [update] that answers true. *)
Lemma update_then_get db link h mtp p s db' :
  0 <= h <= max_uint32 ->
  0 <= p <= max_uint16 ->
  0 <= mtp <= max_uint32 ->
  update db link h mtp p s = Some (true, db') ->
  exists result,
    get db' link = Some result /\
    result_state db' result = Some (state_byte s) /\
    result_position db' result = Some p /\
    result_height db' result = Some h /\
    result_median_time_past db' result = Some mtp.
Proof.
  intros Hh Hp Hm Hupdate.
  apply update_true in Hupdate as (slab & Hslab & ->).
  exists link.
  unfold get, find_link, result_state, result_height,
    result_median_time_past, result_position, element_read, with_file.
  cbn [hash_table_file_]. rewrite lookup_insert_eq.
  pose proof (state_byte_range s) as Hs.
  rewrite read_state_metadata, read_height_metadata,
    read_median_time_past_metadata, read_position_metadata by assumption.
  repeat split; reflexivity.
Qed.

Lemma unconfirm_true db link db' :
  unconfirm db link = Some (true, db') ->
  exists db1,
    update db1 link unverified no_time unconfirmed pooled = Some (true, db').
Proof.
  unfold unconfirm. destruct (get db link); [|discriminate].
  destruct (result_inpoints db _); cbn [mbind option_bind]; [|discriminate].
  destruct (for_each_inpoint _ _ _) as [[[] db1]|];
    cbn [mbind option_bind negb]; try discriminate.
  eauto.
Qed.

Lemma confirm_model_found m link h mtp p :
  fst (confirm_model m link h mtp p) = true ->
  exists r, records m !! link = Some r.
Proof.
  unfold confirm_model. destruct (records m !! link); [eauto | discriminate].
Qed.

Lemma unconfirm_model_found m link :
  fst (unconfirm_model m link) = true ->
  exists r, records m !! link = Some r.
Proof.
  unfold unconfirm_model. destruct (records m !! link); [eauto | discriminate].
Qed.

Lemma get_hash_concretize m hash link r :
  find_key (entries m) hash = Some link ->
  records m !! link = Some r ->
  get_hash (concretize m) hash = Some link.
Proof.
  intros Hfind Hr. unfold get_hash, find_hash.
  change (hash_table_ (concretize m)) with (entries m).
  rewrite Hfind, find_link_concretize, Hr. reflexivity.
Qed.

Lemma result_output_concretize m link r index :
  model_valid m -> records m !! link = Some r -> 0 <= index ->
  result_output (concretize m) link index
  = Some (tx_outputs r !! Z.to_nat index).
Proof.
  intros Hvalid Hr Hindex. unfold result_output.
  rewrite (element_read_concretize m link r) by exact Hr.
  apply read_output_record;
    [exact (model_valid_lookup m link r Hvalid Hr) | exact Hindex].
Qed.

(** C2. On well-formed records, after an [unconfirm] that answers true,
    [get] at the same offset reports the state pooled, the position
    [unconfirmed], the height [unverified] and the median time past zero,
    and the previous output of every input that is not null has the
    spender height [not_spent]. *)
Theorem unconfirm_reverts db link db' :
  database_wf db ->
  unconfirm db link = Some (true, db') ->
  (exists result,
     get db' link = Some result /\
     result_state db' result = Some (state_byte pooled) /\
     result_position db' result = Some unconfirmed /\
     result_height db' result = Some unverified /\
     result_median_time_past db' result = Some no_time) /\
  (exists points,
     result_inpoints db link = Some points /\
     forall point, In point points -> is_null point = false ->
       exists previous o,
         get_hash db' (point_hash point) = Some previous /\
         result_output db' previous (point_index point) = Some (Some o) /\
         spender_height o = not_spent).
Proof.
  intros (m & Hvalid & ->) Hunconfirm. split.
  - apply unconfirm_true in Hunconfirm as (db1 & Hupdate).
    apply (update_then_get db1 link unverified no_time unconfirmed pooled db');
      [unfold unverified, max_uint32; lia
      |unfold unconfirmed, max_uint16; lia
      |unfold no_time, max_uint32; lia
      |exact Hupdate].
  - destruct (unconfirm_simulates m link Hvalid) as [Hsim Hvalid'].
    rewrite Hsim in Hunconfirm. injection Hunconfirm as Hok <-.
    destruct (unconfirm_model_found m link Hok) as [r Hr].
    exists (List.map inpoint (tx_inputs r)).
    split; [exact (result_inpoints_concretize m link r Hvalid Hr)|].
    intros point Hpoint Hnull.
    destruct (unconfirm_model m link) as [ok m'] eqn:Hmodel.
    cbn [fst snd] in *. subst ok.
    pose proof (model_valid_lookup m link r Hvalid Hr) as Hrvalid.
    destruct (unconfirm_model_unspends m link r m' Hr Hrvalid Hmodel
                point Hpoint Hnull) as (l & r' & o & Hfind & Hr' & Ho & Hns).
    exists l, o. split; [exact (get_hash_concretize m' _ l r' Hfind Hr')|].
    split; [|exact Hns].
    rewrite (result_output_concretize m' l r') by
      (try assumption;
       pose proof (inpoints_index r Hrvalid) as Hall;
       rewrite List.Forall_forall in Hall; apply Hall, Hpoint).
    rewrite Ho. reflexivity.
Qed.

(** C6. On well-formed records, for a transaction none of whose inputs
    names the transaction itself: after a [confirm] that answers true, the
    [unconfirm] and the same [confirm] again both answer true and leave a
    database that answers every query as the database after the first
    [confirm] does. *)
Theorem confirm_unconfirm_confirm db link h mtp p points db1 :
  database_wf db ->
  h <= max_uint32 ->
  result_inpoints db link = Some points ->
  (forall point, In point points -> is_null point = false ->
     find_key (hash_table_ db) (point_hash point) <> Some link) ->
  confirm db link h mtp p = Some (true, db1) ->
  exists db2 db3,
    unconfirm db1 link = Some (true, db2) /\
    confirm db2 link h mtp p = Some (true, db3) /\
    observationally_equal db3 db1.
Proof.
  intros (m0 & Hvalid0 & ->) Hh Hpoints Hself Hconfirm.
  destruct (confirm_simulates m0 link h mtp p Hvalid0) as [Hsim1 Hvalid1].
  rewrite Hsim1 in Hconfirm. injection Hconfirm as Hok1 <-.
  destruct (confirm_model_found m0 link h mtp p Hok1) as [r Hr].
  rewrite (result_inpoints_concretize m0 link r Hvalid0 Hr) in Hpoints.
  injection Hpoints as <-.
  destruct (confirm_model m0 link h mtp p) as [ok1 m1] eqn:Hmodel1.
  cbn [fst snd] in *. subst ok1.
  destruct (confirm_unconfirm_confirm_model m0 link r h mtp p m1 Hr Hself Hh
              Hmodel1) as (m2 & Hmodel2 & Hmodel3).
  destruct (unconfirm_simulates m1 link Hvalid1) as [Hsim2 Hvalid2].
  rewrite Hmodel2 in Hsim2, Hvalid2. cbn [fst snd] in Hsim2, Hvalid2.
  destruct (confirm_simulates m2 link h mtp p Hvalid2) as [Hsim3 _].
  rewrite Hmodel3 in Hsim3. cbn [fst snd] in Hsim3.
  exists (concretize m2), (concretize m1).
  split; [exact Hsim2|]. split; [exact Hsim3|].
  apply observationally_equal_refl.
Qed.

End ConfirmFacts.

(** ** The cache never resolves a point

    Nothing adds to the cache: a database whose cache resolves no point
    keeps such a cache through [spend], [update], [confirm] and
    [unconfirm], so that the queries go on to look the transaction up. *)

Section CacheFacts.
Import Serial TransactionDatabase.
Context {C : Type} `{!OutputCache C}.
Implicit Types (db : database C) (point : output_point).

Lemma element_write_cache db element writer db' :
  element_write db element writer = Some db' -> cache_ db' = cache_ db.
Proof.
  unfold element_write. destruct (hash_table_file_ db !! element); [|discriminate].
  destruct (run_write writer _); [|discriminate]. intros [= <-]. reflexivity.
Qed.

Lemma spend_cache_misses db point h ok db' :
  spend db point h = Some (ok, db') -> cache_misses db -> cache_misses db'.
Proof.
  unfold spend. destruct (is_null point); [intros [= _ <-]; trivial|].
  set (db1 := if negb (h =? not_spent)
              then with_cache db (remove (cache_ db) point) else db).
  intros Hspend Hmiss.
  assert (Hmiss1 : cache_misses db1).
  { subst db1. destruct (negb _); [|exact Hmiss].
    intros p f. apply remove_miss, Hmiss. }
  destruct (find_hash db1 _) as [element|]; [|injection Hspend as _ <-; exact Hmiss1].
  destruct (element_read db1 element spend_reader) as [[[height state] outputs]|];
    cbn [mbind option_bind] in Hspend; [|discriminate].
  destruct (_ || _); [injection Hspend as _ <-; exact Hmiss1|].
  destruct (_ <=? _); [injection Hspend as _ <-; exact Hmiss1|].
  destruct (element_write db1 element _) as [db2|] eqn:Hwrite;
    cbn [mbind option_bind] in Hspend; [|discriminate].
  injection Hspend as _ <-. intros p f.
  rewrite (element_write_cache _ _ _ _ Hwrite). apply Hmiss1.
Qed.

Lemma update_cache_misses db link h mtp p s ok db' :
  update db link h mtp p s = Some (ok, db') ->
  cache_misses db -> cache_misses db'.
Proof.
  unfold update. destruct (find_link db link); [|intros [= _ <-]; trivial].
  destruct (element_write db _ _) as [db1|] eqn:Hwrite;
    cbn [mbind option_bind]; [|discriminate].
  intros [= _ <-] Hmiss point f.
  rewrite (element_write_cache _ _ _ _ Hwrite). apply Hmiss.
Qed.

Lemma for_each_cache_misses
    (step : database C -> output_point -> option (bool * database C)) points :
  (forall db point ok db',
     step db point = Some (ok, db') -> cache_misses db -> cache_misses db') ->
  forall db ok db',
  for_each_inpoint step points db = Some (ok, db') ->
  cache_misses db -> cache_misses db'.
Proof.
  intros Hstep. induction points as [|point rest IH]; intros db ok db'.
  - intros [= _ <-]. trivial.
  - cbn [for_each_inpoint].
    destruct (step db point) as [[[] db1]|] eqn:Hone; [| |discriminate].
    + intros Hrest Hmiss. eapply IH; [exact Hrest|]. eapply Hstep; eassumption.
    + intros [= _ <-] Hmiss. eapply Hstep; eassumption.
Qed.

Lemma confirm_cache_misses db link h mtp p ok db' :
  confirm db link h mtp p = Some (ok, db') ->
  cache_misses db -> cache_misses db'.
Proof.
  unfold confirm. destruct (get db link); [|intros [= _ <-]; trivial].
  destruct (result_inpoints db _) as [points|]; cbn [mbind option_bind];
    [|discriminate].
  destruct (for_each_inpoint _ points db) as [[spent_all db1]|] eqn:Hloop;
    cbn [mbind option_bind]; [|discriminate].
  intros Hend Hmiss.
  assert (Hmiss1 : cache_misses db1).
  { eapply for_each_cache_misses; [|exact Hloop|exact Hmiss].
    intros d pt o d'. apply spend_cache_misses. }
  destruct spent_all; cbn [negb] in Hend.
  - eapply update_cache_misses; eassumption.
  - injection Hend as _ <-. exact Hmiss1.
Qed.

Lemma unconfirm_cache_misses db link ok db' :
  unconfirm db link = Some (ok, db') ->
  cache_misses db -> cache_misses db'.
Proof.
  unfold unconfirm. destruct (get db link); [|intros [= _ <-]; trivial].
  destruct (result_inpoints db _) as [points|]; cbn [mbind option_bind];
    [|discriminate].
  destruct (for_each_inpoint _ points db) as [[unspent db1]|] eqn:Hloop;
    cbn [mbind option_bind]; [|discriminate].
  intros Hend Hmiss.
  assert (Hmiss1 : cache_misses db1).
  { eapply for_each_cache_misses; [|exact Hloop|exact Hmiss].
    intros d pt o d'. apply spend_cache_misses. }
  destruct unspent; cbn [negb] in Hend.
  - eapply update_cache_misses; eassumption.
  - injection Hend as _ <-. exact Hmiss1.
Qed.

End CacheFacts.

(** ** Storing a transaction *)

Section StoreFacts.
Import Serial TransactionDatabase RecordFormat.
Local Open Scope serial_scope.
Context {C : Type} `{!OutputCache C}.
Implicit Types (db : database C).

(** The writer of [store] fills the new slab with the metadata and the
    transaction. *)
Lemma store_writer_run body h m p s :
  run_write (store_writer body h m p s)
    (repeat 0 (metadata_size + length body))
  = Some (metadata_bytes h p (state_byte s) m ++ body).
Proof.
  change metadata_size with (4 + (2 + (1 + 4)))%nat.
  rewrite <- !Nat.add_assoc, !repeat_app.
  unfold run_write. change (Cursor ?l 0) with (at_cursor [] l).
  unfold store_writer, write_4_bytes_little_endian,
    write_2_bytes_little_endian, write_byte.
  erewrite bind_some
    by (apply write_bytes_at; rewrite repeat_length, length_le_bytes;
        reflexivity).
  erewrite bind_some
    by (apply write_bytes_at; rewrite repeat_length, length_le_bytes;
        reflexivity).
  erewrite bind_some
    by (apply write_bytes_at; rewrite repeat_length, length_le_bytes;
        reflexivity).
  erewrite bind_some
    by (apply write_bytes_at; rewrite repeat_length, length_le_bytes;
        reflexivity).
  rewrite <- (app_nil_r (repeat 0 (length body))).
  rewrite write_bytes_at by apply repeat_length.
  unfold at_cursor, metadata_bytes. cbn [buffer].
  rewrite app_nil_r, <- !app_assoc. reflexivity.
Qed.

Lemma store_true db link hash body h m p s :
  store db link hash body h m p s
  = Some (true,
          Database (<[link := metadata_bytes h p (state_byte s) m ++ body]>
                      (hash_table_file_ db))
            ((hash, link) :: hash_table_ db) (cache_ db)).
Proof. unfold store. rewrite store_writer_run. reflexivity. Qed.


End StoreFacts.

(** ** Well-formed records stay well-formed *)

Section InvariantFacts.
Import Serial TransactionDatabase RecordFormat.
Context {C : Type} `{!OutputCache C}.
Implicit Types (db : database C) (point : output_point) (m : model C).

Lemma spend_preserves_wf db point h ok db' :
  database_wf db -> 0 <= point_index point ->
  spend db point h = Some (ok, db') -> database_wf db'.
Proof.
  intros (m & Hvalid & ->) Hindex Hspend.
  destruct (spend_simulates m point h Hvalid Hindex) as [Hsim Hvalid'].
  rewrite Hsim in Hspend. injection Hspend as _ <-.
  exists (snd (spend_model m point h)). split; [exact Hvalid' | reflexivity].
Qed.

Lemma confirm_preserves_wf db link h mtp p ok db' :
  database_wf db ->
  confirm db link h mtp p = Some (ok, db') -> database_wf db'.
Proof.
  intros (m & Hvalid & ->) Hconfirm.
  destruct (confirm_simulates m link h mtp p Hvalid) as [Hsim Hvalid'].
  rewrite Hsim in Hconfirm. injection Hconfirm as _ <-.
  exists (snd (confirm_model m link h mtp p)).
  split; [exact Hvalid' | reflexivity].
Qed.

Lemma unconfirm_preserves_wf db link ok db' :
  database_wf db ->
  unconfirm db link = Some (ok, db') -> database_wf db'.
Proof.
  intros (m & Hvalid & ->) Hunconfirm.
  destruct (unconfirm_simulates m link Hvalid) as [Hsim Hvalid'].
  rewrite Hsim in Hunconfirm. injection Hunconfirm as _ <-.
  exists (snd (unconfirm_model m link)).
  split; [exact Hvalid' | reflexivity].
Qed.


Lemma unconfirm_total db link :
  database_wf db -> exists ok db', unconfirm db link = Some (ok, db').
Proof.
  intros (m & Hvalid & ->).
  destruct (unconfirm_simulates m link Hvalid) as [Hsim _]. eauto.
Qed.

Lemma spend_model_inputs m point h link :
  tx_inputs <$> records (snd (spend_model m point h)) !! link
  = tx_inputs <$> records m !! link.
Proof.
  unfold spend_model. destruct (is_null point); [reflexivity|].
  destruct (find_key _ _) as [l|]; [|reflexivity].
  destruct (records m !! l) as [r|] eqn:Hr; [|reflexivity].
  destruct (_ || _); [reflexivity|]. destruct (_ <=? _); [reflexivity|].
  cbn [snd records]. destruct (decide (link = l)) as [->|Hne].
  - rewrite lookup_insert_eq, Hr. reflexivity.
  - rewrite lookup_insert_ne by congruence. reflexivity.
Qed.

(** The body of a record is written once: a spend leaves the inpoints of
    every record as they were, so the loops of [confirm] and [unconfirm]
    meet the same inpoints whether they read them before or between the
    spends. *)
Lemma spend_keeps_inpoints db point h ok db' link :
  database_wf db -> 0 <= point_index point ->
  spend db point h = Some (ok, db') ->
  result_inpoints db' link = result_inpoints db link.
Proof.
  intros (m & Hvalid & ->) Hindex Hspend.
  destruct (spend_simulates m point h Hvalid Hindex) as [Hsim Hvalid'].
  rewrite Hsim in Hspend. injection Hspend as _ <-.
  pose proof (spend_model_inputs m point h link) as Hinputs.
  destruct (records (snd (spend_model m point h)) !! link) as [r'|] eqn:Hr';
    destruct (records m !! link) as [r|] eqn:Hr; try discriminate.
  - rewrite (result_inpoints_concretize _ link r' Hvalid' Hr').
    rewrite (result_inpoints_concretize m link r Hvalid Hr).
    injection Hinputs as ->. reflexivity.
  - unfold result_inpoints, element_read.
    rewrite !concretize_lookup, Hr', Hr. reflexivity.
Qed.

End InvariantFacts.

(** ** The properties on the small database *)

Section ExampleFacts.
Import Serial TransactionDatabase RecordFormat Examples.

Ltac record_is_valid :=
  unfold record_valid; repeat split;
  repeat first [apply Forall_nil_2 | apply Forall_cons_2];
  unfold output_valid, input_valid; repeat split;
  try reflexivity; vm_compute; congruence.

Lemma tx_a_valid : record_valid tx_a.
Proof. record_is_valid. Qed.

Lemma tx_b_valid : record_valid tx_b.
Proof. record_is_valid. Qed.

Lemma model0_valid : model_valid model0.
Proof.
  unfold model_valid, model0. cbn [records].
  apply map_Forall_insert_2; [exact tx_a_valid|].
  apply map_Forall_insert_2; [exact tx_b_valid|]. apply map_Forall_empty.
Qed.

Lemma model1_valid : model_valid model1.
Proof.
  unfold model_valid, model1. cbn [records].
  apply map_Forall_insert_2; [record_is_valid|].
  apply map_Forall_insert_2; [record_is_valid|]. apply map_Forall_empty.
Qed.

(** The small database is what storing [tx_a] and pooling [tx_b] leave. *)
Lemma db_pooled_is_db0 : db_pooled = db0.
Proof. vm_compute. reflexivity. Qed.

(** The round trip of section 8: [tx_b] pooled with forks 7 is observed
    pooled at position [0xFFFF] with median time past 0; confirmed at
    height 100, median time past 1600000000, position 3, it is observed
    confirmed; unconfirmed, it is observed pooled again. *)
Lemma pool_confirm_unconfirm_round_trip :
  (result_state db_pooled link_b, result_position db_pooled link_b,
   result_median_time_past db_pooled link_b)
  = (Some (state_byte pooled), Some 65535, Some 0) /\
  confirm db_pooled link_b 100 1600000000 3 = Some (true, db1) /\
  (result_state db1 link_b, result_height db1 link_b,
   result_position db1 link_b)
  = (Some (state_byte confirmed), Some 100, Some 3) /\
  unconfirm db1 link_b = Some (true, db2) /\
  (result_state db2 link_b, result_position db2 link_b,
   result_median_time_past db2 link_b)
  = (Some (state_byte pooled), Some 65535, Some 0).
Proof. repeat split; vm_compute; reflexivity. Qed.

(** The double spend of section 8: after [tx_b] is confirmed at height 100
    spending the second output of [tx_a], that output is seen spent at fork
    height 100 and not at fork height 99. *)
Lemma spent_at_fork_height :
  (prevout_spent <$> (snd <$> get_output db1 point_a1 100)) = Some true /\
  (prevout_spent <$> (snd <$> get_output db1 point_a1 99)) = Some false.
Proof. split; vm_compute; reflexivity. Qed.

Lemma db0_wf : database_wf db0.
Proof. exists model0. split; [exact model0_valid | reflexivity]. Qed.

Lemma db1_wf : database_wf db1.
Proof.
  exists model1. split; [exact model1_valid | vm_compute; reflexivity].
Qed.

Lemma confirm_then_get_witness :
  exists result,
    get db1 link_b = Some result /\
    result_state db1 result = Some (state_byte confirmed) /\
    result_height db1 result = Some 100 /\
    result_median_time_past db1 result = Some 1600000000 /\
    result_position db1 result = Some 3.
Proof.
  apply (confirm_then_get db0 link_b 100 1600000000 3 db1).
  - unfold max_uint32. lia.
  - unfold max_uint16. lia.
  - unfold max_uint32. lia.
  - vm_compute. reflexivity.
Defined.

Lemma unconfirm_reverts_witness :
  (exists result,
     get db2 link_b = Some result /\
     result_state db2 result = Some (state_byte pooled) /\
     result_position db2 result = Some unconfirmed /\
     result_height db2 result = Some unverified /\
     result_median_time_past db2 result = Some no_time) /\
  (exists points,
     result_inpoints db1 link_b = Some points /\
     forall point, In point points -> is_null point = false ->
       exists previous o,
         get_hash db2 (point_hash point) = Some previous /\
         result_output db2 previous (point_index point) = Some (Some o) /\
         spender_height o = not_spent).
Proof.
  apply (unconfirm_reverts db1 link_b db2).
  - exact db1_wf.
  - vm_compute. reflexivity.
Defined.

Lemma get_output_confirmation_witness :
  get_output db1 point_b0 99
  = Some (false, reset_prevout (point_metadata point_b0)) /\
  exists prevout,
    get_output db1 point_b0 100 = Some (true, prevout) /\
    prevout_confirmed prevout = true /\
    prevout_height prevout = 100.
Proof.
  split.
  - apply (get_output_confirmation db1 point_b0 99 link_b 100
             (state_byte confirmed));
      try (vm_compute; reflexivity); try (vm_compute; congruence).
  - destruct (get_output_confirmation db1 point_b0 100 link_b 100
                (state_byte confirmed)) as (_ & _ & Hanswers);
      try (vm_compute; reflexivity).
    apply (Hanswers (or_intror eq_refl) (Output 0 not_spent 70 [4]) 3
             1600000000); vm_compute; reflexivity.
Defined.

Lemma spend_rejects_witness :
  exists db',
    spend db0 point_b0 100 = Some (false, db') /\
    hash_table_file_ db' = hash_table_file_ db0 /\
    hash_table_file_ db' !! link_b = Some (record_bytes tx_b).
Proof.
  apply (spend_rejects db0 point_b0 100 link_b (record_bytes tx_b)
           7 (state_byte pooled) 1).
  - vm_compute. reflexivity.
  - vm_compute. reflexivity.
  - vm_compute. reflexivity.
  - vm_compute. reflexivity.
  - left. vm_compute. discriminate.
Defined.

Lemma get_output_genesis_witness :
  get_output db_genesis point_genesis 10
  = Some (false, reset_prevout (point_metadata point_genesis)).
Proof.
  apply (get_output_genesis db_genesis point_genesis 10 0).
  - vm_compute. reflexivity.
  - reflexivity.
  - vm_compute. reflexivity.
  - vm_compute. reflexivity.
Defined.

Lemma get_output_null_witness :
  exists prevout,
    get_output db0 null_point 3 = Some (false, prevout) /\
    prevout_height prevout = 0 /\
    prevout_median_time_past prevout = 0 /\
    prevout_spent prevout = false /\
    prevout_cache prevout = prevout_cache (point_metadata null_point) /\
    prevout_coinbase prevout = prevout_coinbase (point_metadata null_point) /\
    prevout_confirmed prevout = prevout_confirmed (point_metadata null_point).
Proof.
  apply (get_output_null db0 null_point 3). vm_compute. reflexivity.
Defined.

(** C9, as stated, fails: for a null point whose metadata the caller did
    not default, the cache, coinbase and confirmed fields are not
    zeroed. *)
Lemma get_output_null_counterexample :
  get_output db0 null_point 3
  = Some (false,
          Validation (Some (Output 0 not_spent 50 [1; 2; 3])) true true 0 0
            false) /\
  Validation (Some (Output 0 not_spent 50 [1; 2; 3])) true true 0 0 false
  <> default_validation.
Proof. split; [vm_compute; reflexivity | discriminate]. Qed.

Lemma spend_writes_slot_witness :
  exists o,
    tx_outputs tx_a !! 1%nat = Some o /\
    hash_table_file_ (after (spend db0 point_a1 100) db0) !! link_a
    = Some (record_bytes (set_spender_height 1 100 tx_a)).
Proof.
  destruct (spend_writes_slot db0 point_a1 100 link_a tx_a
              (after (spend db0 point_a1 100) db0))
    as (o & Ho & _ & _ & Hfile & Hbytes & _).
  - vm_compute. reflexivity.
  - vm_compute. discriminate.
  - vm_compute. reflexivity.
  - vm_compute. reflexivity.
  - exact tx_a_valid.
  - vm_compute. reflexivity.
  - exists o. split; [exact Ho|].
    rewrite Hfile, lookup_insert_eq, Hbytes. reflexivity.
Defined.

Lemma confirm_unconfirm_confirm_witness :
  exists db2 db3,
    unconfirm db1 link_b = Some (true, db2) /\
    confirm db2 link_b 100 1600000000 3 = Some (true, db3) /\
    observationally_equal db3 db1.
Proof.
  apply (confirm_unconfirm_confirm db0 link_b 100 1600000000 3 points_b db1).
  - exact db0_wf.
  - unfold max_uint32. lia.
  - vm_compute. reflexivity.
  - intros point [<-|[<-|[]]] Hnull; vm_compute; [discriminate|].
    vm_compute in Hnull. discriminate.
  - vm_compute. reflexivity.
Defined.

End ExampleFacts.

(** * Further properties *)

(** ** The mapped file: capacity, failure, construction and shutdown *)

Section LifecycleFacts.
Import MemoryMap MemoryMapLifecycle MoreExamples.

Lemma expansion_covers size expansion :
  0 <= size -> EXPANSION_DENOMINATOR <= expansion ->
  size * expansion <= max_size_t ->
  size <= wrap_size_t (size * expansion) / EXPANSION_DENOMINATOR.
Proof.
  unfold EXPANSION_DENOMINATOR. intros Hsize Hexp Hfit.
  rewrite wrap_size_t_small by nia.
  apply Z.div_le_lower_bound; nia.
Qed.

Lemma reserve_expansion_bounds mm os size expansion m m' :
  0 <= size -> EXPANSION_DENOMINATOR <= expansion ->
  size * expansion <= max_size_t ->
  reserve_expansion mm os size expansion m = Returned m' ->
  logical_size_ m' <= file_size_ m' /\ file_size_ m <= file_size_ m'.
Proof.
  intros Hsize Hexp Hfit. unfold reserve_expansion.
  pose proof (expansion_covers size expansion Hsize Hexp Hfit) as Hcover.
  destruct (Z.ltb_spec (file_size_ m) size) as [Hlt|Hge].
  - destruct (truncate _ _ _ _) as [[] m1] eqn:Htr; simpl; [|discriminate].
    intros [= <-]. simpl. apply truncate_file_size in Htr. lia.
  - intros [= <-]. simpl. lia.
Qed.

Lemma truncate_stopped mm os size m b m1 :
  truncate mm os size m = (b, m1) -> stopped_ m1 = stopped_ m.
Proof.
  unfold truncate, remap, map, unmap, validate.
  destruct mm, (munmap_ok os), (ftruncate_ok os), (mmap_ok os),
    (size =? 0); simpl; intros [= <- <-]; reflexivity.
Qed.

Lemma reserve_expansion_stopped mm os size expansion m m' :
  reserve_expansion mm os size expansion m = Returned m' ->
  stopped_ m' = stopped_ m.
Proof.
  unfold reserve_expansion.
  destruct (file_size_ m <? size); [|intros [= <-]; reflexivity].
  destruct (truncate _ _ _ _) as [[] m1] eqn:Htr; simpl; [|discriminate].
  intros [= <-]. simpl. eapply truncate_stopped, Htr.
Qed.

(** X1. When [reserve] or [resize] returns for a size whose product with
    the expansion fits [size_t], the logical size it has set does not exceed
    the file size, whatever the two were before the call. *)
Theorem reserve_logical_within_file mm os size m :
  0 <= size ->
  (forall m', size * 150 <= max_size_t ->
     reserve mm os size m = Returned m' ->
     logical_size_ m' <= file_size_ m') /\
  (forall m', size * 100 <= max_size_t ->
     resize mm os size m = Returned m' ->
     logical_size_ m' <= file_size_ m').
Proof.
  intros Hsize. split; intros m' Hfit Hr.
  - eapply (reserve_expansion_bounds mm os size EXPANSION_NUMERATOR); eauto;
      unfold EXPANSION_NUMERATOR, EXPANSION_DENOMINATOR; lia.
  - eapply (reserve_expansion_bounds mm os size EXPANSION_DENOMINATOR); eauto;
      unfold EXPANSION_DENOMINATOR; lia.
Qed.

Lemma reserve_logical_within_file_witness :
  logical_size_ (MemoryMapState false true 180 120)
  <= file_size_ (MemoryMapState false true 180 120).
Proof.
  destruct (reserve_logical_within_file false os_all_ok 120 opened)
    as [Hreserve _].
  - lia.
  - apply Hreserve; [unfold max_size_t; lia | reflexivity].
Defined.

(** X2. [reserve] and [resize] never shrink the mapped file: when they
    return, and the product of the size and the expansion fits [size_t], the
    file size is at least what it was, also when the logical size goes
    down. *)
Theorem reserve_never_shrinks_file mm os size m :
  0 <= size ->
  (forall m', size * 150 <= max_size_t ->
     reserve mm os size m = Returned m' ->
     file_size_ m <= file_size_ m') /\
  (forall m', size * 100 <= max_size_t ->
     resize mm os size m = Returned m' ->
     file_size_ m <= file_size_ m').
Proof.
  intros Hsize. split; intros m' Hfit Hr.
  - eapply (reserve_expansion_bounds mm os size EXPANSION_NUMERATOR); eauto;
      unfold EXPANSION_NUMERATOR, EXPANSION_DENOMINATOR; lia.
  - eapply (reserve_expansion_bounds mm os size EXPANSION_DENOMINATOR); eauto;
      unfold EXPANSION_DENOMINATOR; lia.
Qed.

Lemma reserve_never_shrinks_file_witness :
  file_size_ opened <= file_size_ (MemoryMapState false true 100 40).
Proof.
  destruct (reserve_never_shrinks_file true os_all_ok 40 opened)
    as [_ Hresize].
  - lia.
  - apply Hresize; [unfold max_size_t; lia | reflexivity].
Defined.

(** X3. [reserve] throws only when it has to grow the file: the size is
    above the file size, and a system call failed or the new size came out
    as zero. The logical size and the stopped flag are as before; the
    members are untouched (an [ftruncate] that failed before any remapping)
    or the file is left unmapped with a file size of zero. *)
Theorem reserve_throws_only_growing mm os size m m' :
  reserve mm os size m = Thrown m' ->
  file_size_ m < size /\
  logical_size_ m' = logical_size_ m /\
  stopped_ m' = stopped_ m /\
  (m' = m \/ (file_size_ m' = 0 /\ data_ m' = false)) /\
  (munmap_ok os = false \/ ftruncate_ok os = false \/ mmap_ok os = false \/
   wrap_size_t (size * EXPANSION_NUMERATOR) / EXPANSION_DENOMINATOR = 0).
Proof.
  unfold reserve, reserve_expansion.
  destruct (Z.ltb_spec (file_size_ m) size) as [Hlt|]; [|discriminate].
  destruct (truncate _ _ _ _) as [[] m1] eqn:Htr; simpl; [discriminate|].
  intros [= <-]. split; [exact Hlt|].
  revert Htr. unfold truncate, remap, map, unmap, validate.
  destruct mm, (munmap_ok os), (ftruncate_ok os), (mmap_ok os); simpl;
    try destruct
      (Z.eqb_spec
         (wrap_size_t (size * EXPANSION_NUMERATOR) / EXPANSION_DENOMINATOR) 0)
      as [Hz|Hz]; simpl;
    intros Htr; try discriminate Htr;
    injection Htr as <-; simpl; repeat split; auto.
Qed.

Lemma reserve_throws_only_growing_witness :
  file_size_ opened < 120 /\
  logical_size_ (MemoryMapState false false 0 100) = logical_size_ opened.
Proof.
  destruct (reserve_throws_only_growing false (OsAnswers true false true) 120
              opened (MemoryMapState false false 0 100))
    as (Hlt & Hlogical & _).
  - reflexivity.
  - split; [exact Hlt | exact Hlogical].
Defined.

(** X4. A map that is not stopped after construction holds a mapping, and
    its file size and logical size are both the size of the file as [fstat]
    gave it, which is not zero; the file was opened. A failed [madvise]
    does not stop it. This holds with and without assertions. *)
Theorem construct_running assertions os m log :
  construct assertions os = Some (m, log) -> stopped_ m = false ->
  data_ m = true /\
  0 < file_size_ m /\
  logical_size_ m = file_size_ m /\
  open_handle os <> -1 /\
  (exists st_size, fstat_size os = Some st_size /\
                   file_size_ m = wrap_size_t st_size) /\
  log = (if madvise_ok os then None else Some failed_advise).
Proof.
  unfold construct, file_size, map, validate.
  destruct (Z.eqb_spec (open_handle os) (-1)) as [Hh|Hh]; simpl.
  { intros [= <- <-]. simpl. discriminate. }
  destruct (fstat_size os) as [st_size|]; simpl.
  2: { intros [= <- <-]. simpl. discriminate. }
  destruct (assertions && negb (0 <? st_size)); simpl; [discriminate|].
  destruct (Z.eqb_spec (wrap_size_t st_size) 0) as [Hz|Hz]; simpl.
  { intros [= <- <-]. simpl. discriminate. }
  destruct (open_mmap_ok os); simpl; intros [= <- <-]; simpl;
    [|discriminate].
  intros _. repeat split; auto.
  - unfold wrap_size_t in *.
    pose proof (Z.mod_pos_bound st_size 18446744073709551616). lia.
  - eauto.
  - destruct (madvise_ok os); reflexivity.
Qed.

Lemma construct_running_witness :
  data_ opened = true /\ logical_size_ opened = file_size_ opened.
Proof.
  destruct (construct_running true (OpenAnswers 3 (Some 100) true false)
              opened (Some failed_advise)) as (Hdata & _ & Hlogical & _).
  - reflexivity.
  - reflexivity.
  - split; [exact Hdata | exact Hlogical].
Defined.

(** X5. A file that cannot be opened, a failed [fstat], and a failed
    [mmap] of a file whose size is above zero each give, with and without
    assertions, a map that is stopped, holds no mapping, has a file size of
    zero and has logged the failure to map. Without assertions the same
    holds of an empty file and of any failed [mmap]; with assertions a file
    that was opened and whose size is not above zero aborts the
    construction. *)
Theorem construct_failure assertions os :
  (open_handle os = -1 \/ fstat_size os = None \/
   (open_mmap_ok os = false /\
    exists st_size, fstat_size os = Some st_size /\ 0 < st_size) \/
   (assertions = false /\
    (fstat_size os = Some 0 \/ open_mmap_ok os = false)) ->
   exists m,
     construct assertions os = Some (m, Some failed_map) /\
     stopped_ m = true /\ data_ m = false /\ file_size_ m = 0) /\
  (assertions = true -> open_handle os <> -1 ->
   forall st_size, fstat_size os = Some st_size -> st_size <= 0 ->
     construct assertions os = None).
Proof.
  unfold construct, file_size, map, validate. split.
  - intros Hfail.
    destruct (Z.eqb_spec (open_handle os) (-1)) as [Hh|Hh]; simpl.
    { eexists. repeat split. }
    destruct (fstat_size os) as [st_size|] eqn:Hstat; simpl.
    2: { eexists. repeat split. }
    assert (Hkept : assertions && negb (0 <? st_size) = false).
    { destruct Hfail as [Hfail|[Hfail|[(_ & s & Hs & Hpos)|[Hoff _]]]].
      - contradiction.
      - discriminate Hfail.
      - injection Hs as <-. destruct (Z.ltb_spec 0 st_size); [|lia].
        apply andb_false_r.
      - rewrite Hoff. reflexivity. }
    rewrite Hkept. simpl.
    destruct (Z.eqb_spec (wrap_size_t st_size) 0) as [Hz|Hz]; simpl.
    { eexists. split; [reflexivity|]. simpl. auto. }
    destruct (open_mmap_ok os) eqn:Hmmap; simpl.
    2: { eexists. repeat split. }
    exfalso.
    destruct Hfail as [Hfail|[Hfail|[(Hfail & _)|(_ & [Hfail|Hfail])]]];
      try congruence.
    injection Hfail as ->. apply Hz. reflexivity.
  - intros -> Hh st_size -> Hle.
    destruct (Z.eqb_spec (open_handle os) (-1)); [contradiction|].
    destruct (Z.ltb_spec 0 st_size); [lia|]. reflexivity.
Qed.

Lemma construct_failure_witness :
  (exists m,
     construct true (OpenAnswers 3 (Some 100) false true)
     = Some (m, Some failed_map) /\
     stopped_ m = true /\ data_ m = false /\ file_size_ m = 0) /\
  construct true (OpenAnswers 3 (Some 0) true true) = None.
Proof.
  split.
  - apply (construct_failure true (OpenAnswers 3 (Some 100) false true)).
    right. right. left. split; [reflexivity|].
    exists 100. split; [reflexivity | lia].
  - destruct (construct_failure true (OpenAnswers 3 (Some 0) true true))
      as [_ Habort].
    apply (Habort eq_refl) with (st_size := 0);
      [simpl; lia | reflexivity | lia].
Defined.

Lemma stop_members os m ok m1 calls log :
  stop os m = (ok, m1, calls, log) ->
  stopped_ m1 = true /\ data_ m1 = data_ m /\
  file_size_ m1 = file_size_ m /\ logical_size_ m1 = logical_size_ m.
Proof.
  unfold stop. destruct (stopped_ m) eqn:Hs.
  - intros [= <- <- <- <-]. auto.
  - destruct (msync_ok os), (stop_munmap_ok os), (stop_ftruncate_ok os),
      (fsync_ok os), (close_ok os); simpl; intros [= <- <- <- <-]; auto.
Qed.

(** X6. [stop] runs once: whatever the first call answered, the map is
    stopped afterwards, and every later call answers true without making a
    system call, so a shutdown that failed part-way is not tried again.
    [stop] changes no member but the stopped flag: the data pointer and
    the file size stay as they were. *)
Theorem stop_runs_once os os' m ok m1 calls log :
  stop os m = (ok, m1, calls, log) ->
  stop os' m1 = (true, m1, [], None) /\
  stopped_ m1 = true /\ data_ m1 = data_ m /\
  file_size_ m1 = file_size_ m /\ logical_size_ m1 = logical_size_ m.
Proof.
  intros Hstop. destruct (stop_members _ _ _ _ _ _ Hstop) as (Hs & Hrest).
  split; [|auto]. unfold stop. rewrite Hs. reflexivity.
Qed.

Lemma stop_runs_once_witness :
  stop stop_all_ok (MemoryMapState true true 100 100)
  = (true, MemoryMapState true true 100 100, [], None).
Proof.
  destruct (stop_runs_once (StopAnswers true false true true true) stop_all_ok
              opened false (MemoryMapState true true 100 100)
              [Msync 100; Munmap 100] (Some failed_munmap)) as [Hagain _].
  - reflexivity.
  - exact Hagain.
Defined.

(** X7. The headroom [reserve] added to the file is cut off at shutdown:
    after a [reserve] or [resize] of [size] has returned, [stop] truncates
    the file to [size] and to nothing else, and does so only after [msync]
    of [size] bytes and [munmap] have succeeded. A [stop] of a running map
    that answers true has made the five calls in order. *)
Theorem reserve_then_stop mm os size expansion m m1 os' ok m2 calls log :
  reserve_expansion mm os size expansion m = Returned m1 ->
  stop os' m1 = (ok, m2, calls, log) ->
  (forall n, In (Ftruncate n) calls ->
     n = size /\ msync_ok os' = true /\ stop_munmap_ok os' = true /\
     exists rest,
       calls = Msync size :: Munmap (file_size_ m1) :: Ftruncate size :: rest) /\
  (stopped_ m = false -> ok = true ->
   calls = [Msync size; Munmap (file_size_ m1); Ftruncate size; Fsync; Close]).
Proof.
  intros Hr Hstop.
  pose proof (reserve_expansion_logical_size _ _ _ _ _ _ Hr) as Hlogical.
  pose proof (reserve_expansion_stopped _ _ _ _ _ _ Hr) as Hstopped.
  revert Hstop. unfold stop. rewrite Hlogical, Hstopped.
  destruct (stopped_ m).
  - intros [= <- <- <- <-]. split; [intros n []|discriminate].
  - destruct (msync_ok os'), (stop_munmap_ok os'), (stop_ftruncate_ok os'),
      (fsync_ok os'), (close_ok os'); simpl; intros [= <- <- <- <-];
      (split; [|intros _ Hok; first [reflexivity | discriminate Hok]]);
      intros n Hin; simpl in Hin;
      repeat (destruct Hin as [Hin|Hin]; try discriminate Hin);
      try contradiction;
      injection Hin as <-; repeat split; eauto.
Qed.

Lemma reserve_then_stop_witness :
  [Msync 120; Munmap 180; Ftruncate 120; Fsync; Close]
  = [Msync 120; Munmap (file_size_ (MemoryMapState false true 180 120));
     Ftruncate 120; Fsync; Close].
Proof.
  destruct (reserve_then_stop true os_all_ok 120 EXPANSION_NUMERATOR opened
              (MemoryMapState false true 180 120) stop_all_ok true
              (MemoryMapState true true 180 120)
              [Msync 120; Munmap 180; Ftruncate 120; Fsync; Close] None)
    as [_ Hclean].
  - reflexivity.
  - reflexivity.
  - apply Hclean; reflexivity.
Defined.

End LifecycleFacts.

(** ** What the spends leave alone *)

Section FrameFacts.
Import Serial TransactionDatabase RecordFormat Frame.
Local Open Scope serial_scope.
Context {C : Type} `{!OutputCache C}.
Implicit Types (db : database C) (point : output_point).

Lemma skip_cursor n c u c' :
  skip n c = Some (u, c') ->
  buffer c' = buffer c /\ offset c' = (offset c + n)%nat.
Proof. unfold skip. intros [= _ <-]. auto. Qed.

Lemma read_bytes_cursor n c bs c' :
  read_bytes n c = Some (bs, c') ->
  buffer c' = buffer c /\ offset c' = (offset c + n)%nat.
Proof.
  unfold read_bytes. case_decide; [|discriminate]. intros [= _ <-]. auto.
Qed.

Lemma read_le_cursor n c v c' :
  (bs <- read_bytes n ;; ret (le_value bs)) c = Some (v, c') ->
  buffer c' = buffer c /\ offset c' = (offset c + n)%nat.
Proof.
  intros Hrun. apply bind_inv in Hrun as (bs & c1 & Hread & Hret).
  injection Hret as _ <-. eapply read_bytes_cursor, Hread.
Qed.

Lemma read_size_cursor c v c' :
  read_size_little_endian c = Some (v, c') ->
  buffer c' = buffer c /\ (offset c < offset c')%nat.
Proof.
  unfold read_size_little_endian. intros Hrun.
  apply bind_inv in Hrun as (b & c1 & Hbyte & Hrest).
  apply read_le_cursor in Hbyte as [Hb1 Ho1].
  destruct (b =? varint_eight_bytes);
    [|destruct (b =? varint_four_bytes);
      [|destruct (b =? varint_two_bytes)]].
  - apply read_le_cursor in Hrest as [Hb2 Ho2]. split; [congruence | lia].
  - apply read_le_cursor in Hrest as [Hb2 Ho2]. split; [congruence | lia].
  - apply read_le_cursor in Hrest as [Hb2 Ho2]. split; [congruence | lia].
  - injection Hrest as _ <-. split; [congruence | lia].
Qed.

Lemma skip_outputs_cursor n c u c' :
  skip_outputs n c = Some (u, c') ->
  buffer c' = buffer c /\ (offset c <= offset c')%nat.
Proof.
  revert c. induction n as [|n IH]; intros c; cbn [skip_outputs].
  - intros [= _ <-]. auto.
  - intros Hrun.
    apply bind_inv in Hrun as (u1 & c1 & H1 & Hrun).
    apply bind_inv in Hrun as (size & c2 & H2 & Hrun).
    apply bind_inv in Hrun as (u3 & c3 & H3 & Hrun).
    apply skip_cursor in H1 as [B1 O1].
    apply read_size_cursor in H2 as [B2 O2].
    apply skip_cursor in H3 as [B3 O3].
    apply IH in Hrun as [B4 O4]. split; [congruence | lia].
Qed.

(** The writer of [spend] changes four bytes, and they lie behind the
    metadata and the first byte of the output count. *)
Lemma spend_writer_window index h slab slab' :
  run_write (spend_writer index h) slab = Some slab' ->
  exists o,
    (metadata_size + 2 <= o)%nat /\ (o + 4 <= length slab)%nat /\
    slab' = take o slab ++ le_bytes 4 h ++ drop (o + 4) slab.
Proof.
  unfold run_write.
  destruct (spend_writer index h (Cursor slab 0)) as [[u c]|] eqn:Hrun;
    [|discriminate].
  intros [= <-]. unfold spend_writer in Hrun.
  apply bind_inv in Hrun as (u1 & c1 & H1 & Hrun).
  apply bind_inv in Hrun as (n & c2 & H2 & Hrun).
  apply bind_inv in Hrun as (u3 & c3 & H3 & Hrun).
  apply bind_inv in Hrun as (u4 & c4 & H4 & Hrun).
  apply skip_cursor in H1 as [B1 O1].
  apply read_size_cursor in H2 as [B2 O2].
  apply skip_outputs_cursor in H3 as [B3 O3].
  apply skip_cursor in H4 as [B4 O4].
  assert (Hbuf : buffer c4 = slab) by (simpl in B1; congruence).
  simpl in O1. unfold index_spend_size in O4.
  exists (offset c4). split; [lia|].
  unfold write_4_bytes_little_endian, write_bytes in Hrun.
  rewrite length_le_bytes, Hbuf in Hrun.
  case_decide as Hfit; [|discriminate].
  injection Hrun as _ <-. cbn [buffer]. split; [exact Hfit | reflexivity].
Qed.

Lemma window_length (o : nat) (bs slab : list Z) :
  (o + length bs <= length slab)%nat ->
  length (take o slab ++ bs ++ drop (o + length bs) slab) = length slab.
Proof. intros Hfit. rewrite !length_app, length_take, length_drop. lia. Qed.

Lemma window_prefix (k o : nat) (bs slab : list Z) :
  (k <= o)%nat -> (o <= length slab)%nat ->
  take k (take o slab ++ bs ++ drop (o + length bs) slab) = take k slab.
Proof.
  intros Hk Ho. rewrite take_app_le by (rewrite length_take; lia).
  rewrite take_take. f_equal. lia.
Qed.

Lemma spend_writer_keeps index h slab slab' :
  run_write (spend_writer index h) slab = Some slab' ->
  length slab' = length slab /\
  take metadata_size slab' = take metadata_size slab.
Proof.
  intros Hrun. apply spend_writer_window in Hrun as (o & Hlow & Hfit & ->).
  rewrite <- (length_le_bytes 4 h) in Hfit at 1.
  split.
  - rewrite <- (length_le_bytes 4 h) at 1. apply window_length, Hfit.
  - rewrite <- (length_le_bytes 4 h) at 1. apply window_prefix; lia.
Qed.

(** *** The readers of the metadata look at the metadata only *)

Lemma read_bytes_prefix (n o k : nat) (slab slab' : list Z) :
  (o + n <= k)%nat -> take k slab = take k slab' ->
  take n (drop o slab) = take n (drop o slab').
Proof.
  intros Hk Hsame. rewrite !take_drop_commute.
  replace (take (o + n) slab) with (take (o + n) (take k slab))
    by (rewrite take_take; f_equal; lia).
  replace (take (o + n) slab') with (take (o + n) (take k slab'))
    by (rewrite take_take; f_equal; lia).
  rewrite Hsame. reflexivity.
Qed.

Lemma read_le_prefix (n o : nat) (slab slab' : list Z) :
  (o + n <= metadata_size)%nat ->
  take metadata_size slab = take metadata_size slab' ->
  run_read (skip o ;;; bs <- read_bytes n ;; ret (le_value bs)) slab
  = run_read (skip o ;;; bs <- read_bytes n ;; ret (le_value bs)) slab'.
Proof.
  intros Hk Hsame. unfold run_read, bind, skip, read_bytes, ret.
  cbn [buffer offset]. rewrite Nat.add_0_l.
  rewrite (read_bytes_prefix n o metadata_size slab slab' Hk Hsame).
  case_decide; reflexivity.
Qed.

Lemma same_metadata_result db db' link :
  same_metadata_at db db' link ->
  result_metadata db' link = result_metadata db link.
Proof.
  unfold same_metadata_at, result_metadata, result_height, result_position,
    result_state, result_median_time_past, element_read.
  destruct (hash_table_file_ db' !! link) as [slab'|],
    (hash_table_file_ db !! link) as [slab|]; try discriminate;
    [|reflexivity].
  intros [= Hsame].
  unfold read_byte, read_2_bytes_little_endian, read_4_bytes_little_endian.
  assert (Hheight : run_read (bs <- read_bytes 4 ;; ret (le_value bs)) slab'
                    = run_read (bs <- read_bytes 4 ;; ret (le_value bs)) slab).
  { pose proof (read_le_prefix 4 0 slab' slab) as Hread.
    unfold run_read, bind, skip in Hread. cbn [buffer offset] in Hread.
    apply Hread; [cbv; lia | exact Hsame]. }
  rewrite Hheight.
  rewrite (read_le_prefix 2 height_size slab' slab)
    by (try exact Hsame; cbv; lia).
  rewrite (read_le_prefix 1 (height_size + position_size) slab' slab)
    by (try exact Hsame; cbv; lia).
  rewrite (read_le_prefix 4 (height_size + position_size + state_size)
             slab' slab)
    by (try exact Hsame; cbv; lia).
  reflexivity.
Qed.

Lemma same_shape_get db db' offset :
  same_shape db db' -> get db' offset = get db offset.
Proof.
  intros [_ Hlen]. specialize (Hlen offset). unfold get, find_link.
  destruct (hash_table_file_ db' !! offset),
    (hash_table_file_ db !! offset); try discriminate; reflexivity.
Qed.

Lemma metadata_frame_view db db' offset :
  metadata_frame db db' -> record_view db' offset = record_view db offset.
Proof.
  intros [Hshape Hmeta]. unfold record_view.
  rewrite (same_shape_get _ _ _ Hshape), (same_metadata_result _ _ _ (Hmeta offset)).
  destruct Hshape as [_ ->]. reflexivity.
Qed.

Lemma metadata_frame_refl db : metadata_frame db db.
Proof. repeat split. Qed.

Lemma metadata_frame_trans db1 db2 db3 :
  metadata_frame db1 db2 -> metadata_frame db2 db3 -> metadata_frame db1 db3.
Proof.
  unfold metadata_frame, same_shape, same_metadata_at.
  intros [[Ht1 Hl1] Hm1] [[Ht2 Hl2] Hm2]. repeat split.
  - congruence.
  - intros link. rewrite Hl2. apply Hl1.
  - intros link. rewrite Hm2. apply Hm1.
Qed.

Lemma metadata_frame_cache db c : metadata_frame db (with_cache db c).
Proof. repeat split. Qed.

(** A write through an element whose writer keeps the length and the
    metadata of the record. *)
Lemma element_write_frame db element writer db' :
  (forall slab slab',
     run_write writer slab = Some slab' ->
     length slab' = length slab /\
     take metadata_size slab' = take metadata_size slab) ->
  element_write db element writer = Some db' ->
  metadata_frame db db'.
Proof.
  intros Hwriter. unfold element_write.
  destruct (hash_table_file_ db !! element) as [slab|] eqn:Hslab;
    [|discriminate].
  destruct (run_write writer slab) as [slab'|] eqn:Hrun; [|discriminate].
  intros [= <-]. destruct (Hwriter _ _ Hrun) as [Hlen Hmeta].
  unfold metadata_frame, same_shape, same_metadata_at, with_file.
  cbn [hash_table_ hash_table_file_].
  repeat split; intros link; destruct (decide (link = element)) as [->|Hne];
    rewrite ?lookup_insert_eq, ?Hslab; rewrite ?lookup_insert_ne by congruence;
    simpl; congruence.
Qed.

Lemma spend_metadata_frame db point h ok db' :
  spend db point h = Some (ok, db') -> metadata_frame db db'.
Proof.
  unfold spend. destruct (is_null point).
  { intros [= _ <-]. apply metadata_frame_refl. }
  set (db1 := if negb (h =? not_spent)
              then with_cache db (remove (cache_ db) point) else db).
  assert (H1 : metadata_frame db db1).
  { subst db1. destruct (negb _);
      [apply metadata_frame_cache | apply metadata_frame_refl]. }
  destruct (find_hash db1 _) as [element|]; [|intros [= _ <-]; exact H1].
  destruct (element_read db1 element spend_reader)
    as [[[height state] outputs]|]; cbn [mbind option_bind]; [|discriminate].
  destruct (_ || _); [intros [= _ <-]; exact H1|].
  destruct (_ <=? _); [intros [= _ <-]; exact H1|].
  destruct (element_write db1 element _) as [db2|] eqn:Hwrite;
    cbn [mbind option_bind]; [|discriminate].
  intros [= _ <-]. eapply metadata_frame_trans; [exact H1|].
  eapply element_write_frame; [|exact Hwrite].
  intros slab slab'. apply spend_writer_keeps.
Qed.

Lemma for_each_metadata_frame
    (step : database C -> output_point -> option (bool * database C)) points :
  (forall db point ok db',
     step db point = Some (ok, db') -> metadata_frame db db') ->
  forall db ok db',
  for_each_inpoint step points db = Some (ok, db') -> metadata_frame db db'.
Proof.
  intros Hstep. induction points as [|point rest IH]; intros db ok db'.
  - intros [= _ <-]. apply metadata_frame_refl.
  - cbn [for_each_inpoint].
    destruct (step db point) as [[[] db1]|] eqn:Hone; [| |discriminate].
    + intros Hrest. eapply metadata_frame_trans; [eapply Hstep, Hone|].
      eapply IH, Hrest.
    + intros [= _ <-]. eapply Hstep, Hone.
Qed.

Lemma update_writer_length h m p s slab slab' :
  run_write (update_writer h m p s) slab = Some slab' ->
  length slab' = length slab.
Proof.
  unfold run_write.
  destruct (update_writer h m p s (Cursor slab 0)) as [[u c]|] eqn:Hrun;
    [|discriminate].
  intros [= <-]. unfold update_writer in Hrun.
  apply bind_inv in Hrun as (u1 & c1 & H1 & Hrun).
  apply bind_inv in Hrun as (u2 & c2 & H2 & Hrun).
  apply bind_inv in Hrun as (u3 & c3 & H3 & H4).
  apply write_bytes_inv in H1 as (L1 & _).
  apply write_bytes_inv in H2 as (L2 & _).
  apply write_bytes_inv in H3 as (L3 & _).
  apply write_bytes_inv in H4 as (L4 & _).
  simpl in L1. congruence.
Qed.

(** An [update] keeps the shape and changes the bytes of no record but the
    one at its link. *)
Lemma update_shape db link h m p s ok db' :
  update db link h m p s = Some (ok, db') ->
  same_shape db db' /\
  forall other, other <> link ->
    hash_table_file_ db' !! other = hash_table_file_ db !! other.
Proof.
  unfold update, find_link.
  destruct (hash_table_file_ db !! link) as [slab|] eqn:Hslab.
  2: { intros [= _ <-]. repeat split. }
  unfold element_write. rewrite Hslab.
  destruct (run_write _ slab) as [slab'|] eqn:Hrun;
    cbn [mbind option_bind]; [|discriminate].
  intros [= _ <-]. apply update_writer_length in Hrun.
  unfold same_shape, with_file. cbn [hash_table_ hash_table_file_].
  repeat split.
  - intros other. destruct (decide (other = link)) as [->|Hne].
    + rewrite lookup_insert_eq, Hslab. simpl. congruence.
    + rewrite lookup_insert_ne by congruence. reflexivity.
  - intros other Hne. rewrite lookup_insert_ne by congruence. reflexivity.
Qed.

Lemma update_false db link h m p s db' :
  update db link h m p s = Some (false, db') -> db' = db.
Proof.
  unfold update. destruct (find_link db link);
    [destruct (element_write _ _ _); discriminate|].
  intros [= <-]. reflexivity.
Qed.

Lemma same_shape_trans db1 db2 db3 :
  same_shape db1 db2 -> same_shape db2 db3 -> same_shape db1 db3.
Proof.
  unfold same_shape. intros [Ht1 Hl1] [Ht2 Hl2]. split; [congruence|].
  intros link. rewrite Hl2. apply Hl1.
Qed.

(** What the loop over the inpoints followed by an [update] of the record
    at [link] leaves in place: the body shared by [confirm] and
    [unconfirm]. *)
Lemma spends_then_update_frame
    (step : database C -> output_point -> option (bool * database C))
    db link points h m p s ok db' :
  (forall d point o d', step d point = Some (o, d') -> metadata_frame d d') ->
  ('(done, db1) ← for_each_inpoint step points db;
   if negb done then Some (false, db1) else update db1 link h m p s)
  = Some (ok, db') ->
  hash_table_ db' = hash_table_ db /\
  forall offset,
    get db' offset = get db offset /\
    length <$> hash_table_file_ db' !! offset
    = length <$> hash_table_file_ db !! offset /\
    (offset <> link \/ ok = false ->
     result_metadata db' offset = result_metadata db offset).
Proof.
  intros Hstep.
  destruct (for_each_inpoint step points db) as [[done db1]|] eqn:Hloop;
    cbn [mbind option_bind]; [|discriminate].
  pose proof (for_each_metadata_frame step points Hstep _ _ _ Hloop)
    as [Hshape1 Hmeta1].
  destruct done; cbn [negb].
  - intros Hupdate.
    destruct (update_shape _ _ _ _ _ _ _ _ Hupdate) as [Hshape2 Hother].
    pose proof (same_shape_trans _ _ _ Hshape1 Hshape2) as Hshape.
    split; [apply Hshape|]. intros offset.
    split; [apply same_shape_get, Hshape|]. split; [apply Hshape|].
    intros [Hne|Hfalse].
    + rewrite <- (same_metadata_result db db1 offset (Hmeta1 offset)).
      apply same_metadata_result. unfold same_metadata_at.
      rewrite (Hother offset Hne). reflexivity.
    + subst ok. apply update_false in Hupdate as ->.
      apply same_metadata_result, Hmeta1.
  - intros [= <- <-]. split; [apply Hshape1|]. intros offset.
    split; [apply same_shape_get, Hshape1|]. split; [apply Hshape1|].
    intros _. apply same_metadata_result, Hmeta1.
Qed.

(** X8. On well-formed records a [spend] or [unspend] returns, and
    whatever it answers it leaves the index as it was, adds and removes no
    record, changes the length of none, and changes the height, position,
    state and median time past of none. *)
Theorem spend_keeps_metadata db point h :
  database_wf db ->
  0 <= point_index point ->
  exists ok db',
    spend db point h = Some (ok, db') /\
    hash_table_ db' = hash_table_ db /\
    forall offset, record_view db' offset = record_view db offset.
Proof.
  intros (md & Hvalid & ->) Hindex.
  destruct (spend_simulates md point h Hvalid Hindex) as [Hspend _].
  eexists _, _. split; [exact Hspend|].
  apply spend_metadata_frame in Hspend as Hframe.
  split; [apply Hframe|]. intros offset.
  apply metadata_frame_view, Hframe.
Qed.


(** X10. On well-formed records an [unconfirm] returns, and whatever it
    answers it leaves the index as it was, adds and removes no record and
    changes the length of none. The metadata of every record but the
    unconfirmed one stays as it was; when the call answers false, so does
    the metadata of the record that was to be unconfirmed. *)
Theorem unconfirm_keeps_metadata db link :
  database_wf db ->
  exists ok db',
    unconfirm db link = Some (ok, db') /\
    hash_table_ db' = hash_table_ db /\
    forall offset,
      get db' offset = get db offset /\
      length <$> hash_table_file_ db' !! offset
      = length <$> hash_table_file_ db !! offset /\
      (offset <> link \/ ok = false ->
       result_metadata db' offset = result_metadata db offset).
Proof.
  intros Hwf. destruct (unconfirm_total db link Hwf) as (ok & db' & Hrun).
  exists ok, db'. split; [exact Hrun|]. revert Hrun.
  unfold unconfirm. destruct (get db link) as [result|].
  2: { intros [= <- <-]. split; [reflexivity|]. intros offset. auto. }
  destruct (result_inpoints db result) as [points|];
    cbn [mbind option_bind]; [|discriminate].
  apply spends_then_update_frame.
  intros d point o d'. apply spend_metadata_frame.
Qed.

(** *** The cache *)

Lemma spend_cache_effect db point h ok db' :
  spend db point h = Some (ok, db') ->
  cache_ db' = if is_null point || (h =? not_spent) then cache_ db
               else remove (cache_ db) point.
Proof.
  unfold spend. destruct (is_null point); cbn [orb].
  { intros [= _ <-]. reflexivity. }
  set (db1 := if negb (h =? not_spent)
              then with_cache db (remove (cache_ db) point) else db).
  assert (H1 : cache_ db1 = if h =? not_spent then cache_ db
                            else remove (cache_ db) point).
  { subst db1. destruct (h =? not_spent); reflexivity. }
  destruct (find_hash db1 _) as [element|]; [|intros [= _ <-]; exact H1].
  destruct (element_read db1 element spend_reader)
    as [[[height state] outputs]|]; cbn [mbind option_bind]; [|discriminate].
  destruct (_ || _); [intros [= _ <-]; exact H1|].
  destruct (_ <=? _); [intros [= _ <-]; exact H1|].
  destruct (element_write db1 element _) as [db2|] eqn:Hwrite;
    cbn [mbind option_bind]; [|discriminate].
  intros [= _ <-]. rewrite (element_write_cache _ _ _ _ Hwrite). exact H1.
Qed.

Lemma update_cache db link h m p s ok db' :
  update db link h m p s = Some (ok, db') -> cache_ db' = cache_ db.
Proof.
  unfold update. destruct (find_link db link); [|intros [= _ <-]; trivial].
  destruct (element_write db _ _) as [db1|] eqn:Hwrite;
    cbn [mbind option_bind]; [|discriminate].
  intros [= _ <-]. eapply element_write_cache, Hwrite.
Qed.

Lemma for_each_spend_cache h points db db' :
  for_each_inpoint (fun d point => spend d point h) points db
  = Some (true, db') ->
  cache_ db' = spend_cache h points (cache_ db).
Proof.
  revert db. induction points as [|point rest IH]; intros db.
  - intros [= <-]. unfold spend_cache. destruct (negb _); reflexivity.
  - cbn [for_each_inpoint].
    destruct (spend db point h) as [[[] db1]|] eqn:Hone; try discriminate.
    intros Hrest. rewrite (IH _ Hrest).
    rewrite (spend_cache_effect _ _ _ _ _ Hone).
    unfold spend_cache, remove_points. cbn [foldl].
    destruct (h =? not_spent); cbn [negb]; [rewrite orb_true_r; reflexivity|].
    rewrite orb_false_r. reflexivity.
Qed.

(** X11. A [spend] at a height other than the not-spent sentinel removes
    its point from the cache before it looks anything up: the point is gone
    from the cache also when the call answers false. An [unspend] never
    touches the cache, and a null point touches nothing at all. *)
Theorem spend_evicts_first db point h ok db' :
  spend db point h = Some (ok, db') ->
  (is_null point = true -> db' = db /\ ok = true) /\
  (is_null point = false -> h <> not_spent ->
   cache_ db' = remove (cache_ db) point) /\
  (h = not_spent -> cache_ db' = cache_ db).
Proof.
  intros Hspend. pose proof (spend_cache_effect _ _ _ _ _ Hspend) as Hcache.
  split; [|split].
  - intros Hnull. unfold spend in Hspend. rewrite Hnull in Hspend.
    injection Hspend as <- <-. split; reflexivity.
  - intros Hnull Hh. rewrite Hcache, Hnull. cbn [orb].
    destruct (Z.eqb_spec h not_spent); [contradiction | reflexivity].
  - intros ->. rewrite Hcache, Z.eqb_refl, orb_true_r. reflexivity.
Qed.

(** X12. A [confirm] that answers true at a height other than the
    not-spent sentinel has removed from the cache the previous output of
    every input that is not null, and nothing else; it adds nothing. *)
Theorem confirm_evicts_inpoints db link h m p points db' :
  result_inpoints db link = Some points ->
  h <> not_spent ->
  confirm db link h m p = Some (true, db') ->
  cache_ db' = remove_points points (cache_ db).
Proof.
  intros Hpoints Hh. unfold confirm, get, find_link.
  destruct (hash_table_file_ db !! link) eqn:Hslab; [|discriminate].
  rewrite Hpoints. cbn [mbind option_bind].
  destruct (for_each_inpoint _ points db) as [[[] db1]|] eqn:Hloop;
    cbn [mbind option_bind negb]; try discriminate.
  intros Hupdate. rewrite (update_cache _ _ _ _ _ _ _ _ Hupdate).
  rewrite (for_each_spend_cache _ _ _ _ Hloop). unfold spend_cache.
  destruct (Z.eqb_spec h not_spent); [contradiction | reflexivity].
Qed.

(** X13. An [unconfirm] never changes the cache, whatever it answers:
    outputs that become unspent again are not put back. *)
Theorem unconfirm_keeps_cache db link ok db' :
  unconfirm db link = Some (ok, db') -> cache_ db' = cache_ db.
Proof.
  unfold unconfirm. destruct (get db link); [|intros [= _ <-]; trivial].
  destruct (result_inpoints db _) as [points|]; cbn [mbind option_bind];
    [|discriminate].
  destruct (for_each_inpoint _ points db) as [[unspent db1]|] eqn:Hloop;
    cbn [mbind option_bind]; [|discriminate].
  assert (Hcache1 : cache_ db1 = cache_ db).
  { clear -Hloop. revert db Hloop.
    induction points as [|point rest IH]; intros db.
    - intros [= _ <-]. reflexivity.
    - cbn [for_each_inpoint].
      destruct (unspend db point) as [[[] db2]|] eqn:Hone; try discriminate.
      + intros Hrest. rewrite (IH _ Hrest).
        rewrite (spend_cache_effect _ _ _ _ _ Hone).
        rewrite Z.eqb_refl, orb_true_r. reflexivity.
      + intros [= _ <-]. rewrite (spend_cache_effect _ _ _ _ _ Hone).
        rewrite Z.eqb_refl, orb_true_r. reflexivity. }
  destruct unspent; cbn [negb].
  - intros Hupdate. rewrite (update_cache _ _ _ _ _ _ _ _ Hupdate).
    exact Hcache1.
  - intros [= _ <-]. exact Hcache1.
Qed.

End FrameFacts.

Section FrameExamples.
Import Serial TransactionDatabase RecordFormat Frame Examples MoreExamples.



Lemma spend_keeps_metadata_witness :
  spend db0 point_a1 100 = Some (true, db_spent) /\
  hash_table_ db_spent = hash_table_ db0 /\
  forall offset, record_view db_spent offset = record_view db0 offset.
Proof.
  destruct (spend_keeps_metadata db0 point_a1 100 db0_wf)
    as (ok & db' & Hspend & Hframe).
  - vm_compute. discriminate.
  - assert (Hrun : spend db0 point_a1 100 = Some (true, db_spent))
      by (vm_compute; reflexivity).
    assert (Hok : ok = true) by congruence.
    assert (Hdb : db' = db_spent) by congruence.
    subst ok db'. split; [exact Hrun | exact Hframe].
Defined.


Lemma unconfirm_keeps_metadata_witness :
  unconfirm db1 link_b = Some (true, db2) /\
  result_metadata db2 link_a = result_metadata db1 link_a.
Proof.
  destruct (unconfirm_keeps_metadata db1 link_b db1_wf)
    as (ok & db' & Hunconfirm & _ & Hview).
  assert (Hrun : unconfirm db1 link_b = Some (true, db2))
    by (vm_compute; reflexivity).
  assert (Hok : ok = true) by congruence.
  assert (Hdb : db' = db2) by congruence.
  subst ok db'.
  split; [exact Hrun|]. apply (Hview link_a). left. vm_compute. discriminate.
Defined.

Lemma spend_evicts_first_witness :
  cache_ db0 = remove (cache_ db0) point_b0.
Proof.
  destruct (spend_evicts_first db0 point_b0 100 false db0) as (_ & Hevict & _).
  - vm_compute. reflexivity.
  - apply Hevict; [vm_compute; reflexivity | vm_compute; discriminate].
Defined.

Lemma confirm_evicts_inpoints_witness :
  cache_ db1 = remove_points points_b (cache_ db0).
Proof.
  apply (confirm_evicts_inpoints db0 link_b 100 1600000000 3 points_b db1).
  - vm_compute. reflexivity.
  - vm_compute. discriminate.
  - vm_compute. reflexivity.
Defined.

Lemma unconfirm_keeps_cache_witness : cache_ db2 = cache_ db1.
Proof.
  apply (unconfirm_keeps_cache db1 link_b true db2).
  vm_compute. reflexivity.
Defined.

End FrameExamples.

(** ** Storing and reading back *)

Section StoreRoundTrip.
Import Serial TransactionDatabase RecordFormat Frame.
Context {C : Type} `{!OutputCache C}.
Implicit Types (db : database C) (point : output_point) (m : model C).

Lemma metadata_reads h p s mtp rest db link :
  0 <= h <= max_uint32 -> 0 <= p <= max_uint16 -> 0 <= s < 256 ->
  0 <= mtp <= max_uint32 ->
  hash_table_file_ db !! link = Some (metadata_bytes h p s mtp ++ rest) ->
  result_metadata db link = (Some h, Some p, Some s, Some mtp).
Proof.
  intros Hh Hp Hs Hm Hslab.
  unfold result_metadata, result_height, result_position, result_state,
    result_median_time_past, element_read.
  rewrite Hslab.
  rewrite read_height_metadata, read_position_metadata, read_state_metadata,
    read_median_time_past_metadata by assumption.
  reflexivity.
Qed.

(** X14. When [store] returns it has answered true, and what it stored
    is found again: [get] by the hash gives the new link, also when the
    hash was stored before, [get] by the link finds the record, and the
    record reports the height, position, state and median time past given,
    when these fit their widths. *)
Theorem store_then_get db link hash body h mtp p s ok db' :
  0 <= h <= max_uint32 ->
  0 <= p <= max_uint16 ->
  0 <= mtp <= max_uint32 ->
  store db link hash body h mtp p s = Some (ok, db') ->
  ok = true /\
  get_hash db' hash = Some link /\
  get db' link = Some link /\
  result_metadata db' link
  = (Some h, Some p, Some (state_byte s), Some mtp).
Proof.
  intros Hh Hp Hm. rewrite store_true. intros Hstore.
  assert (Hok : ok = true) by congruence.
  assert (Hdb : db' = Database
                        (<[link := metadata_bytes h p (state_byte s) mtp ++
                                   body]> (hash_table_file_ db))
                        ((hash, link) :: hash_table_ db) (cache_ db))
    by congruence.
  subst ok db'. clear Hstore. split; [reflexivity|].
  unfold get_hash, find_hash, get, find_link.
  cbn [hash_table_ hash_table_file_ find_key].
  rewrite decide_True by reflexivity. rewrite lookup_insert_eq.
  repeat split.
  apply (metadata_reads h p (state_byte s) mtp body); try assumption.
  - apply state_byte_range.
  - cbn [hash_table_file_]. apply lookup_insert_eq.
Qed.

(** X15. A transaction that fits the record format reads back as it was
    stored, whatever else the file holds: the outputs by index, none at and
    past the output count, and the previous outputs of its inputs in
    order. *)
Theorem store_then_read db link hash r h mtp p s ok db' :
  record_valid r ->
  store db link hash (body_bytes r) h mtp p s = Some (ok, db') ->
  (forall index, 0 <= index ->
     result_output db' link index = Some (tx_outputs r !! Z.to_nat index)) /\
  result_inpoints db' link = Some (List.map inpoint (tx_inputs r)).
Proof.
  intros Hr. rewrite store_true. intros Hstore.
  assert (Hdb : db' = Database
                        (<[link := metadata_bytes h p (state_byte s) mtp ++
                                   body_bytes r]> (hash_table_file_ db))
                        ((hash, link) :: hash_table_ db) (cache_ db))
    by congruence.
  subst db'. clear Hstore.
  pose proof (set_metadata_valid h p s mtp r Hr) as Hvalid.
  assert (Hslab : metadata_bytes h p (state_byte s) mtp ++ body_bytes r
                  = record_bytes (set_metadata (to_uint32 h) (to_uint16 p)
                                    (state_byte s) (to_uint32 mtp) r)).
  { change (record_bytes (set_metadata ?a ?b ?c ?d r))
      with (metadata_bytes a b c d ++ body_bytes r).
    rewrite metadata_bytes_uint. reflexivity. }
  unfold result_output, result_inpoints, element_read.
  cbn [hash_table_file_]. rewrite lookup_insert_eq, Hslab. split.
  - intros index Hindex. rewrite read_output_record by assumption.
    reflexivity.
  - rewrite read_inpoints_record by assumption. reflexivity.
Qed.

(** X16. Storing under a link that holds no record leaves what was stored
    before in place: a hash other than the new one resolves to the link it
    resolved to, the record there has the bytes it had, and the cache is
    as it was. *)
Theorem store_keeps_others db link hash body h mtp p s ok db' :
  hash_table_file_ db !! link = None ->
  store db link hash body h mtp p s = Some (ok, db') ->
  cache_ db' = cache_ db /\
  forall other found,
    other <> hash ->
    get_hash db other = Some found ->
    get_hash db' other = Some found /\
    hash_table_file_ db' !! found = hash_table_file_ db !! found.
Proof.
  intros Hfresh. rewrite store_true. intros [= _ <-].
  split; [reflexivity|]. intros other found Hother.
  unfold get_hash, find_hash, find_link.
  cbn [hash_table_ hash_table_file_ find_key].
  rewrite decide_False by congruence.
  destruct (find_key (hash_table_ db) other) as [l|]; [|discriminate].
  destruct (hash_table_file_ db !! l) as [slab|] eqn:Hslab; [|discriminate].
  intros [= <-].
  assert (Hne : l <> link) by congruence.
  rewrite lookup_insert_ne by congruence. rewrite Hslab. auto.
Qed.

(** *** Output queries on well-formed records *)

Lemma result_metadata_concretize m link r :
  model_valid m -> records m !! link = Some r ->
  result_metadata (concretize m) link
  = (Some (tx_height r), Some (tx_position r), Some (tx_state r),
     Some (tx_median_time_past r)).
Proof.
  intros Hvalid Hr.
  destruct (model_valid_lookup m link r Hvalid Hr)
    as (Hh & Hp & Hs & Hm & _).
  apply (metadata_reads _ _ _ _ (body_bytes r)); try assumption.
  rewrite concretize_lookup, Hr. reflexivity.
Qed.

(** What [get_output] computes from a well-formed record that the cache
    does not resolve. *)
Lemma get_output_record m point fork_height link r :
  model_valid m ->
  is_null point = false ->
  0 <= point_index point ->
  populate (cached m) (reset_point point) fork_height = None ->
  find_key (entries m) (point_hash point) = Some link ->
  records m !! link = Some r ->
  get_output (concretize m) point fork_height
  = let prevout := reset_prevout (point_metadata point) in
    if tx_height r =? 0 then Some (false, prevout)
    else
      let confirmed :=
        output_confirmed (tx_state r) (tx_height r) fork_height in
      if negb (fork_height =? max_size_t) && negb confirmed
      then Some (false, prevout)
      else
        match tx_outputs r !! Z.to_nat (point_index point) with
        | None => Some (false, set_prevout_cache prevout None)
        | Some o =>
            Some (true,
                  Validation (Some o) (tx_position r =? 0) confirmed
                    (tx_height r) (tx_median_time_past r)
                    (confirmed && spent o fork_height))
        end.
Proof.
  intros Hvalid Hnull Hindex Hmiss Hfind Hr. unfold get_output.
  rewrite Hnull. change (cache_ (concretize m)) with (cached m).
  rewrite Hmiss, (get_hash_concretize m _ link r Hfind Hr).
  pose proof (result_metadata_concretize m link r Hvalid Hr) as Hmeta.
  unfold result_metadata in Hmeta.
  injection Hmeta as -> -> -> ->. cbn [mbind option_bind].
  destruct (tx_height r =? 0); [reflexivity|].
  destruct (negb _ && negb _); [reflexivity|].
  rewrite (result_output_concretize m link r) by assumption.
  cbn [mbind option_bind].
  destruct (tx_outputs r !! _); reflexivity.
Qed.

(** X17. On well-formed records, for a point the cache does not resolve:
    when the transaction is found with a height other than zero, holds the
    output, and is in the confirmation state asked for (or the call is for
    the pool), [get_output] answers true and the metadata holds the output
    as stored, the height and the median time past of the transaction, and
    a coinbase flag that is true exactly when the position stored is
    zero. *)
Theorem get_output_populates m point fork_height link r o :
  model_valid m ->
  is_null point = false ->
  0 <= point_index point ->
  populate (cached m) (reset_point point) fork_height = None ->
  find_key (entries m) (point_hash point) = Some link ->
  records m !! link = Some r ->
  tx_height r <> 0 ->
  tx_outputs r !! Z.to_nat (point_index point) = Some o ->
  fork_height = max_size_t \/
    output_confirmed (tx_state r) (tx_height r) fork_height = true ->
  exists prevout,
    get_output (concretize m) point fork_height = Some (true, prevout) /\
    prevout_cache prevout = Some o /\
    prevout_height prevout = tx_height r /\
    prevout_median_time_past prevout = tx_median_time_past r /\
    prevout_coinbase prevout = (tx_position r =? 0).
Proof.
  intros Hvalid Hnull Hindex Hmiss Hfind Hr Hheight Ho Hvisible.
  rewrite (get_output_record m point fork_height link r) by assumption.
  cbv zeta. destruct (Z.eqb_spec (tx_height r) 0); [contradiction|].
  assert (Hpass : negb (fork_height =? max_size_t) &&
                  negb (output_confirmed (tx_state r) (tx_height r)
                          fork_height) = false).
  { destruct Hvisible as [->| ->].
    - rewrite Z.eqb_refl. reflexivity.
    - apply andb_false_r. }
  rewrite Hpass, Ho. eexists. split; [reflexivity|]. repeat split.
Qed.

(** X18. On well-formed records, for a point the cache does not resolve
    and whose transaction passes the checks of height and confirmation: an
    index at or past the output count gets the answer false, and the cache
    field of the metadata is cleared, whatever the caller passed in it; the
    other fields are as the call reset them. *)
Theorem get_output_no_such_output m point fork_height link r :
  model_valid m ->
  is_null point = false ->
  populate (cached m) (reset_point point) fork_height = None ->
  find_key (entries m) (point_hash point) = Some link ->
  records m !! link = Some r ->
  tx_height r <> 0 ->
  fork_height = max_size_t \/
    output_confirmed (tx_state r) (tx_height r) fork_height = true ->
  Z.of_nat (length (tx_outputs r)) <= point_index point ->
  get_output (concretize m) point fork_height
  = Some (false,
          Validation None (prevout_coinbase (point_metadata point))
            (prevout_confirmed (point_metadata point)) 0 0 false).
Proof.
  intros Hvalid Hnull Hmiss Hfind Hr Hheight Hvisible Hindex.
  rewrite (get_output_record m point fork_height link r)
    by (try assumption; lia).
  cbv zeta. destruct (Z.eqb_spec (tx_height r) 0); [contradiction|].
  assert (Hpass : negb (fork_height =? max_size_t) &&
                  negb (output_confirmed (tx_state r) (tx_height r)
                          fork_height) = false).
  { destruct Hvisible as [->| ->].
    - rewrite Z.eqb_refl. reflexivity.
    - apply andb_false_r. }
  rewrite Hpass.
  rewrite lookup_ge_None_2 by lia. reflexivity.
Qed.

(** X19. For the pool ([fork_height] is [max_size_t]), on well-formed
    records and for a point the cache does not resolve: [get_output]
    answers true for every output a stored transaction of height other
    than zero holds, whatever the state of the transaction, and reports it
    confirmed exactly when the state is confirmed; an indexed transaction
    is reported unconfirmed. *)
Theorem get_output_for_pool m point link r o :
  model_valid m ->
  is_null point = false ->
  0 <= point_index point ->
  populate (cached m) (reset_point point) max_size_t = None ->
  find_key (entries m) (point_hash point) = Some link ->
  records m !! link = Some r ->
  tx_height r <> 0 ->
  tx_outputs r !! Z.to_nat (point_index point) = Some o ->
  exists prevout,
    get_output (concretize m) point max_size_t = Some (true, prevout) /\
    prevout_confirmed prevout = (tx_state r =? state_byte confirmed).
Proof.
  intros Hvalid Hnull Hindex Hmiss Hfind Hr Hheight Ho.
  rewrite (get_output_record m point max_size_t link r) by assumption.
  cbv zeta. destruct (Z.eqb_spec (tx_height r) 0); [contradiction|].
  rewrite Z.eqb_refl. cbn [negb andb]. rewrite Ho.
  eexists. split; [reflexivity|]. cbn [prevout_confirmed].
  unfold output_confirmed. rewrite Z.eqb_refl. cbn [negb].
  rewrite andb_false_r. cbn [orb].
  destruct (model_valid_lookup m link r Hvalid Hr) as (Hh & _).
  destruct (Z.leb_spec (tx_height r) max_size_t) as [|Hgt];
    [apply andb_true_r|].
  unfold max_uint32, max_size_t in *. lia.
Qed.

End StoreRoundTrip.

Section StoreExamples.
Import Serial TransactionDatabase RecordFormat Frame Examples MoreExamples.

Lemma store_then_get_witness :
  get_hash db0 hash_a = Some link_a /\
  get_hash db_shadow hash_a = Some link_c /\
  get db_shadow link_c = Some link_c /\
  result_metadata db_shadow link_c
  = (Some 7, Some unconfirmed, Some (state_byte pooled), Some no_time).
Proof.
  split; [vm_compute; reflexivity|].
  apply (store_then_get db0 link_c hash_a (body_bytes tx_c) 7 no_time
           unconfirmed pooled true db_shadow).
  - unfold max_uint32. lia.
  - unfold unconfirmed, max_uint16. lia.
  - unfold no_time, max_uint32. lia.
  - vm_compute. reflexivity.
Defined.

Lemma store_then_read_witness :
  (forall index, 0 <= index ->
     result_output db_pooled link_b index
     = Some (tx_outputs tx_b !! Z.to_nat index)) /\
  result_inpoints db_pooled link_b = Some (List.map inpoint (tx_inputs tx_b)).
Proof.
  apply (store_then_read db_stored link_b hash_b tx_b 7 no_time unconfirmed
           pooled true db_pooled).
  - exact tx_b_valid.
  - vm_compute. reflexivity.
Defined.

Lemma store_keeps_others_witness :
  cache_ db_c = cache_ db0 /\
  forall other found,
    other <> hash_c ->
    get_hash db0 other = Some found ->
    get_hash db_c other = Some found /\
    hash_table_file_ db_c !! found = hash_table_file_ db0 !! found.
Proof.
  apply (store_keeps_others db0 link_c hash_c (body_bytes tx_c) 7 no_time
           unconfirmed pooled true db_c).
  - vm_compute. reflexivity.
  - vm_compute. reflexivity.
Defined.

Lemma get_output_populates_witness :
  exists prevout,
    get_output db0 point_a1 10 = Some (true, prevout) /\
    prevout_cache prevout = Some output_a1 /\
    prevout_height prevout = 5 /\
    prevout_median_time_past prevout = 1000 /\
    prevout_coinbase prevout = false.
Proof.
  apply (get_output_populates model0 point_a1 10 link_a tx_a output_a1).
  - exact model0_valid.
  - vm_compute. reflexivity.
  - vm_compute. discriminate.
  - reflexivity.
  - vm_compute. reflexivity.
  - vm_compute. reflexivity.
  - vm_compute. discriminate.
  - reflexivity.
  - right. vm_compute. reflexivity.
Defined.

Lemma get_output_no_such_output_witness :
  get_output db0 point_a7 10
  = Some (false, Validation None true true 0 0 false).
Proof.
  apply (get_output_no_such_output model0 point_a7 10 link_a tx_a).
  - exact model0_valid.
  - vm_compute. reflexivity.
  - reflexivity.
  - vm_compute. reflexivity.
  - vm_compute. reflexivity.
  - vm_compute. discriminate.
  - right. vm_compute. reflexivity.
  - vm_compute. discriminate.
Defined.

Lemma get_output_for_pool_witness :
  exists prevout,
    get_output db0 point_b0 max_size_t = Some (true, prevout) /\
    prevout_confirmed prevout = false.
Proof.
  apply (get_output_for_pool model0 point_b0 link_b tx_b
           (Output 0 not_spent 70 [4])).
  - exact model0_valid.
  - vm_compute. reflexivity.
  - vm_compute. discriminate.
  - reflexivity.
  - vm_compute. reflexivity.
  - vm_compute. reflexivity.
  - vm_compute. discriminate.
  - reflexivity.
Defined.

End StoreExamples.

(** ** Confirming on well-formed records: answer, effect, repetition *)

Section ConfirmMore.
Import Serial TransactionDatabase RecordFormat.
Context {C : Type} `{!OutputCache C}.
Implicit Types (db : database C) (point : output_point) (m : model C).

(** The inpoints of a well-formed record, read from a well-formed
    database. *)
Lemma result_inpoints_wf m link points :
  model_valid m ->
  result_inpoints (concretize m) link = Some points ->
  exists r,
    records m !! link = Some r /\ record_valid r /\
    points = List.map inpoint (tx_inputs r).
Proof.
  intros Hvalid Hpoints.
  destruct (records m !! link) as [r|] eqn:Hr.
  - rewrite (result_inpoints_concretize m link r Hvalid Hr) in Hpoints.
    injection Hpoints as <-. exists r.
    split; [reflexivity|]. split; [|reflexivity].
    exact (model_valid_lookup m link r Hvalid Hr).
  - unfold result_inpoints, element_read in Hpoints.
    rewrite concretize_lookup, Hr in Hpoints. discriminate.
Qed.

Lemma spends_answer m h points ok :
  model_valid m ->
  Forall (fun point => 0 <= point_index point) points ->
  ok = forallb (fun pt => fst (spend_model m pt h)) points ->
  ok = true <->
  forall point, In point points ->
    exists db1, spend (concretize m) point h = Some (true, db1).
Proof.
  intros Hvalid Hindex ->. rewrite forallb_forall.
  rewrite List.Forall_forall in Hindex.
  split; intros Hall point Hpoint.
  - destruct (spend_simulates m point h Hvalid (Hindex point Hpoint))
      as [Hsim _].
    rewrite Hsim, (Hall point Hpoint). eauto.
  - destruct (Hall point Hpoint) as [db1 Hspend].
    destruct (spend_simulates m point h Hvalid (Hindex point Hpoint))
      as [Hsim _].
    rewrite Hsim in Hspend. congruence.
Qed.

(** X20. On well-formed records, [confirm] answers true exactly when the
    spend of each previous output at the height would answer true on the
    database as it is before the call: the spends of one call do not help
    or hinder one another. *)
Theorem confirm_answers_true_iff db link h mtp p points ok db' :
  database_wf db ->
  result_inpoints db link = Some points ->
  confirm db link h mtp p = Some (ok, db') ->
  ok = true <->
  forall point, In point points ->
    exists db1, spend db point h = Some (true, db1).
Proof.
  intros (m & Hvalid & ->) Hpoints Hconfirm.
  destruct (result_inpoints_wf m link points Hvalid Hpoints)
    as (r & Hr & Hrvalid & ->).
  destruct (confirm_simulates m link h mtp p Hvalid) as [Hsim _].
  rewrite Hsim in Hconfirm. injection Hconfirm as Hok _.
  destruct (confirm_model_char m link r h mtp p Hr) as [Hfst _].
  cbv zeta in Hfst.
  apply spends_answer;
    [exact Hvalid | apply inpoints_index, Hrvalid | congruence].
Qed.

(** X21. On well-formed records, [unconfirm] answers true exactly when the
    unspend of each previous output would answer true on the database as it
    is before the call. *)
Theorem unconfirm_answers_true_iff db link points ok db' :
  database_wf db ->
  result_inpoints db link = Some points ->
  unconfirm db link = Some (ok, db') ->
  ok = true <->
  forall point, In point points ->
    exists db1, unspend db point = Some (true, db1).
Proof.
  intros (m & Hvalid & ->) Hpoints Hunconfirm.
  destruct (result_inpoints_wf m link points Hvalid Hpoints)
    as (r & Hr & Hrvalid & ->).
  destruct (unconfirm_simulates m link Hvalid) as [Hsim _].
  rewrite Hsim in Hunconfirm. injection Hunconfirm as Hok _.
  destruct (unconfirm_model_char m link r Hr) as [Hfst _].
  cbv zeta in Hfst. unfold unspend.
  apply spends_answer;
    [exact Hvalid | apply inpoints_index, Hrvalid | congruence].
Qed.

Lemma confirm_model_spends m link r h mtp p m' :
  records m !! link = Some r ->
  record_valid r ->
  confirm_model m link h mtp p = (true, m') ->
  forall point, In point (List.map inpoint (tx_inputs r)) ->
    is_null point = false ->
    exists l r' o,
      find_key (entries m') (point_hash point) = Some l /\
      records m' !! l = Some r' /\
      tx_outputs r' !! Z.to_nat (point_index point) = Some o /\
      spender_height o = to_uint32 h.
Proof.
  intros Hr Hvalid Hconfirm point Hpoint Hnull.
  destruct (confirm_model_char m link r h mtp p Hr) as [Hfst Heffect].
  cbv zeta in Hfst, Heffect. rewrite Hconfirm in Hfst, Heffect.
  cbn [fst snd] in Hfst, Heffect.
  destruct (Heffect eq_refl) as [[Hentries Hrecords] _].
  symmetry in Hfst. rewrite forallb_forall in Hfst.
  destruct (spend_model_target m point h (Hfst point Hpoint))
    as [Hcontra|(l & r0 & Hfind & Hr0 & _ & _ & Hindex & Htarget)];
    [congruence|].
  assert (Hnonneg : 0 <= point_index point).
  { pose proof (inpoints_index r Hvalid) as Hall.
    rewrite List.Forall_forall in Hall. apply Hall, Hpoint. }
  destruct (lookup_lt_is_Some_2 (tx_outputs r0) (Z.to_nat (point_index point)))
    as [o Ho]; [lia|].
  eexists l, _, _. split; [rewrite Hentries; exact Hfind|].
  split; [rewrite Hrecords, Hr0; reflexivity|].
  rewrite confirm_change_outputs, lookup_mark_record, Ho.
  cbn [fmap option_fmap option_map]. split; [reflexivity|].
  rewrite bool_decide_eq_true_2; [reflexivity|].
  unfold targets. apply list_elem_of_omap. exists point.
  split; [apply list_elem_of_In, Hpoint | exact Htarget].
Qed.

(** X22. On well-formed records, after a [confirm] that answers true the
    previous output of every input that is not null is found by its hash
    and holds the height of the confirmation, taken modulo [2^32], as its
    spender height. *)
Theorem confirm_spends_inputs db link h mtp p db' :
  database_wf db ->
  confirm db link h mtp p = Some (true, db') ->
  exists points,
    result_inpoints db link = Some points /\
    forall point, In point points -> is_null point = false ->
      exists previous o,
        get_hash db' (point_hash point) = Some previous /\
        result_output db' previous (point_index point) = Some (Some o) /\
        spender_height o = to_uint32 h.
Proof.
  intros (m & Hvalid & ->) Hconfirm.
  destruct (confirm_simulates m link h mtp p Hvalid) as [Hsim Hvalid'].
  rewrite Hsim in Hconfirm. injection Hconfirm as Hok <-.
  destruct (confirm_model_found m link h mtp p Hok) as [r Hr].
  exists (List.map inpoint (tx_inputs r)).
  split; [exact (result_inpoints_concretize m link r Hvalid Hr)|].
  intros point Hpoint Hnull.
  destruct (confirm_model m link h mtp p) as [ok m'] eqn:Hmodel.
  cbn [fst snd] in *. subst ok.
  pose proof (model_valid_lookup m link r Hvalid Hr) as Hrvalid.
  destruct (confirm_model_spends m link r h mtp p m' Hr Hrvalid Hmodel
              point Hpoint Hnull) as (l & r' & o & Hfind & Hr' & Ho & Hh).
  exists l, o. split; [exact (get_hash_concretize m' _ l r' Hfind Hr')|].
  split; [|exact Hh].
  rewrite (result_output_concretize m' l r') by
    (try assumption;
     pose proof (inpoints_index r Hrvalid) as Hall;
     rewrite List.Forall_forall in Hall; apply Hall, Hpoint).
  rewrite Ho. reflexivity.
Qed.

(** *** Confirming twice *)

Lemma mark_record_twice marked v k r :
  mark_record marked v k (mark_record marked v k r) = mark_record marked v k r.
Proof.
  unfold mark_record.
  rewrite !tx_outputs_with_outputs, !with_outputs_twice.
  apply with_outputs_ext. intros j.
  rewrite !list_lookup_imap.
  destruct (tx_outputs r !! j); [|reflexivity]. cbn.
  destruct (bool_decide _); reflexivity.
Qed.

Lemma confirm_change_twice marked v link a b c d k r :
  confirm_change marked v link a b c d k
    (confirm_change marked v link a b c d k r)
  = confirm_change marked v link a b c d k r.
Proof.
  unfold confirm_change. destruct (decide (k = link)).
  - change (mark_record marked v k
              (set_metadata a b c d (mark_record marked v k r)))
      with (set_metadata a b c d
              (mark_record marked v k (mark_record marked v k r))).
    rewrite mark_record_twice. reflexivity.
  - apply mark_record_twice.
Qed.

(** A spend that succeeds before a confirmation at [h] succeeds after it,
    also when it is an output of the confirmed transaction itself. *)
Lemma spend_model_again marked v link p mtp m m' point h :
  0 <= h <= max_uint32 ->
  pointwise (confirm_change marked v link (to_uint32 h) p
               (state_byte confirmed) mtp) m m' ->
  fst (spend_model m point h) = true ->
  fst (spend_model m' point h) = true.
Proof.
  intros Hh [Hentries Hrecords] Hspend.
  apply spend_model_target in Hspend.
  unfold spend_model.
  destruct (is_null point) eqn:Hnull; [reflexivity|].
  destruct Hspend as [|(l & r & Hfind & Hr & Hstate & Hheight & Hindex & _)];
    [discriminate|].
  rewrite Hentries, Hfind, Hrecords, Hr. cbn [fmap option_fmap option_map].
  rewrite confirm_change_length.
  assert (Hkept :
    tx_state (confirm_change marked v link (to_uint32 h) p
                (state_byte confirmed) mtp l r) = state_byte confirmed /\
    tx_height (confirm_change marked v link (to_uint32 h) p
                 (state_byte confirmed) mtp l r) <= h).
  { unfold confirm_change. destruct (decide (l = link)).
    - cbn [tx_state tx_height set_metadata]. split; [reflexivity|].
      unfold to_uint32. rewrite Z.mod_small; unfold max_uint32 in Hh; lia.
    - split; [exact Hstate | exact Hheight]. }
  destruct Hkept as [-> Hle].
  rewrite Z.eqb_refl. cbn [negb orb].
  destruct (Z.ltb_spec h (tx_height (confirm_change marked v link
              (to_uint32 h) p (state_byte confirmed) mtp l r))); [lia|].
  destruct (Z.leb_spec (Z.of_nat (length (tx_outputs r))) (point_index point));
    [lia|]. reflexivity.
Qed.

Lemma confirm_model_twice m0 link h mtp p m1 :
  0 <= h <= max_uint32 ->
  confirm_model m0 link h mtp p = (true, m1) ->
  confirm_model m1 link h mtp p = (true, m1).
Proof.
  intros Hh Hconfirm.
  destruct (confirm_model_found m0 link h mtp p) as [r Hr];
    [rewrite Hconfirm; reflexivity|].
  set (points := List.map inpoint (tx_inputs r)) in *.
  destruct (confirm_model_char m0 link r h mtp p Hr) as [Hfst1 Heffect1].
  cbv zeta in Hfst1, Heffect1. fold points in Hfst1, Heffect1.
  rewrite Hconfirm in Hfst1, Heffect1. cbn [fst snd] in Hfst1, Heffect1.
  destruct (Heffect1 eq_refl) as [Hchange1 Hcached1]. clear Heffect1.
  symmetry in Hfst1. rewrite forallb_forall in Hfst1.
  set (T := targets m0 points) in *.
  set (change1 := confirm_change T (to_uint32 h) link (to_uint32 h)
                    (to_uint16 p) (state_byte confirmed) (to_uint32 mtp)) in *.
  assert (Hr1 : records m1 !! link = Some (change1 link r)).
  { destruct Hchange1 as [_ Hrecords]. rewrite Hrecords, Hr. reflexivity. }
  destruct (confirm_model_char m1 link _ h mtp p Hr1) as [Hfst2 Heffect2].
  cbv zeta in Hfst2, Heffect2. unfold change1 in Hfst2, Heffect2.
  rewrite confirm_change_inputs in Hfst2, Heffect2.
  fold points change1 in Hfst2, Heffect2.
  rewrite (targets_pointwise change1 m0 m1 points Hchange1) in Heffect2
    by (intros; apply confirm_change_length).
  fold T change1 in Heffect2.
  assert (Hall2 : forallb (fun pt => fst (spend_model m1 pt h)) points = true).
  { apply forallb_forall. intros point Hpoint.
    apply (spend_model_again T (to_uint32 h) link (to_uint16 p)
             (to_uint32 mtp) m0 m1 point h Hh Hchange1).
    apply Hfst1, Hpoint. }
  rewrite Hall2 in Hfst2.
  destruct (confirm_model m1 link h mtp p) as [ok2 m2]. cbn [fst snd] in *.
  subst ok2. f_equal.
  destruct (Heffect2 eq_refl) as [Hchange2 Hcached2]. clear Heffect2.
  apply model_eq.
  - apply map_eq. intros k.
    destruct Hchange1 as [_ H1], Hchange2 as [_ H2].
    rewrite H2, H1. destruct (records m0 !! k) as [r0|]; [|reflexivity].
    cbn [fmap option_fmap option_map]. f_equal.
    apply confirm_change_twice.
  - destruct Hchange2 as [E2 _]. exact E2.
  - rewrite Hcached2, Hcached1. apply spend_cache_idempotent.
Qed.

(** X23. On well-formed records, a [confirm] that answered true can be
    repeated: the same call on the resulting database answers true again
    and changes nothing, when the height fits 32 bits. *)
Theorem confirm_twice db link h mtp p db' :
  database_wf db ->
  0 <= h <= max_uint32 ->
  confirm db link h mtp p = Some (true, db') ->
  confirm db' link h mtp p = Some (true, db').
Proof.
  intros (m & Hvalid & ->) Hh Hconfirm.
  destruct (confirm_simulates m link h mtp p Hvalid) as [Hsim Hvalid1].
  rewrite Hsim in Hconfirm. injection Hconfirm as Hok <-.
  destruct (confirm_model m link h mtp p) as [ok m1] eqn:Hmodel.
  cbn [fst snd] in *. subst ok.
  destruct (confirm_simulates m1 link h mtp p Hvalid1) as [Hsim1 _].
  rewrite Hsim1, (confirm_model_twice m link h mtp p m1 Hh Hmodel).
  reflexivity.
Qed.

End ConfirmMore.

Section ConfirmExamples.
Import Serial TransactionDatabase RecordFormat Examples MoreExamples.

Lemma confirm_answers_true_iff_witness :
  true = true <->
  forall point, In point points_b ->
    exists db', spend db0 point 100 = Some (true, db').
Proof.
  apply (confirm_answers_true_iff db0 link_b 100 1600000000 3 points_b true
           db1).
  - exact db0_wf.
  - vm_compute. reflexivity.
  - vm_compute. reflexivity.
Defined.

Lemma unconfirm_answers_true_iff_witness :
  true = true <->
  forall point, In point points_b ->
    exists db', unspend db1 point = Some (true, db').
Proof.
  apply (unconfirm_answers_true_iff db1 link_b points_b true db2).
  - exact db1_wf.
  - vm_compute. reflexivity.
  - vm_compute. reflexivity.
Defined.

Lemma confirm_spends_inputs_witness :
  exists points,
    result_inpoints db0 link_b = Some points /\
    forall point, In point points -> is_null point = false ->
      exists previous o,
        get_hash db1 (point_hash point) = Some previous /\
        result_output db1 previous (point_index point) = Some (Some o) /\
        spender_height o = to_uint32 100.
Proof.
  apply (confirm_spends_inputs db0 link_b 100 1600000000 3 db1).
  - exact db0_wf.
  - vm_compute. reflexivity.
Defined.

Lemma confirm_twice_witness :
  confirm db1 link_b 100 1600000000 3 = Some (true, db1).
Proof.
  apply (confirm_twice db0 link_b 100 1600000000 3 db1).
  - exact db0_wf.
  - unfold max_uint32. lia.
  - vm_compute. reflexivity.
Defined.

End ConfirmExamples.

(** ** Spending and unspending, pooling and confirming, seen by the queries *)

Section ComposeFacts.
Import Serial TransactionDatabase RecordFormat Frame.
Context {C : Type} `{!OutputCache C}.
Implicit Types (db : database C) (point : output_point) (m : model C).

Lemma spend_model_true m point h m1 :
  spend_model m point h = (true, m1) ->
  is_null point = false ->
  exists l r,
    find_key (entries m) (point_hash point) = Some l /\
    records m !! l = Some r /\
    tx_state r = state_byte confirmed /\
    point_index point < Z.of_nat (length (tx_outputs r)) /\
    records m1 = <[l := set_spender_height (Z.to_nat (point_index point))
                          (to_uint32 h) r]> (records m) /\
    entries m1 = entries m.
Proof.
  unfold spend_model. intros Hspend Hnull. rewrite Hnull in Hspend.
  destruct (find_key _ _) as [l|]; [|discriminate].
  destruct (records m !! l) as [r|] eqn:Hr; [|discriminate].
  destruct (Z.eqb_spec (tx_state r) (state_byte confirmed)) as [Hstate|];
    [|discriminate].
  cbn [negb orb] in Hspend.
  destruct (h <? tx_height r); [discriminate|].
  destruct (Z.leb_spec (Z.of_nat (length (tx_outputs r))) (point_index point));
    [discriminate|].
  injection Hspend as <-. exists l, r. repeat split; assumption.
Qed.

Lemma set_spender_height_restore i v w r o :
  tx_outputs r !! i = Some o -> spender_height o = w ->
  set_spender_height i w (set_spender_height i v r) = r.
Proof.
  intros Ho Hw. unfold set_spender_height.
  rewrite tx_outputs_with_outputs, with_outputs_twice.
  transitivity (with_outputs r (tx_outputs r)); [|apply with_outputs_same].
  apply with_outputs_ext. intros j.
  rewrite !list_lookup_alter.
  destruct (decide (i = j)) as [Heq|]; [|reflexivity]. subst j.
  rewrite Ho. rewrite decide_True by reflexivity.
  destruct o. cbn in *. subst w. reflexivity.
Qed.

(** X24. On well-formed records, the spend of an output that was not spent
    is undone by the unspend of the same point: the unspend answers true
    and every record has again the bytes it had before the spend, under the
    same index. The cache does not get back the point the spend evicted. *)
Theorem spend_then_unspend db point h db1 previous o :
  database_wf db ->
  is_null point = false ->
  0 <= point_index point ->
  get_hash db (point_hash point) = Some previous ->
  result_output db previous (point_index point) = Some (Some o) ->
  spender_height o = not_spent ->
  spend db point h = Some (true, db1) ->
  exists db2,
    unspend db1 point = Some (true, db2) /\
    hash_table_file_ db2 = hash_table_file_ db /\
    hash_table_ db2 = hash_table_ db /\
    cache_ db2 = cache_ db1.
Proof.
  intros (m & Hvalid & ->) Hnull Hindex Hfound Hout Hunspent Hspend.
  destruct (spend_simulates m point h Hvalid Hindex) as [Hsim Hvalid1].
  rewrite Hsim in Hspend. injection Hspend as Hok <-.
  destruct (spend_model m point h) as [ok m1] eqn:Hmodel.
  cbn [fst snd] in *. subst ok.
  destruct (spend_model_true m point h m1 Hmodel Hnull)
    as (l & r & Hfind & Hr & Hstate & Hlt & Hrecords & Hentries).
  assert (Hl : previous = l).
  { rewrite (get_hash_concretize m _ l r Hfind Hr) in Hfound. congruence. }
  subst previous.
  rewrite (result_output_concretize m l r _ Hvalid Hr Hindex) in Hout.
  assert (Ho : tx_outputs r !! Z.to_nat (point_index point) = Some o)
    by congruence.
  set (i := Z.to_nat (point_index point)) in *.
  set (r1 := set_spender_height i (to_uint32 h) r) in *.
  assert (Hr1 : records m1 !! l = Some r1)
    by (rewrite Hrecords; apply lookup_insert_eq).
  destruct (model_valid_lookup m l r Hvalid Hr) as (Hheight & _).
  assert (Hmodel2 :
    spend_model m1 point not_spent
    = (true, Model (<[l := set_spender_height i (to_uint32 not_spent) r1]>
                      (records m1)) (entries m1) (cached m1))).
  { unfold spend_model. rewrite Hnull, Hentries, Hfind, Hr1.
    change (tx_state r1) with (tx_state r).
    change (tx_height r1) with (tx_height r).
    rewrite Hstate, Z.eqb_refl, Z.eqb_refl. cbn [negb orb].
    destruct (Z.ltb_spec not_spent (tx_height r)) as [Hgt|_];
      [unfold not_spent in Hgt; lia|].
    subst r1. unfold set_spender_height at 1.
    rewrite tx_outputs_with_outputs, length_alter.
    destruct (Z.leb_spec (Z.of_nat (length (tx_outputs r)))
                (point_index point)); [lia|].
    rewrite <- Hentries. reflexivity. }
  destruct (spend_simulates m1 point not_spent Hvalid1 Hindex) as [Hsim2 _].
  unfold unspend. rewrite Hsim2, Hmodel2. cbn [fst snd].
  eexists. split; [reflexivity|].
  unfold concretize. cbn [hash_table_file_ hash_table_ cache_ records entries
    cached].
  split; [|split; [exact Hentries | reflexivity]].
  rewrite Hrecords, insert_insert_eq. subst r1.
  change (to_uint32 not_spent) with not_spent.
  rewrite (set_spender_height_restore i (to_uint32 h) not_spent r o Ho Hunspent).
  rewrite insert_id by exact Hr. reflexivity.
Qed.

(** X25. The outputs of a pooled transaction are hidden from every query
    that is not for the pool: after [pool], whatever the bytes of the
    transaction, [get_output] for a point with its hash that the cache does
    not resolve answers false at every fork height other than
    [max_size_t]. *)
Theorem pool_hides_outputs db link hash body forks ok db' point fork_height :
  0 <= forks <= max_uint32 ->
  pool db link hash body forks = Some (ok, db') ->
  is_null point = false ->
  point_hash point = hash ->
  populate (cache_ db) (reset_point point) fork_height = None ->
  fork_height <> max_size_t ->
  get_output db' point fork_height
  = Some (false, reset_prevout (point_metadata point)).
Proof.
  intros Hforks Hpool Hnull Hhash Hmiss Hfork.
  unfold pool in Hpool. rewrite store_true in Hpool.
  assert (Hdb : db' = Database
                        (<[link := metadata_bytes forks unconfirmed
                                     (state_byte pooled) no_time ++ body]>
                           (hash_table_file_ db))
                        ((hash, link) :: hash_table_ db) (cache_ db))
    by congruence.
  clear Hpool.
  assert (Hmeta : result_metadata db' link
                  = (Some forks, Some unconfirmed, Some (state_byte pooled),
                     Some no_time)).
  { apply (metadata_reads _ _ _ _ body); try assumption.
    - unfold unconfirmed, max_uint16. lia.
    - apply state_byte_range.
    - unfold no_time, max_uint32. lia.
    - subst db'. cbn [hash_table_file_]. apply lookup_insert_eq. }
  unfold result_metadata in Hmeta. injection Hmeta as Hh _ Hs _.
  assert (Hget : get_hash db' (point_hash point) = Some link).
  { subst db'. unfold get_hash, find_hash, find_link.
    cbn [hash_table_ hash_table_file_ find_key].
    rewrite decide_True by congruence. rewrite lookup_insert_eq.
    reflexivity. }
  unfold get_output. rewrite Hnull.
  replace (cache_ db') with (cache_ db) by (subst db'; reflexivity).
  rewrite Hmiss, Hget, Hh. cbn [mbind option_bind].
  destruct (forks =? 0); [reflexivity|].
  rewrite Hs. cbn [mbind option_bind].
  destruct (Z.eqb_spec fork_height max_size_t); [contradiction|].
  reflexivity.
Qed.

(** X26. On well-formed records, after a [confirm] at a height above zero
    has answered true, the outputs of the confirmed transaction are seen
    from that height on and not below: for a point the cache does not
    resolve and whose hash leads to the transaction, [get_output] answers
    false at a fork height below the height, and at a fork height at or
    above it answers true for every output the record holds, with the
    metadata confirmed, the height and the median time past of the
    confirmation, and the coinbase flag true exactly for position zero. *)
Theorem confirm_shows_outputs db link h mtp p db' point fork_height :
  database_wf db ->
  0 < h <= max_uint32 ->
  0 <= p <= max_uint16 ->
  0 <= mtp <= max_uint32 ->
  confirm db link h mtp p = Some (true, db') ->
  is_null point = false ->
  0 <= point_index point ->
  get_hash db' (point_hash point) = Some link ->
  populate (cache_ db') (reset_point point) fork_height = None ->
  (fork_height < h ->
   get_output db' point fork_height
   = Some (false, reset_prevout (point_metadata point))) /\
  (h <= fork_height ->
   forall o,
     result_output db' link (point_index point) = Some (Some o) ->
     exists prevout,
       get_output db' point fork_height = Some (true, prevout) /\
       prevout_cache prevout = Some o /\
       prevout_confirmed prevout = true /\
       prevout_height prevout = h /\
       prevout_median_time_past prevout = mtp /\
       prevout_coinbase prevout = (p =? 0)).
Proof.
  intros (m & Hvalid & ->) Hh Hp Hmtp Hconfirm Hnull Hindex Hfound Hmiss.
  destruct (confirm_simulates m link h mtp p Hvalid) as [Hsim Hvalid1].
  rewrite Hsim in Hconfirm. injection Hconfirm as Hok <-.
  destruct (confirm_model_found m link h mtp p Hok) as [r Hr].
  destruct (confirm_model_char m link r h mtp p Hr) as [_ Heffect].
  cbv zeta in Heffect.
  destruct (confirm_model m link h mtp p) as [ok m1]. cbn [fst snd] in *.
  subst ok. destruct (Heffect eq_refl) as [[Hentries Hrecords] _].
  set (T := targets m (List.map inpoint (tx_inputs r))) in *.
  set (r1 := confirm_change T (to_uint32 h) link (to_uint32 h) (to_uint16 p)
               (state_byte confirmed) (to_uint32 mtp) link r).
  assert (Hr1 : records m1 !! link = Some r1)
    by (rewrite Hrecords, Hr; reflexivity).
  assert (Hfields : tx_height r1 = h /\ tx_position r1 = p /\
                    tx_state r1 = state_byte confirmed /\
                    tx_median_time_past r1 = mtp).
  { subst r1. unfold confirm_change. rewrite decide_True by reflexivity.
    cbn [tx_height tx_position tx_state tx_median_time_past set_metadata].
    unfold to_uint32, to_uint16, max_uint32, max_uint16 in *.
    rewrite !Z.mod_small by lia. repeat split. }
  destruct Hfields as (Hheight & Hposition & Hstate & Hmedian).
  assert (Hfind : find_key (entries m1) (point_hash point) = Some link).
  { unfold get_hash, find_hash in Hfound.
    change (hash_table_ (concretize m1)) with (entries m1) in Hfound.
    destruct (find_key (entries m1) (point_hash point)) as [l|];
      [|discriminate].
    unfold find_link in Hfound.
    destruct (hash_table_file_ (concretize m1) !! l); congruence. }
  change (cache_ (concretize m1)) with (cached m1) in Hmiss.
  rewrite (get_output_record m1 point fork_height link r1) by assumption.
  rewrite (result_output_concretize m1 link r1) by assumption.
  cbv zeta. rewrite Hheight, Hposition, Hstate, Hmedian.
  destruct (Z.eqb_spec h 0); [lia|].
  unfold output_confirmed. rewrite Z.eqb_refl.
  change (state_byte confirmed =? state_byte indexed) with false.
  cbn [andb orb]. split.
  - intros Hbelow.
    destruct (Z.leb_spec h fork_height); [lia|].
    destruct (Z.eqb_spec fork_height max_size_t) as [Hmax|];
      [unfold max_size_t, max_uint32 in *; lia|].
    reflexivity.
  - intros Hreach o Ho.
    destruct (Z.leb_spec h fork_height); [|lia].
    rewrite andb_false_r.
    injection Ho as ->. eexists. split; [reflexivity|]. repeat split.
Qed.

End ComposeFacts.

Section ComposeExamples.
Import Serial TransactionDatabase RecordFormat Examples MoreExamples.

Lemma spend_then_unspend_witness :
  exists db2,
    unspend db_spent point_a1 = Some (true, db2) /\
    hash_table_file_ db2 = hash_table_file_ db0 /\
    hash_table_ db2 = hash_table_ db0 /\
    cache_ db2 = cache_ db_spent.
Proof.
  apply (spend_then_unspend db0 point_a1 100 db_spent link_a output_a1).
  - exact db0_wf.
  - vm_compute. reflexivity.
  - vm_compute. discriminate.
  - vm_compute. reflexivity.
  - vm_compute. reflexivity.
  - reflexivity.
  - vm_compute. reflexivity.
Defined.

Lemma pool_hides_outputs_witness :
  get_output db_c (OutputPoint hash_c 0 default_validation) 1000
  = Some (false, reset_prevout default_validation).
Proof.
  apply (pool_hides_outputs db0 link_c hash_c (body_bytes tx_c) 7 true db_c
           (OutputPoint hash_c 0 default_validation) 1000).
  - unfold max_uint32. lia.
  - vm_compute. reflexivity.
  - vm_compute. reflexivity.
  - reflexivity.
  - reflexivity.
  - vm_compute. discriminate.
Defined.

Lemma confirm_shows_outputs_witness :
  get_output db1 point_b0 99
  = Some (false, reset_prevout (point_metadata point_b0)) /\
  exists prevout,
    get_output db1 point_b0 100 = Some (true, prevout) /\
    prevout_cache prevout = Some (Output 0 not_spent 70 [4]) /\
    prevout_confirmed prevout = true /\
    prevout_height prevout = 100 /\
    prevout_median_time_past prevout = 1600000000 /\
    prevout_coinbase prevout = (3 =? 0).
Proof.
  split.
  - destruct (confirm_shows_outputs db0 link_b 100 1600000000 3 db1 point_b0
                99) as [Hbelow _].
    + exact db0_wf.
    + unfold max_uint32. lia.
    + unfold max_uint16. lia.
    + unfold max_uint32. lia.
    + vm_compute. reflexivity.
    + vm_compute. reflexivity.
    + vm_compute. discriminate.
    + vm_compute. reflexivity.
    + reflexivity.
    + apply Hbelow. lia.
  - destruct (confirm_shows_outputs db0 link_b 100 1600000000 3 db1 point_b0
                100) as [_ Hreach].
    + exact db0_wf.
    + unfold max_uint32. lia.
    + unfold max_uint16. lia.
    + unfold max_uint32. lia.
    + vm_compute. reflexivity.
    + vm_compute. reflexivity.
    + vm_compute. discriminate.
    + vm_compute. reflexivity.
    + reflexivity.
    + apply Hreach; [lia | vm_compute; reflexivity].
Defined.

End ComposeExamples.
